(** * Real-time price pipeline: ingest, OHLC upsert, fanout

    A shallow embedding of the ingestion/aggregation/fanout core of the
    real-time price system:

    - [Py]        the fragment of Python values and builtins the code relies on;
    - [TokenDb]   [database/token_db.py] (symbol mapping);
    - [Database]  [realtime_prices/database.py] (class [PriceDatabase]);
    - [Api]       [realtime_prices/api.py] (class [WebSocketManager]);
    - [Streamer]  [realtime_prices/streamer.py] (class [AngelPriceStreamer]);
    - [TokenStore], [Mapping]  the token table with its cache, and
      [websocket_proxy/mapping.py];
    - [AuthDb], [AuthHelper]  [database/auth_db.py] and
      [broker/angel/utils/auth_helper.py];
    - [ClientInfo]  [broker/angel/utils/client_info.py];
    - [Scenario]  concrete feeds, stores and consumers;
    - [DatabaseFacts], [ApiFacts], [StreamerFacts]  the properties;
    - [StoreFacts], [RegistryFacts], [PipelineFacts], [TokenFacts],
      [AuthFacts], [ClientInfoFacts]  further properties of the same code
      and of the modules around it.

    Conventions.  Prices are decimals with two fractional digits, carried as
    an integer number of hundredths (the exact content of a [DECIMAL(12,2)]
    column).  The binary rounding of Python floats is modelled only where
    the store hands values back to its callers ([Database.float_of_decimal]).
    Wall-clock readings ([time.time()], [CURRENT_TIMESTAMP]) are explicit
    arguments, in milliseconds.  Exceptions are values of [Py.res]. *)

From Stdlib Require Import ZArith String Ascii List Bool Lia.
From Stdlib Require Uint63 PrimFloat SpecFloat FloatOps.
From stdpp Require Import gmap strings list fin_maps sorting.

Set Warnings "-clear-no-such-hyp".

(* ===================================================================== *)
(** ** Python values                                                      *)
(* ===================================================================== *)

Module Py.

(** The values a feed dictionary may hold: [None], a [str] (of ASCII
    characters), or a number.  [PNum c] is the number [c/100], whether
    Python holds it as an [int] or as a [float]. *)
Inductive pyval : Type :=
  | PNone
  | PStr (s : string)
  | PNum (c : Z).

#[global] Instance pyval_eq_dec : EqDecision pyval.
Proof. solve_decision. Defined.

Inductive exn : Type :=
  | TypeError
  | ValueError
  | AttributeError
  | RuntimeError
  | DuckDBError.

#[global] Instance exn_eq_dec : EqDecision exn.
Proof. solve_decision. Defined.

(** Result of evaluating a Python expression or call. *)
Inductive res (A : Type) : Type :=
  | Ok (a : A)
  | Raise (e : exn).
Arguments Ok {A} a.
Arguments Raise {A} e.

(** [bool(v)] *)
Definition truthy (v : pyval) : bool :=
  match v with
  | PNone => false
  | PStr s => negb (String.eqb s "")
  | PNum c => negb (c =? 0)%Z
  end.

(** [a or b] *)
Definition py_or (a b : pyval) : pyval := if truthy a then a else b.

Abbreviation dict := (gmap string pyval).

(** [d.get(k)] *)
Definition get (d : dict) (k : string) : pyval := default PNone (d !! k).

(** [d.get(k, dflt)] *)
Definition get_default (d : dict) (k : string) (dflt : pyval) : pyval :=
  default dflt (d !! k).

(** The builtins whose string grammar is not reproduced here: parsing a
    [str] as a number, and printing a number. *)
Class Builtins : Type := {
  float_of_str : string -> option Z;
  int_of_str : string -> option Z;
  str_of_num : Z -> string
}.

Section WithBuiltins.
Context `{Builtins}.

(** [float(v)], in hundredths *)
Definition py_float (v : pyval) : res Z :=
  match v with
  | PNone => Raise TypeError
  | PStr s => match float_of_str s with Some c => Ok c | None => Raise ValueError end
  | PNum c => Ok c
  end.

(** [int(v)]: truncation towards zero *)
Definition py_int (v : pyval) : res Z :=
  match v with
  | PNone => Raise TypeError
  | PStr s => match int_of_str s with Some n => Ok n | None => Raise ValueError end
  | PNum c => Ok (Z.quot c 100)
  end.

(** [str(v)], as used by f-strings *)
Definition py_str (v : pyval) : string :=
  match v with
  | PNone => "None"
  | PStr s => s
  | PNum c => str_of_num c
  end.

End WithBuiltins.

Definition is_digit (a : ascii) : bool :=
  let n := nat_of_ascii a in (48 <=? n)%nat && (n <=? 57)%nat.

Fixpoint all_digits (s : string) : bool :=
  match s with
  | EmptyString => true
  | String a s' => is_digit a && all_digits s'
  end.

(** [s.isdigit()] on a [str] *)
Definition isdigit (s : string) : bool :=
  negb (String.eqb s "") && all_digits s.

(** [v.isdigit()]: only [str] has the method *)
Definition py_isdigit (v : pyval) : res bool :=
  match v with
  | PStr s => Ok (isdigit s)
  | _ => Raise AttributeError
  end.

(** [sep in s] for a one-character separator *)
Fixpoint contains (sep : ascii) (s : string) : bool :=
  match s with
  | EmptyString => false
  | String a s' => Ascii.eqb a sep || contains sep s'
  end.

(** [s.split(sep)] for a one-character separator: the head part and the
    remaining parts. *)
Fixpoint split_aux (sep : ascii) (s : string) : string * list string :=
  match s with
  | EmptyString => (EmptyString, [])
  | String a s' =>
      let '(hd, tl) := split_aux sep s' in
      if Ascii.eqb a sep then (EmptyString, hd :: tl) else (String a hd, tl)
  end.

Definition split (sep : ascii) (s : string) : list string :=
  let '(hd, tl) := split_aux sep s in hd :: tl.

(** Builtins used by the closed examples: no string is parsed as a number
    and numbers print as the empty string.  The examples hold numbers in
    numeric fields and strings in symbol fields, so neither is consulted. *)
Definition plain_builtins : Builtins :=
  {| float_of_str := fun _ => None;
     int_of_str := fun _ => None;
     str_of_num := fun _ => EmptyString |}.

End Py.

Import Py.

(* ===================================================================== *)
(** ** database/token_db.py                                               *)
(* ===================================================================== *)

Module TokenDb.

Record mock_entry : Type := {
  token : string;
  brsymbol : string;
  brexchange : string
}.

Definition _mock_tokens : list ((string * string) * mock_entry) :=
  [ (("RELIANCE", "NSE"), {| token := "2885"; brsymbol := "RELIANCE"; brexchange := "NSE" |});
    (("TCS", "NSE"), {| token := "11536"; brsymbol := "TCS"; brexchange := "NSE" |});
    (("INFY", "NSE"), {| token := "9220"; brsymbol := "INFY"; brexchange := "NSE" |});
    (("ICICIBANK", "NSE"), {| token := "4963"; brsymbol := "ICICIBANK"; brexchange := "NSE" |});
    (("SBIN", "NSE"), {| token := "3045"; brsymbol := "SBIN"; brexchange := "NSE" |});
    (("NIFTY", "NSE_INDEX"), {| token := "99926000"; brsymbol := "NIFTY 50"; brexchange := "NSE" |});
    (("SENSEX", "BSE_INDEX"), {| token := "1"; brsymbol := "SENSEX"; brexchange := "BSE" |}) ].

Fixpoint mock_get (tbl : list ((string * string) * mock_entry)) (k : string * string)
  : option mock_entry :=
  match tbl with
  | [] => None
  | (k', e) :: tbl' => if decide (k' = k) then Some e else mock_get tbl' k
  end.

(** [get_br_symbol_dbquery(symbol, exchange)] *)
Definition get_br_symbol_dbquery (symbol exchange : string) : string :=
  match mock_get _mock_tokens (symbol, exchange) with
  | Some mock_data => brsymbol mock_data
  | None => symbol (* Fallback to original symbol *)
  end.

(** [get_brexchange_dbquery(symbol, exchange)] *)
Definition get_brexchange_dbquery (symbol exchange : string) : string :=
  match mock_get _mock_tokens (symbol, exchange) with
  | Some mock_data => brexchange mock_data
  | None => exchange (* Fallback to original exchange *)
  end.

(** A call to [get_br_symbol] with the positional arguments [args].  The
    function takes two parameters, [(symbol, exchange)]; any other number
    of arguments is a [TypeError] raised before the body runs.  A pair
    that is not a pair of strings is not a key of the table, so the query
    falls back to the symbol.  The TTL cache only memoises the query and
    is left out. *)
Definition get_br_symbol (args : list pyval) : res pyval :=
  match args with
  | [PStr symbol; PStr exchange] => Ok (PStr (get_br_symbol_dbquery symbol exchange))
  | [symbol; _] => Ok symbol
  | _ => Raise TypeError
  end.

(** A call to [get_brexchange], same signature. *)
Definition get_brexchange (args : list pyval) : res pyval :=
  match args with
  | [PStr symbol; PStr exchange] => Ok (PStr (get_brexchange_dbquery symbol exchange))
  | [_; exchange] => Ok exchange
  | _ => Raise TypeError
  end.

End TokenDb.

(* ===================================================================== *)
(** ** database/token_db.py: the table and its cache as module state      *)
(* ===================================================================== *)

Module TokenStore.
Import TokenDb.

Abbreviation table := (list ((string * string) * mock_entry)).

(** [tbl[k] = e] on a dict kept in insertion order: a key already there
    keeps its place. *)
Fixpoint mock_set (tbl : table) (k : string * string) (e : mock_entry) : table :=
  match tbl with
  | [] => [(k, e)]
  | (k', e') :: tbl' =>
      if decide (k' = k) then (k, e) :: tbl' else (k', e') :: mock_set tbl' k e
  end.

(** The module globals: [_mock_tokens] and the entries of [token_cache]
    that are alive.  The passing of time only removes entries from the
    cache. *)
Record state : Type := {
  mock_tokens : table;
  token_cache : gmap string string
}.

Definition initial : state :=
  {| mock_tokens := _mock_tokens; token_cache := ∅ |}.

(** [a or b] for an optional [str] argument *)
Definition str_or (a : option string) (b : string) : string :=
  match a with
  | Some s => if String.eqb s "" then b else s
  | None => b
  end.

Section WithCache.
(** What [token_cache[k] = v] leaves of the entries already cached: a
    [TTLCache] drops the expired ones and, when full, the oldest. *)
Variable evicted : gmap string string -> gmap string string.

Definition cache_set (st : state) (cache_key value : string) : state :=
  {| mock_tokens := mock_tokens st;
     token_cache := <[cache_key := value]> (evicted (token_cache st)) |}.

(** [get_token_dbquery] *)
Definition get_token_dbquery (st : state) (symbol exchange : string) : option string :=
  match mock_get (mock_tokens st) (symbol, exchange) with
  | Some mock_data => Some (token mock_data)
  | None => None
  end.

(** [get_token] *)
Definition get_token (st : state) (symbol exchange : string) : state * option string :=
  let cache_key := symbol +:+ "-" +:+ exchange in
  match token_cache st !! cache_key with
  | Some cached => (st, Some cached)
  | None =>
      match get_token_dbquery st symbol exchange with
      | Some token => (cache_set st cache_key token, Some token)
      | None => (st, None)
      end
  end.

(** [get_symbol_dbquery]: the first entry, in table order, with the token
    and with the exchange as its exchange or its broker exchange. *)
Fixpoint symbol_of_token (tbl : table) (tok exchange : string) : option string :=
  match tbl with
  | [] => None
  | ((symbol, exch), data) :: tbl' =>
      if decide (token data = tok /\ (exch = exchange \/ brexchange data = exchange))
      then Some symbol
      else symbol_of_token tbl' tok exchange
  end.

Definition get_symbol_dbquery (st : state) (tok exchange : string) : option string :=
  symbol_of_token (mock_tokens st) tok exchange.

(** [get_symbol] *)
Definition get_symbol (st : state) (tok exchange : string) : state * option string :=
  let cache_key := tok +:+ "-" +:+ exchange in
  match token_cache st !! cache_key with
  | Some cached => (st, Some cached)
  | None =>
      match get_symbol_dbquery st tok exchange with
      | Some symbol => (cache_set st cache_key symbol, Some symbol)
      | None => (st, None)
      end
  end.

(** [get_oa_symbol_dbquery] *)
Definition get_oa_symbol_dbquery (st : state) (symbol exchange : string) : string := symbol.

(** [get_oa_symbol]; the query never gives [None], so its result is
    always cached. *)
Definition get_oa_symbol (st : state) (symbol exchange : string) : state * string :=
  let cache_key := "oa" +:+ symbol +:+ "-" +:+ exchange in
  match token_cache st !! cache_key with
  | Some cached => (st, cached)
  | None =>
      let oasymbol := get_oa_symbol_dbquery st symbol exchange in
      (cache_set st cache_key oasymbol, oasymbol)
  end.

(** [get_symbol_count] *)
Definition get_symbol_count (st : state) : nat := length (mock_tokens st).

(** [get_br_symbol_dbquery] *)
Definition get_br_symbol_dbquery (st : state) (symbol exchange : string) : string :=
  match mock_get (mock_tokens st) (symbol, exchange) with
  | Some mock_data => brsymbol mock_data
  | None => symbol (* Fallback to original symbol *)
  end.

(** [get_br_symbol] *)
Definition get_br_symbol (st : state) (symbol exchange : string) : state * string :=
  let cache_key := "br" +:+ symbol +:+ "-" +:+ exchange in
  match token_cache st !! cache_key with
  | Some cached => (st, cached)
  | None =>
      let brsymbol := get_br_symbol_dbquery st symbol exchange in
      (cache_set st cache_key brsymbol, brsymbol)
  end.

(** [get_brexchange_dbquery] *)
Definition get_brexchange_dbquery (st : state) (symbol exchange : string) : string :=
  match mock_get (mock_tokens st) (symbol, exchange) with
  | Some mock_data => brexchange mock_data
  | None => exchange (* Fallback to original exchange *)
  end.

(** [get_brexchange] *)
Definition get_brexchange (st : state) (symbol exchange : string) : state * string :=
  let cache_key := "brex-" +:+ symbol +:+ "-" +:+ exchange in
  match token_cache st !! cache_key with
  | Some cached => (st, cached)
  | None =>
      let brexchange := get_brexchange_dbquery st symbol exchange in
      (cache_set st cache_key brexchange, brexchange)
  end.

End WithCache.

(** [add_mock_token] *)
Definition add_mock_token (st : state) (symbol exchange tok : string)
    (brsymbol brexchange : option string) : state :=
  {| mock_tokens :=
       mock_set (mock_tokens st) (symbol, exchange)
         {| token := tok;
            brsymbol := str_or brsymbol symbol;
            brexchange := str_or brexchange exchange |};
     token_cache := token_cache st |}.

End TokenStore.

(* ===================================================================== *)
(** ** websocket_proxy/mapping.py: class SymbolMapper                     *)
(* ===================================================================== *)

Module Mapping.
Import TokenDb TokenStore.

Record token_info : Type := {
  i_token : string;
  i_symbol : string;
  i_exchange : string;
  i_brsymbol : string;
  i_brexchange : string
}.

Section WithCache.
Variable evicted : gmap string string -> gmap string string.

(** [SymbolMapper.get_token_from_symbol] *)
Definition get_token_from_symbol (st : state) (symbol exchange : string)
  : state * option token_info :=
  let '(st, token) := get_token evicted st symbol exchange in
  let '(st, br_symbol) := get_br_symbol evicted st symbol exchange in
  let '(st, br_exchange) := get_brexchange evicted st symbol exchange in
  match token with
  | Some tok =>
      if negb (String.eqb tok "")
      then (st, Some {| i_token := tok; i_symbol := symbol; i_exchange := exchange;
                        i_brsymbol := str_or (Some br_symbol) symbol;
                        i_brexchange := str_or (Some br_exchange) exchange |})
      else (st, None)
  | None => (st, None)
  end.

(** [SymbolMapper.get_symbol_from_token] *)
Definition get_symbol_from_token (st : state) (tok exchange : string)
  : state * option token_info :=
  let '(st, symbol) := get_symbol evicted st tok exchange in
  match symbol with
  | Some symbol =>
      if negb (String.eqb symbol "")
      then
        let '(st, br_symbol) := get_br_symbol evicted st symbol exchange in
        let '(st, br_exchange) := get_brexchange evicted st symbol exchange in
        (st, Some {| i_token := tok; i_symbol := symbol; i_exchange := exchange;
                     i_brsymbol := str_or (Some br_symbol) symbol;
                     i_brexchange := str_or (Some br_exchange) exchange |})
      else (st, None)
  | None => (st, None)
  end.

End WithCache.

End Mapping.

(* ===================================================================== *)
(** ** realtime_prices/database.py                                        *)
(* ===================================================================== *)

Module Database.

Local Open Scope Z_scope.

(** A row of table [prices]; the primary key [(date, symbol, exchange)] is
    the key of the map below. *)
Record price_row : Type := {
  open : Z;
  high : Z;
  low : Z;
  close : Z;
  volume : Z;
  oi : Z;
  last_updated : Z;
  created_at : Z
}.

(** A row of table [real_time_ticks]. *)
Record tick_row : Type := {
  t_id : Z;
  t_timestamp : Z;
  t_symbol : string;
  t_exchange : string;
  t_ltp : Z;
  t_volume : Z;
  t_oi : Z;
  t_bid : Z;
  t_ask : Z
}.

(** The state behind [self.conn]: both tables and the sequence
    [tick_id_seq] (the value the next [nextval] returns; [START 1]). *)
Record PriceDatabase : Type := {
  prices : gmap (Z * string * string) price_row;
  real_time_ticks : list tick_row;
  tick_id_seq : Z
}.

Definition empty_db : PriceDatabase :=
  {| prices := ∅; real_time_ticks := []; tick_id_seq := 1 |}.

(** Column domains: [DECIMAL(12,2)] holds at most twelve digits, [BIGINT]
    is a signed 64-bit integer.  A value outside makes the statement fail. *)
Definition fits_decimal (c : Z) : bool := Z.abs c <? 10 ^ 12.
Definition fits_bigint (n : Z) : bool := (- 2 ^ 63 <=? n) && (n <? 2 ^ 63).

(** A stored row the update branch can extend: inside the column domains,
    with a strictly positive [low]. *)
Record row_ok (r : price_row) : Prop := {
  ok_high : fits_decimal (high r) = true;
  ok_low : fits_decimal (low r) = true;
  ok_low_pos : 0 < low r;
  ok_volume : fits_bigint (volume r) = true;
  ok_oi : fits_bigint (oi r) = true
}.

(** One call of [upsert_price], with the date and clock it runs at. *)
Record upsert_call : Type := {
  uc_today : Z;
  uc_now : Z;
  uc_symbol : string;
  uc_exchange : string;
  uc_price_data : dict
}.

Section WithBuiltins.
Context `{Builtins}.

(** Binding a Python value to a [DECIMAL(12,2) NOT NULL] column: [None]
    violates the constraint, a number outside the domain does not fit,
    and a [str] is cast as [float] would parse it. *)
Definition to_decimal (v : pyval) : res Z :=
  match py_float v with
  | Ok c => if fits_decimal c then Ok c else Raise DuckDBError
  | Raise _ => Raise DuckDBError
  end.

(** [_insert_tick]: draws the identifier, then inserts; every failure is
    caught and logged inside. *)
Definition _insert_tick (now : Z) (self : PriceDatabase)
    (symbol exchange : string) (price_data : dict) : PriceDatabase :=
  let tick_id := tick_id_seq self in
  let self := {| prices := prices self;
                 real_time_ticks := real_time_ticks self;
                 tick_id_seq := tick_id + 1 |} in
  match py_float (get_default price_data "ltp" (PNum 0)),
        py_int (get_default price_data "volume" (PNum 0)),
        py_int (get_default price_data "oi" (PNum 0)),
        py_float (get_default price_data "bid" (PNum 0)),
        py_float (get_default price_data "ask" (PNum 0)) with
  | Ok ltp, Ok vol, Ok o, Ok bid, Ok ask =>
      if fits_decimal ltp && fits_bigint vol && fits_bigint o
         && fits_decimal bid && fits_decimal ask
      then {| prices := prices self;
              real_time_ticks :=
                real_time_ticks self ++
                [ {| t_id := tick_id; t_timestamp := now;
                     t_symbol := symbol; t_exchange := exchange;
                     t_ltp := ltp; t_volume := vol; t_oi := o;
                     t_bid := bid; t_ask := ask |} ];
              tick_id_seq := tick_id_seq self |}
      else self
  | _, _, _, _, _ => self
  end.

(** [upsert_price].  [today] is [date.today()], [now] is
    [CURRENT_TIMESTAMP]. *)
Definition upsert_price (today now : Z) (self : PriceDatabase)
    (symbol exchange : string) (price_data : dict) : PriceDatabase * bool :=
  match py_float (get_default price_data "ltp" (PNum 0)),
        py_int (get_default price_data "volume" (PNum 0)),
        py_int (get_default price_data "oi" (PNum 0)) with
  | Ok current_price, Ok vol, Ok o =>
      match prices self !! (today, symbol, exchange) with
      | Some existing =>
          (* Update existing record *)
          let new_high := Z.max (high existing) current_price in
          let new_low :=
            if 0 <? low existing then Z.min (low existing) current_price
            else current_price in
          let new_volume := Z.max (volume existing) vol in
          let new_oi := if 0 <? o then o else oi existing in
          if fits_decimal new_high && fits_decimal new_low
             && fits_decimal current_price
             && fits_bigint new_volume && fits_bigint new_oi
          then
            let row := {| open := open existing; high := new_high;
                          low := new_low; close := current_price;
                          volume := new_volume; oi := new_oi;
                          last_updated := now;
                          created_at := created_at existing |} in
            let self := {| prices := <[(today, symbol, exchange) := row]> (prices self);
                           real_time_ticks := real_time_ticks self;
                           tick_id_seq := tick_id_seq self |} in
            (_insert_tick now self symbol exchange price_data, true)
          else (self, false)
      | None =>
          (* Insert new record *)
          let open_price := get_default price_data "open" (PNum current_price) in
          let high_price := get_default price_data "high" (PNum current_price) in
          let low_price := get_default price_data "low" (PNum current_price) in
          match to_decimal open_price, to_decimal high_price,
                to_decimal low_price with
          | Ok op, Ok hi, Ok lo =>
              if fits_decimal current_price && fits_bigint vol && fits_bigint o
              then
                let row := {| open := op; high := hi; low := lo;
                              close := current_price;
                              volume := vol; oi := o;
                              last_updated := now; created_at := now |} in
                let self := {| prices := <[(today, symbol, exchange) := row]> (prices self);
                               real_time_ticks := real_time_ticks self;
                               tick_id_seq := tick_id_seq self |} in
                (_insert_tick now self symbol exchange price_data, true)
              else (self, false)
          | _, _, _ => (self, false)
          end
      end
  | _, _, _ => (self, false)
  end.

(** [ticks] is the feed for one day: each tick comes with the clock
    reading at which it is applied. *)
Definition upsert_all (today : Z) (self : PriceDatabase)
    (symbol exchange : string) (ticks : list (Z * dict)) : PriceDatabase :=
  foldl (fun db t => fst (upsert_price today t.1 db symbol exchange t.2)) self ticks.

(** Calls of [upsert_price] applied in order, whatever they return. *)
Definition upsert_calls (self : PriceDatabase) (calls : list upsert_call) : PriceDatabase :=
  foldl (fun db c =>
           (upsert_price (uc_today c) (uc_now c) db
              (uc_symbol c) (uc_exchange c) (uc_price_data c)).1)
        self calls.

(** The fields of a tick as [upsert_price] reads them. *)
Definition ltp_of (price_data : dict) : res Z :=
  py_float (get_default price_data "ltp" (PNum 0)).
Definition volume_of (price_data : dict) : res Z :=
  py_int (get_default price_data "volume" (PNum 0)).
Definition oi_of (price_data : dict) : res Z :=
  py_int (get_default price_data "oi" (PNum 0)).

(** A tick [upsert_price] accepts on an existing row: a strictly positive
    last price, and fields inside the column domains. *)
Definition well_formed_tick (price_data : dict) : bool :=
  match ltp_of price_data, volume_of price_data, oi_of price_data with
  | Ok c, Ok v, Ok o => (0 <? c) && fits_decimal c && fits_bigint v && fits_bigint o
  | _, _, _ => false
  end.

Definition ltp_val (price_data : dict) : Z :=
  match ltp_of price_data with Ok c => c | Raise _ => 0 end.
Definition volume_val (price_data : dict) : Z :=
  match volume_of price_data with Ok v => v | Raise _ => 0 end.

(** What the insert branch stores for ["open"], ["high"] or ["low"]: the
    field when the key is present, the last price when it is absent. *)
Definition seed (price_data : dict) (field : string) : res Z :=
  to_decimal (get_default price_data field (PNum (ltp_val price_data))).

Definition seed_val (price_data : dict) (field : string) : Z :=
  match seed price_data field with Ok c => c | Raise _ => 0 end.

(** The first tick of a key is insertable, and seeds strictly positive
    [high] and [low]. *)
Definition positive_seeds (price_data : dict) : bool :=
  match seed price_data "open", seed price_data "high", seed price_data "low" with
  | Ok _, Ok h, Ok l => (0 <? h) && (0 <? l)
  | _, _, _ => false
  end.

(** The seed as the specification words it: [tick.high or tick.lastPrice]. *)
Definition spec_seed (price_data : dict) (field : string) : pyval :=
  py_or (get price_data field) (PNum (ltp_val price_data)).

(** The aggregate [high] as the specification words it: the maximum of
    every last price and of the first tick's seed. *)
Definition spec_high (first : dict) (rest : list dict) : res Z :=
  match py_float (spec_seed first "high") with
  | Ok h => Ok (fold_left Z.max (map ltp_val (first :: rest)) h)
  | Raise e => Raise e
  end.

End WithBuiltins.

(** *** Read path *)

(** [float(x)] for [x] the [Decimal] of [c] hundredths read from a
    [DECIMAL(12,2)] column: the IEEE-754 double nearest to [c/100].  Both
    [c] and [100] are doubles (the column holds less than [2^53]
    hundredths) and the division is correctly rounded. *)
Definition float_of_decimal (c : Z) : PrimFloat.float :=
  let quotient n :=
    PrimFloat.div (PrimFloat.of_uint63 (Uint63.of_Z n))
                  (PrimFloat.of_uint63 (Uint63.of_Z 100)) in
  if 0 <=? c then quotient c else PrimFloat.opp (quotient (- c)).

(** The dictionary [get_current_price] returns. *)
Record current_price : Type := {
  cp_symbol : string;
  cp_exchange : string;
  cp_open : PrimFloat.float;
  cp_high : PrimFloat.float;
  cp_low : PrimFloat.float;
  cp_close : PrimFloat.float;
  cp_ltp : PrimFloat.float;
  cp_volume : Z;
  cp_oi : Z;
  cp_last_updated : Z
}.

(** [get_current_price]: today's row for the key, or [None]. *)
Definition get_current_price (today : Z) (self : PriceDatabase)
    (symbol exchange : string) : option current_price :=
  match prices self !! (today, symbol, exchange) with
  | Some result =>
      Some {| cp_symbol := symbol;
              cp_exchange := exchange;
              cp_open := float_of_decimal (open result);
              cp_high := float_of_decimal (high result);
              cp_low := float_of_decimal (low result);
              cp_close := float_of_decimal (close result);
              cp_ltp := float_of_decimal (close result); (* Close price as LTP *)
              cp_volume := volume result;
              cp_oi := oi result;
              cp_last_updated := last_updated result |}
  | None => None
  end.

(** The dictionaries [get_recent_ticks] builds from the selected rows. *)
Record recent_tick : Type := {
  rt_timestamp : Z;
  rt_symbol : string;
  rt_exchange : string;
  rt_ltp : PrimFloat.float;
  rt_volume : Z;
  rt_oi : Z;
  rt_bid : PrimFloat.float;
  rt_ask : PrimFloat.float
}.

(** [ORDER BY timestamp DESC] *)
Definition newer_first (a b : tick_row) : Prop := t_timestamp b <= t_timestamp a.

#[global] Instance newer_first_dec a b : Decision (newer_first a b).
Proof. unfold newer_first. apply _. Defined.

(** [get_recent_ticks] for a non-negative [limit]: the rows of the key
    by decreasing timestamp (rows of equal timestamp in log order). *)
Definition get_recent_ticks (self : PriceDatabase)
    (symbol exchange : string) (limit : nat) : list recent_tick :=
  map (fun row =>
         {| rt_timestamp := t_timestamp row;
            rt_symbol := t_symbol row;
            rt_exchange := t_exchange row;
            rt_ltp := float_of_decimal (t_ltp row);
            rt_volume := t_volume row;
            rt_oi := t_oi row;
            rt_bid := float_of_decimal (t_bid row);
            rt_ask := float_of_decimal (t_ask row) |})
      (take limit
         (merge_sort newer_first
            (filter (fun row => t_symbol row = symbol /\ t_exchange row = exchange)
               (real_time_ticks self)))).

(** The exact value of a finite double, as [(sign * mantissa, exponent)]. *)
Definition float_value (f : PrimFloat.float) : option (Z * Z) :=
  match FloatOps.Prim2SF f with
  | SpecFloat.S754_zero _ => Some (0, 0)
  | SpecFloat.S754_finite s m e => Some (if s then Z.neg m else Z.pos m, e)
  | _ => None
  end.

(** [f] is exactly the decimal of [c] hundredths: [m * 2^e = c / 100]. *)
Definition is_exact_decimal (f : PrimFloat.float) (c : Z) : bool :=
  match float_value f with
  | Some (m, e) =>
      if e <? 0 then m * 100 =? c * 2 ^ (- e) else m * 2 ^ e * 100 =? c
  | None => false
  end.

(** [f] is within half a hundredth of the decimal of [c] hundredths:
    [|m * 2^e * 100 - c| < 1/2]. *)
Definition rounds_to_decimal (f : PrimFloat.float) (c : Z) : bool :=
  match float_value f with
  | Some (m, e) =>
      if e <? 0 then 2 * Z.abs (m * 100 - c * 2 ^ (- e)) <? 2 ^ (- e)
      else 2 * Z.abs (m * 2 ^ e * 100 - c) <? 1
  | None => false
  end.

(** The dictionaries [get_price_history] builds from the selected rows. *)
Record history_row : Type := {
  h_date : Z;
  h_symbol : string;
  h_exchange : string;
  h_open : PrimFloat.float;
  h_high : PrimFloat.float;
  h_low : PrimFloat.float;
  h_close : PrimFloat.float;
  h_volume : Z;
  h_oi : Z;
  h_last_updated : Z
}.

(** [ORDER BY date DESC] on rows of [prices] taken with their key. *)
Definition newer_date_first (a b : (Z * string * string) * price_row) : Prop :=
  b.1.1.1 <= a.1.1.1.

#[global] Instance newer_date_first_dec a b : Decision (newer_date_first a b).
Proof. unfold newer_date_first. apply _. Defined.

(** The rows [get_price_history] selects, before the conversion:
    [WHERE symbol = ? AND exchange = ? ORDER BY date DESC], then
    [LIMIT ?]. *)
Definition sorted_history (self : PriceDatabase) (symbol exchange : string)
  : list ((Z * string * string) * price_row) :=
  merge_sort newer_date_first
    (filter (fun kr : (Z * string * string) * price_row =>
               kr.1.1.2 = symbol /\ kr.1.2 = exchange)
       (map_to_list (prices self))).

Definition history_rows (self : PriceDatabase) (symbol exchange : string) (days : nat)
  : list ((Z * string * string) * price_row) :=
  take days (sorted_history self symbol exchange).

(** [get_price_history] for a non-negative [days]. *)
Definition get_price_history (self : PriceDatabase)
    (symbol exchange : string) (days : nat) : list history_row :=
  map (fun kr : (Z * string * string) * price_row =>
         {| h_date := kr.1.1.1;
            h_symbol := kr.1.1.2;
            h_exchange := kr.1.2;
            h_open := float_of_decimal (open kr.2);
            h_high := float_of_decimal (high kr.2);
            h_low := float_of_decimal (low kr.2);
            h_close := float_of_decimal (close kr.2);
            h_volume := volume kr.2;
            h_oi := oi kr.2;
            h_last_updated := last_updated kr.2 |})
      (history_rows self symbol exchange days).

(** The rows [get_recent_ticks] selects, before the conversion. *)
Definition recent_rows (self : PriceDatabase) (symbol exchange : string) (limit : nat)
  : list tick_row :=
  take limit
    (merge_sort newer_first
       (filter (fun row => t_symbol row = symbol /\ t_exchange row = exchange)
          (real_time_ticks self))).

(** [cleanup_old_ticks] at clock [now] (milliseconds; a day has
    86 400 000): [DELETE FROM real_time_ticks WHERE timestamp <
    CURRENT_TIMESTAMP - INTERVAL ? DAYS].  [executed] tells whether the
    statement runs ([true]) or raises ([false]; the error is logged). *)
Definition cleanup_old_ticks (executed : bool) (now : Z) (self : PriceDatabase)
    (days_to_keep : Z) : PriceDatabase :=
  if executed then
    {| prices := prices self;
       real_time_ticks :=
         filter (fun row => ~ (t_timestamp row < now - days_to_keep * 86400000))
           (real_time_ticks self);
       tick_id_seq := tick_id_seq self |}
  else self.

(** The identifiers of the tick log are strictly increasing and below the
    next value of the sequence. *)
Definition tick_ids_ok (self : PriceDatabase) : Prop :=
  StronglySorted Z.lt (map t_id (real_time_ticks self)) /\
  Forall (fun row => t_id row < tick_id_seq self) (real_time_ticks self).

(** [p] holds of the [fuel] integers from [c] on. *)
Fixpoint all_from (fuel : nat) (c : Z) (p : Z -> bool) : bool :=
  match fuel with
  | O => true
  | S fuel' => p c && all_from fuel' (c + 1) p
  end.

End Database.

(* ===================================================================== *)
(** ** realtime_prices/api.py: class WebSocketManager                     *)
(* ===================================================================== *)

Module Api.

Local Open Scope Z_scope.

(** A connection object, by identity. *)
Abbreviation WebSocket := nat.

(** The dictionary built by [_broadcast_update], of type ['price_update'];
    [json.dumps] of it is the text put on the wire, and the text is
    identified with the dictionary. *)
Record message : Type := {
  m_symbol : pyval;
  m_exchange : pyval;
  m_data : dict;
  m_timestamp : Z
}.

#[global] Instance message_eq_dec : EqDecision message.
Proof. solve_decision. Defined.

Record WebSocketManager : Type := {
  active_connections : list WebSocket;
  subscriptions : gmap WebSocket (list string);
  latest_prices : list (string * message); (* a dict, in insertion order *)
  last_sent : gmap string Z
}.

(** [WebSocketManager()] *)
Definition manager : WebSocketManager :=
  {| active_connections := []; subscriptions := ∅;
     latest_prices := []; last_sent := ∅ |}.

(** [l.remove(x)] when [x in l]: drops the first occurrence. *)
Fixpoint remove_first {A} `{EqDecision A} (x : A) (l : list A) : list A :=
  match l with
  | [] => []
  | y :: l' => if decide (y = x) then l' else y :: remove_first x l'
  end.

(** [d[k] = v] on a dict kept in insertion order. *)
Fixpoint dict_set {V} (k : string) (v : V) (d : list (string * V)) : list (string * V) :=
  match d with
  | [] => [(k, v)]
  | (k', v') :: d' => if decide (k' = k) then (k, v) :: d' else (k', v') :: dict_set k v d'
  end.

Fixpoint dict_get {V} (k : string) (d : list (string * V)) : option V :=
  match d with
  | [] => None
  | (k', v') :: d' => if decide (k' = k) then Some v' else dict_get k d'
  end.

(** [self.subscriptions.get(websocket, [])] *)
Definition subscribed_symbols (self : WebSocketManager) (websocket : WebSocket) : list string :=
  default [] (subscriptions self !! websocket).

(** [connect], once [websocket.accept()] has returned *)
Definition connect (self : WebSocketManager) (websocket : WebSocket) : WebSocketManager :=
  {| active_connections := active_connections self ++ [websocket];
     subscriptions := <[websocket := []]> (subscriptions self);
     latest_prices := latest_prices self;
     last_sent := last_sent self |}.

(** [disconnect] *)
Definition disconnect (self : WebSocketManager) (websocket : WebSocket) : WebSocketManager :=
  {| active_connections :=
       if bool_decide (websocket ∈ active_connections self)
       then remove_first websocket (active_connections self)
       else active_connections self;
     subscriptions :=
       if bool_decide (is_Some (subscriptions self !! websocket))
       then delete websocket (subscriptions self)
       else subscriptions self;
     latest_prices := latest_prices self;
     last_sent := last_sent self |}.

(** [subscribe_symbol] *)
Definition subscribe_symbol (self : WebSocketManager) (websocket : WebSocket)
    (symbol : string) : WebSocketManager :=
  let subs :=
    if bool_decide (is_Some (subscriptions self !! websocket))
    then subscriptions self
    else <[websocket := []]> (subscriptions self) in
  let held := default [] (subs !! websocket) in
  {| active_connections := active_connections self;
     subscriptions :=
       if bool_decide (symbol ∈ held) then subs
       else <[websocket := held ++ [symbol]]> subs;
     latest_prices := latest_prices self;
     last_sent := last_sent self |}.

(** [unsubscribe_symbol] *)
Definition unsubscribe_symbol (self : WebSocketManager) (websocket : WebSocket)
    (symbol : string) : WebSocketManager :=
  match subscriptions self !! websocket with
  | Some held =>
      if bool_decide (symbol ∈ held)
      then {| active_connections := active_connections self;
              subscriptions := <[websocket := remove_first symbol held]> (subscriptions self);
              latest_prices := latest_prices self;
              last_sent := last_sent self |}
      else self
  | None => self
  end.

(** The guard of [broadcast]: a truthy [symbol_filter] that the consumer
    is not subscribed to makes the loop [continue]. *)
Definition filtered_out (self : WebSocketManager) (symbol_filter : option string)
    (websocket : WebSocket) : bool :=
  match symbol_filter with
  | Some f =>
      negb (String.eqb f "") &&
      negb (bool_decide (f ∈ subscribed_symbols self websocket))
  | None => false
  end.

Section WithTransport.
(** [send_text websocket m] tells whether [await websocket.send_text(m)]
    returns ([true]) or raises ([false]). *)
Variable send_text : WebSocket -> message -> bool.

(** The [for websocket in self.active_connections] loop of [broadcast]:
    the messages delivered and the list [disconnected], in order. *)
Fixpoint broadcast_loop (self : WebSocketManager) (m : message)
    (symbol_filter : option string) (connections : list WebSocket)
  : list (WebSocket * message) * list WebSocket :=
  match connections with
  | [] => ([], [])
  | websocket :: rest =>
      let '(sent, disconnected) := broadcast_loop self m symbol_filter rest in
      if filtered_out self symbol_filter websocket then (sent, disconnected)
      else if send_text websocket m then ((websocket, m) :: sent, disconnected)
      else (sent, websocket :: disconnected)
  end.

(** [broadcast]: the manager afterwards and the messages delivered. *)
Definition broadcast (self : WebSocketManager) (m : message)
    (symbol_filter : option string)
  : WebSocketManager * list (WebSocket * message) :=
  let '(sent, disconnected) :=
    broadcast_loop self m symbol_filter (active_connections self) in
  (foldl disconnect self disconnected, sent).

(** The inner loop of [push_latest_prices] for one key: the messages
    delivered ([sent_count] is their number). *)
Fixpoint push_loop (self : WebSocketManager) (symbol_key : string) (m : message)
    (connections : list WebSocket) : list (WebSocket * message) :=
  match connections with
  | [] => []
  | websocket :: rest =>
      if bool_decide (symbol_key ∈ subscribed_symbols self websocket)
      then if send_text websocket m
           then (websocket, m) :: push_loop self symbol_key m rest
           else (* Don't remove client here *) push_loop self symbol_key m rest
      else push_loop self symbol_key m rest
  end.

(** One iteration of the outer loop of [push_latest_prices]. *)
Definition push_key (current_time : Z) (self : WebSocketManager)
    (symbol_key : string) (price_data : message)
  : WebSocketManager * list (WebSocket * message) :=
  let last_sent_time := default 0 (last_sent self !! symbol_key) in
  if 500 <=? current_time - last_sent_time then
    let sent := push_loop self symbol_key price_data (active_connections self) in
    if (0 <? length sent)%nat
    then ({| active_connections := active_connections self;
             subscriptions := subscriptions self;
             latest_prices := latest_prices self;
             last_sent := <[symbol_key := current_time]> (last_sent self) |}, sent)
    else (self, sent)
  else (self, []).

Fixpoint push_items (current_time : Z) (self : WebSocketManager)
    (items : list (string * message))
  : WebSocketManager * list (WebSocket * message) :=
  match items with
  | [] => (self, [])
  | (symbol_key, price_data) :: rest =>
      let '(self1, sent1) := push_key current_time self symbol_key price_data in
      let '(self2, sent2) := push_items current_time self1 rest in
      (self2, sent1 ++ sent2)
  end.

(** [push_latest_prices], with [current_time = time.time()] *)
Definition push_latest_prices (current_time : Z) (self : WebSocketManager)
  : WebSocketManager * list (WebSocket * message) :=
  push_items current_time self (latest_prices self).

End WithTransport.

(** The calls that touch the registry, for stating what holds of every
    manager the endpoints can build. *)
Inductive call : Type :=
  | Connect (websocket : WebSocket)
  | Disconnect (websocket : WebSocket)
  | Subscribe (websocket : WebSocket) (symbol : string)
  | Unsubscribe (websocket : WebSocket) (symbol : string).

Definition do_call (self : WebSocketManager) (c : call) : WebSocketManager :=
  match c with
  | Connect ws => connect self ws
  | Disconnect ws => disconnect self ws
  | Subscribe ws k => subscribe_symbol self ws k
  | Unsubscribe ws k => unsubscribe_symbol self ws k
  end.

Definition do_calls (calls : list call) : WebSocketManager :=
  foldl do_call manager calls.

(** Number of entries for [symbol] in a subscription list. *)
Definition occurrences (symbol : string) (held : list string) : nat :=
  length (filter (fun s => s = symbol) held).

(** Every subscription list is duplicate-free. *)
Definition registry_ok (self : WebSocketManager) : Prop :=
  forall ws held, subscriptions self !! ws = Some held -> NoDup held.

(** *** REST endpoints over the store *)

(** How an endpoint ends: the response body, or the [HTTPException]
    raised, with its status code. *)
Inductive http (A : Type) : Type :=
  | Response (body : A)
  | HTTPException (status_code : Z).
Arguments Response {A} body.
Arguments HTTPException {A} status_code.

(** [bool(n)] and [n or d] for an [Optional[int]] query parameter *)
Definition int_truthy (n : option Z) : bool :=
  match n with
  | Some n => negb (n =? 0)
  | None => false
  end.

Definition int_or (n : option Z) (d : Z) : Z :=
  if int_truthy n then default 0 n else d.

Module Endpoints.
Section WithUpper.
(** [str.upper] *)
Variable upper : string -> string.

(** [GET /history/{symbol}] *)
Definition get_price_history (db : Database.PriceDatabase)
    (symbol exchange : string) (days : option Z) : http (list Database.history_row) :=
  if int_truthy days && ((default 0 days <? 1) || (365 <? default 0 days))
  then HTTPException 400
  else Response (Database.get_price_history db (upper symbol) (upper exchange)
                   (Z.to_nat (int_or days 30))).

(** [GET /ticks/{symbol}] *)
Definition get_recent_ticks (db : Database.PriceDatabase)
    (symbol exchange : string) (limit : option Z) : http (list Database.recent_tick) :=
  if int_truthy limit && ((default 0 limit <? 1) || (1000 <? default 0 limit))
  then HTTPException 400
  else Response (Database.get_recent_ticks db (upper symbol) (upper exchange)
                   (Z.to_nat (int_or limit 100))).

End WithUpper.
End Endpoints.

End Api.

(* ===================================================================== *)
(** ** realtime_prices/streamer.py: class AngelPriceStreamer              *)
(* ===================================================================== *)

Module Streamer.
Import Api.

Local Open Scope Z_scope.

Inductive level : Type := DEBUG | INFO | WARNING | ERROR.

#[global] Instance level_eq_dec : EqDecision level.
Proof. solve_decision. Defined.

(** [self.stats] *)
Record Stats : Type := {
  messages_received : Z;
  db_updates : Z;
  broadcast_count : Z;
  start_time : option Z;
  last_message_time : option Z
}.

(** The attributes of the streamer the pipeline reads or writes; [DB] is
    the state behind [self.db]. *)
Record AngelPriceStreamer (DB : Type) : Type := {
  db : DB;
  running : bool;
  connected : bool;
  _subscribers : list WebSocket;
  reconnect_delay : Z;
  max_reconnect_delay : Z;
  reconnect_attempts : Z;
  max_reconnect_attempts : Z;
  _last_db_update : gmap string Z;
  min_update_interval : Z;
  stats : Stats
}.
Arguments db {DB} _.
Arguments running {DB} _.
Arguments connected {DB} _.
Arguments _subscribers {DB} _.
Arguments reconnect_delay {DB} _.
Arguments max_reconnect_delay {DB} _.
Arguments reconnect_attempts {DB} _.
Arguments max_reconnect_attempts {DB} _.
Arguments _last_db_update {DB} _.
Arguments min_update_interval {DB} _.
Arguments stats {DB} _.

(** [__init__] *)
Definition init {DB} (d : DB) : AngelPriceStreamer DB :=
  {| db := d; running := false; connected := false; _subscribers := [];
     reconnect_delay := 5; max_reconnect_delay := 60;
     reconnect_attempts := 0; max_reconnect_attempts := 10;
     _last_db_update := ∅; min_update_interval := 1000;
     stats := {| messages_received := 0; db_updates := 0; broadcast_count := 0;
                 start_time := None; last_message_time := None |} |}.

Section Setters.
Context {DB : Type}.

Definition with_db (self : AngelPriceStreamer DB) (d : DB) : AngelPriceStreamer DB :=
  {| db := d; running := running self; connected := connected self;
     _subscribers := _subscribers self;
     reconnect_delay := reconnect_delay self;
     max_reconnect_delay := max_reconnect_delay self;
     reconnect_attempts := reconnect_attempts self;
     max_reconnect_attempts := max_reconnect_attempts self;
     _last_db_update := _last_db_update self;
     min_update_interval := min_update_interval self;
     stats := stats self |}.

Definition with_stats (self : AngelPriceStreamer DB) (s : Stats) : AngelPriceStreamer DB :=
  {| db := db self; running := running self; connected := connected self;
     _subscribers := _subscribers self;
     reconnect_delay := reconnect_delay self;
     max_reconnect_delay := max_reconnect_delay self;
     reconnect_attempts := reconnect_attempts self;
     max_reconnect_attempts := max_reconnect_attempts self;
     _last_db_update := _last_db_update self;
     min_update_interval := min_update_interval self;
     stats := s |}.

Definition with_last_db_update (self : AngelPriceStreamer DB) (m : gmap string Z)
  : AngelPriceStreamer DB :=
  {| db := db self; running := running self; connected := connected self;
     _subscribers := _subscribers self;
     reconnect_delay := reconnect_delay self;
     max_reconnect_delay := max_reconnect_delay self;
     reconnect_attempts := reconnect_attempts self;
     max_reconnect_attempts := max_reconnect_attempts self;
     _last_db_update := m;
     min_update_interval := min_update_interval self;
     stats := stats self |}.

Definition with_subscribers (self : AngelPriceStreamer DB) (l : list WebSocket)
  : AngelPriceStreamer DB :=
  {| db := db self; running := running self; connected := connected self;
     _subscribers := l;
     reconnect_delay := reconnect_delay self;
     max_reconnect_delay := max_reconnect_delay self;
     reconnect_attempts := reconnect_attempts self;
     max_reconnect_attempts := max_reconnect_attempts self;
     _last_db_update := _last_db_update self;
     min_update_interval := min_update_interval self;
     stats := stats self |}.

Definition with_connection (self : AngelPriceStreamer DB)
    (run conn : bool) (attempts : Z) : AngelPriceStreamer DB :=
  {| db := db self; running := run; connected := conn;
     _subscribers := _subscribers self;
     reconnect_delay := reconnect_delay self;
     max_reconnect_delay := max_reconnect_delay self;
     reconnect_attempts := attempts;
     max_reconnect_attempts := max_reconnect_attempts self;
     _last_db_update := _last_db_update self;
     min_update_interval := min_update_interval self;
     stats := stats self |}.

(** *** Reconnection *)

(** [stop_streaming] *)
Definition stop_streaming (self : AngelPriceStreamer DB) : AngelPriceStreamer DB :=
  with_subscribers (with_connection self false false (reconnect_attempts self)) [].

(** [_handle_reconnection].  [initialized] tells whether
    [_initialize_websocket] returns ([true]; it leaves [connected] set) or
    raises ([false]).  The result carries the delay slept, if any. *)
Definition _handle_reconnection (initialized : bool) (self : AngelPriceStreamer DB)
  : AngelPriceStreamer DB * option Z :=
  if max_reconnect_attempts self <=? reconnect_attempts self then
    (stop_streaming self, None)
  else
    let attempts := reconnect_attempts self + 1 in
    let delay := Z.min (reconnect_delay self * 2 ^ attempts) (max_reconnect_delay self) in
    if initialized
    then (with_connection self (running self) true 0, Some delay)
    else (with_connection self (running self) (connected self) attempts, Some delay).

(** The reconnecting part of [_streaming_loop]: one iteration per element
    of [outcomes]; the delays slept, in order. *)
Fixpoint _streaming_loop (outcomes : list bool) (self : AngelPriceStreamer DB) : list Z :=
  match outcomes with
  | [] => []
  | initialized :: rest =>
      if running self then
        if negb (connected self) then
          let '(self', slept) := _handle_reconnection initialized self in
          match slept with
          | Some delay => delay :: _streaming_loop rest self'
          | None => _streaming_loop rest self'
          end
        else _streaming_loop rest self
      else []
  end.


End Setters.

(** *** Ingest *)

(** A coroutine [self._broadcast_update(symbol, exchange, price_data)]
    handed to the event loop by [asyncio.create_task]. *)
Record task : Type := {
  task_symbol : pyval;
  task_exchange : pyval;
  task_price_data : dict
}.

(** What one call of the callback leaves behind: the streamer, the tasks
    it scheduled and the lines it logged. *)
Record effects (DB : Type) : Type := {
  self_after : AngelPriceStreamer DB;
  scheduled : list task;
  logged : list (level * string)
}.
Arguments self_after {DB} _.
Arguments scheduled {DB} _.
Arguments logged {DB} _.

(** How a call ends for its caller. *)
Inductive outcome (DB : Type) : Type :=
  | Returned (eff : effects DB)
  | Propagated (e : exn) (eff : effects DB).
Arguments Returned {DB} eff.
Arguments Propagated {DB} e eff.

Definition effects_of {DB} (o : outcome DB) : effects DB :=
  match o with
  | Returned eff => eff
  | Propagated _ eff => eff
  end.

(** What the callback finds around it: the clock and whether the calling
    thread has a running asyncio event loop ([asyncio.create_task] raises
    [RuntimeError] when it has none). *)
Record env : Type := {
  now : Z;
  loop_running : bool
}.

(** [bool(data)] for [data] a dict or [None] *)
Definition data_truthy (data : option dict) : bool :=
  match data with
  | Some d => negb (bool_decide (d = ∅))
  | None => false
  end.

(** [v <= 0]: ordering a [str] or [None] against an [int] is a [TypeError] *)
Definition py_le_zero (v : pyval) : res bool :=
  match v with
  | PNum c => Ok (c <=? 0)
  | _ => Raise TypeError
  end.

(** The [price_data] dictionary of lines 323-334. *)
Definition prepare_price_data (data : dict) (now_ms : Z) : dict :=
  <["ltp" := py_or (py_or (get data "lp") (get data "ltp")) (PNum 0)]>
  (<["open" := py_or (py_or (get data "o") (get data "open")) (PNum 0)]>
  (<["high" := py_or (py_or (get data "h") (get data "high")) (PNum 0)]>
  (<["low" := py_or (py_or (get data "l") (get data "low")) (PNum 0)]>
  (<["close" := py_or (py_or (py_or (py_or (get data "c") (get data "close"))
                                      (get data "lp")) (get data "ltp")) (PNum 0)]>
  (<["volume" := py_or (py_or (get data "v") (get data "volume")) (PNum 0)]>
  (<["oi" := py_or (get data "oi") (PNum 0)]>
  (<["bid" := py_or (py_or (get data "bp1") (get data "bid")) (PNum 0)]>
  (<["ask" := py_or (py_or (get data "sp1") (get data "ask")) (PNum 0)]>
  (<["timestamp" := py_or (py_or (get data "timestamp") (get data "ft"))
                          (PNum (now_ms * 100))]> ∅))))))))).

(** The last price the callback resolves: [lp], else [ltp], else 0. *)
Definition resolved_ltp (data : option dict) : pyval :=
  match data with
  | Some d => py_or (py_or (get d "lp") (get d "ltp")) (PNum 0)
  | None => PNum 0
  end.

(** [v] is a number and [v > 0]. *)
Definition strictly_positive (v : pyval) : bool :=
  match v with
  | PNum c => 0 <? c
  | _ => false
  end.

(** The identifiers the callback reads from the data. *)
Definition symbol_of (d : dict) : pyval := py_or (get d "symbol") (get d "tk").
Definition exchange_of (d : dict) : pyval := py_or (get d "exchange") (get d "e").

(** Lines 283-284: [messages_received += 1] and [last_message_time]. *)
Definition counted {DB} (e : env) (self : AngelPriceStreamer DB) : AngelPriceStreamer DB :=
  with_stats self
    {| messages_received := messages_received (stats self) + 1;
       db_updates := db_updates (stats self);
       broadcast_count := broadcast_count (stats self);
       start_time := start_time (stats self);
       last_message_time := Some (now e) |}.

Section Ingest.
Context `{Builtins} {DB : Type}.

(** [self.db.upsert_price(symbol, exchange, price_data)]: the store
    afterwards, and the boolean returned or the exception raised. *)
Variable upsert_price : DB -> pyval -> pyval -> dict -> DB * res bool.

(** The calls [get_br_symbol(symbol)] and [get_brexchange(symbol)] as the
    callback writes them, with one argument. *)
Variable call_get_br_symbol : pyval -> res pyval.
Variable call_get_brexchange : pyval -> res pyval.

(** Lines 293-315: symbol and exchange from the topic, else from the
    data, with the token lookup.  Returns the lines logged and the pair,
    or the exception that escapes the block. *)
Definition extract_symbol_exchange (topic : string) (data : option dict)
  : list (level * string) * res (pyval * pyval) :=
  let '(symbol, exchange) :=
    if negb (String.eqb topic "") && contains "_" topic then
      match split "_" topic with
      | part0 :: part1 :: _ => (PStr part1, PStr part0)
      | _ => (PNone, PNone)
      end
    else (PNone, PNone) in
  match data with
  | Some d =>
      if negb (truthy symbol) && data_truthy data then
        let symbol := py_or (get d "symbol") (get d "tk") in
        let exchange := py_or (get d "exchange") (get d "e") in
        if truthy symbol then
          match py_isdigit symbol with
          | Raise e => ([], Raise e)
          | Ok false => ([], Ok (symbol, exchange))
          | Ok true =>
              match call_get_br_symbol symbol with
              | Raise _ => ([(DEBUG, "Token mapping failed")], Ok (symbol, exchange))
              | Ok symbol' =>
                  if negb (truthy exchange) then
                    match call_get_brexchange symbol' with
                    | Raise _ => ([(DEBUG, "Token mapping failed")], Ok (symbol', exchange))
                    | Ok exchange' => ([], Ok (symbol', exchange'))
                    end
                  else ([], Ok (symbol', exchange))
              end
          end
        else ([], Ok (symbol, exchange))
      else ([], Ok (symbol, exchange))
  | None => ([], Ok (symbol, exchange))
  end.

(** [f"{symbol}.{exchange}"] *)
Definition db_key (symbol exchange : pyval) : string :=
  py_str symbol +:+ "." +:+ py_str exchange.

(** Lines 341-357: the rate-limited store write. *)
Definition persist (e : env) (self : AngelPriceStreamer DB)
    (symbol exchange : pyval) (price_data : dict)
  : AngelPriceStreamer DB * list (level * string) :=
  let symbol_key := db_key symbol exchange in
  let current_time := now e in
  let due :=
    match _last_db_update self !! symbol_key with
    | None => true
    | Some t => min_update_interval self <=? current_time - t
    end in
  if due then
    match upsert_price (db self) symbol exchange price_data with
    | (d, Ok true) =>
        let st := stats self in
        (with_last_db_update
           (with_stats (with_db self d)
              {| messages_received := messages_received st;
                 db_updates := db_updates st + 1;
                 broadcast_count := broadcast_count st;
                 start_time := start_time st;
                 last_message_time := last_message_time st |})
           (<[symbol_key := current_time]> (_last_db_update self)),
         [(INFO, "Real-time update")])
    | (d, Ok false) => (with_db self d, [(WARNING, "Failed to update database")])
    | (d, Raise _) => (with_db self d, [(ERROR, "Database update error")])
    end
  else (self, []).

(** The body of the [try] block of [_handle_market_data]: the effects, and
    the exception if one escapes the block. *)
Definition handle_body (e : env) (self : AngelPriceStreamer DB)
    (topic : string) (data : option dict) : effects DB * option exn :=
  let self := counted e self in
  let log0 := [(INFO, "Received market data")] in
  match extract_symbol_exchange topic data with
  | (log1, Raise x) =>
      ({| self_after := self; scheduled := []; logged := log0 ++ log1 |}, Some x)
  | (log1, Ok (symbol, exchange)) =>
      if negb (truthy symbol) || negb (truthy exchange) then
        ({| self_after := self; scheduled := [];
            logged := log0 ++ log1 ++ [(WARNING, "Unable to extract symbol/exchange")] |},
         None)
      else
        match data with
        | None =>
            (* data.get on None *)
            ({| self_after := self; scheduled := []; logged := log0 ++ log1 |},
             Some AttributeError)
        | Some d =>
            let price_data := prepare_price_data d (now e) in
            let ltp := get price_data "ltp" in
            (* Validate LTP *)
            if negb (truthy ltp) then
              ({| self_after := self; scheduled := [];
                  logged := log0 ++ log1 ++ [(DEBUG, "Invalid LTP")] |}, None)
            else
              match py_le_zero ltp with
              | Raise x =>
                  ({| self_after := self; scheduled := []; logged := log0 ++ log1 |},
                   Some x)
              | Ok true =>
                  ({| self_after := self; scheduled := [];
                      logged := log0 ++ log1 ++ [(DEBUG, "Invalid LTP")] |}, None)
              | Ok false =>
                  let '(self, log2) := persist e self symbol exchange price_data in
                  (* Broadcast to subscribers *)
                  if loop_running e then
                    ({| self_after := self;
                        scheduled := [ {| task_symbol := symbol;
                                          task_exchange := exchange;
                                          task_price_data := price_data |} ];
                        logged := log0 ++ log1 ++ log2 |}, None)
                  else
                    ({| self_after := self; scheduled := [];
                        logged := log0 ++ log1 ++ log2 |}, Some RuntimeError)
              end
        end
  end.

(** [_handle_market_data]: the [try] block under [except Exception]. *)
Definition handle_market_data (e : env) (self : AngelPriceStreamer DB)
    (topic : string) (data : option dict) : outcome DB :=
  match handle_body e self topic data with
  | (eff, None) => Returned eff
  | (eff, Some _) =>
      Returned {| self_after := self_after eff; scheduled := scheduled eff;
                  logged := logged eff ++ [(ERROR, "Error handling market data")] |}
  end.

End Ingest.

Section Concrete.
Context `{Builtins}.

(** The store of [Database] behind [self.db], on day [today]; a value
    that is not a [str] is bound as its [str()]. *)
Definition store_upsert (today : Z) (e : env) (d : Database.PriceDatabase)
    (symbol exchange : pyval) (price_data : dict) : Database.PriceDatabase * res bool :=
  let '(d', b) :=
    Database.upsert_price today (now e) d (py_str symbol) (py_str exchange) price_data in
  (d', Ok b).

(** [_handle_market_data] with the functions the module imports:
    [get_br_symbol] and [get_brexchange] of [database/token_db.py],
    each called with the single argument [symbol]. *)
Definition _handle_market_data (today : Z) (e : env)
    (self : AngelPriceStreamer Database.PriceDatabase)
    (topic : string) (data : option dict) : outcome Database.PriceDatabase :=
  handle_market_data (store_upsert today e)
    (fun symbol => TokenDb.get_br_symbol [symbol])
    (fun symbol => TokenDb.get_brexchange [symbol])
    e self topic data.

End Concrete.

(** The message [_broadcast_update] builds for a task at clock [t]. *)
Definition message_of (t : Z) (tk : task) : message :=
  {| m_symbol := task_symbol tk; m_exchange := task_exchange tk;
     m_data := task_price_data tk; m_timestamp := t |}.

(** *** Fanout of one forwarded tick *)

Section Broadcast.
Context `{Builtins} {DB : Type}.
Variable send_text : WebSocket -> message -> bool.

(** [f"{exchange}_{symbol}"] *)
Definition manager_key (symbol exchange : pyval) : string :=
  py_str exchange +:+ "_" +:+ py_str symbol.

(** The loop over [self._subscribers.copy()]: messages delivered and the
    set [disconnected]. *)
Fixpoint direct_loop (m : message) (subscribers : list WebSocket)
  : list (WebSocket * message) * list WebSocket :=
  match subscribers with
  | [] => ([], [])
  | websocket :: rest =>
      let '(sent, disconnected) := direct_loop m rest in
      if send_text websocket m then ((websocket, m) :: sent, disconnected)
      else (sent, websocket :: disconnected)
  end.

(** [_broadcast_update], run by the event loop at clock [now_ms], together
    with the callback it hands to [loop.call_soon], which runs
    [manager.broadcast(message_json, symbol_key)].  Returns the streamer,
    the manager and the messages delivered. *)
Definition _broadcast_update (now_ms : Z) (self : AngelPriceStreamer DB)
    (mgr : WebSocketManager) (t : task)
  : AngelPriceStreamer DB * WebSocketManager * list (WebSocket * message) :=
  let m := message_of now_ms t in
  (* Broadcast to streamer's direct subscribers *)
  let '(sent_direct, disconnected) := direct_loop m (_subscribers self) in
  let st := stats self in
  let self :=
    with_stats
      (with_subscribers self
         (filter (fun ws => ws ∉ disconnected) (_subscribers self)))
      {| messages_received := messages_received st;
         db_updates := db_updates st;
         broadcast_count := broadcast_count st + Z.of_nat (length sent_direct) + 1;
         start_time := start_time st;
         last_message_time := last_message_time st |} in
  (* Store latest data for WebSocket manager to access *)
  let symbol_key := manager_key (task_symbol t) (task_exchange t) in
  let mgr := {| active_connections := active_connections mgr;
                subscriptions := subscriptions mgr;
                latest_prices := dict_set symbol_key m (latest_prices mgr);
                last_sent := last_sent mgr |} in
  let '(mgr, sent_manager) := broadcast send_text mgr m (Some symbol_key) in
  (self, mgr, sent_direct ++ sent_manager).

(** The event loop running the scheduled tasks in order, all at clock
    [now_ms]. *)
Fixpoint run_tasks (now_ms : Z) (self : AngelPriceStreamer DB)
    (mgr : WebSocketManager) (ts : list task)
  : AngelPriceStreamer DB * WebSocketManager * list (WebSocket * message) :=
  match ts with
  | [] => (self, mgr, [])
  | t :: rest =>
      let '(self1, mgr1, sent1) := _broadcast_update now_ms self mgr t in
      let '(self2, mgr2, sent2) := run_tasks now_ms self1 mgr1 rest in
      (self2, mgr2, sent1 ++ sent2)
  end.

End Broadcast.

(** The delay the specification words: [min(baseDelay * 2^attempt, maxDelay)]
    with the attempt counter of the [n]-th consecutive failure being [n-1]. *)
Definition spec_delay (n : Z) : Z := Z.min (5 * 2 ^ (n - 1)) 60.

End Streamer.

(* ===================================================================== *)
(** ** database/auth_db.py                                                *)
(* ===================================================================== *)

Module AuthDb.
Import Api.

Local Open Scope Z_scope.

(** [d.pop(k, None)] on a dict kept in insertion order *)
Definition dict_pop {V} (k : string) (d : list (string * V)) : list (string * V) :=
  filter (fun kv => kv.1 <> k) d.

(** The three dictionaries, as kept in memory and as written to the
    file; an expiry time is a clock value in milliseconds. *)
Record tokens : Type := {
  auth_tokens : list (string * string);
  feed_tokens : list (string * string);
  token_expiry : list (string * Z)
}.

Definition no_tokens : tokens :=
  {| auth_tokens := []; feed_tokens := []; token_expiry := [] |}.

(** [TOKEN_FILE]: absent, present but failing to load, or holding what
    [_save_tokens] wrote. *)
Inductive token_file : Type :=
  | Missing
  | Unreadable
  | Saved (data : tokens).

(** The module globals and the file. *)
Record state : Type := {
  _auth_tokens : list (string * string);
  _feed_tokens : list (string * string);
  _token_expiry : list (string * Z);
  TOKEN_FILE : token_file
}.

(** [_load_tokens] at clock [now] *)
Definition _load_tokens (now : Z) (st : state) : state :=
  match TOKEN_FILE st with
  | Missing => st
  | Unreadable =>
      {| _auth_tokens := []; _feed_tokens := []; _token_expiry := [];
         TOKEN_FILE := TOKEN_FILE st |}
  | Saved data =>
      (* Clean up expired tokens *)
      let expired_users :=
        map fst (filter (fun ue : string * Z => ue.2 < now) (token_expiry data)) in
      {| _auth_tokens := foldl (fun d user_id => dict_pop user_id d)
                           (auth_tokens data) expired_users;
         _feed_tokens := foldl (fun d user_id => dict_pop user_id d)
                           (feed_tokens data) expired_users;
         _token_expiry := foldl (fun d user_id => dict_pop user_id d)
                            (token_expiry data) expired_users;
         TOKEN_FILE := TOKEN_FILE st |}
  end.

(** How a write of the file ends: done, or failed with the file in the
    state [remains]. *)
Inductive save_outcome : Type :=
  | Written
  | Failed (remains : token_file).

(** [_save_tokens] *)
Definition _save_tokens (outcome : save_outcome) (st : state) : state :=
  {| _auth_tokens := _auth_tokens st;
     _feed_tokens := _feed_tokens st;
     _token_expiry := _token_expiry st;
     TOKEN_FILE :=
       match outcome with
       | Written => Saved {| auth_tokens := _auth_tokens st;
                             feed_tokens := _feed_tokens st;
                             token_expiry := _token_expiry st |}
       | Failed remains => remains
       end |}.

(** The state once the module is imported at clock [now]. *)
Definition imported (now : Z) (file : token_file) : state :=
  _load_tokens now
    {| _auth_tokens := []; _feed_tokens := []; _token_expiry := []; TOKEN_FILE := file |}.

(** [get_auth_token] *)
Definition get_auth_token (now : Z) (st : state) (user_id : option string)
  : state * option string :=
  let user_id := default "default" user_id in
  (* Load tokens from file if not in memory *)
  let st := if bool_decide (_auth_tokens st = []) then _load_tokens now st else st in
  (st, dict_get user_id (_auth_tokens st)).

(** [store_auth_token] *)
Definition store_auth_token (now : Z) (outcome : save_outcome) (st : state)
    (user_id auth_token : string) (expires_hours : Z) : state :=
  _save_tokens outcome
    {| _auth_tokens := dict_set user_id auth_token (_auth_tokens st);
       _feed_tokens := _feed_tokens st;
       _token_expiry := dict_set user_id (now + expires_hours * 3600000) (_token_expiry st);
       TOKEN_FILE := TOKEN_FILE st |}.

(** [get_feed_token] *)
Definition get_feed_token (now : Z) (st : state) (user_id : option string)
  : state * option string :=
  let user_id := default "default" user_id in
  let st := if bool_decide (_feed_tokens st = []) then _load_tokens now st else st in
  (st, dict_get user_id (_feed_tokens st)).

(** [store_feed_token] *)
Definition store_feed_token (outcome : save_outcome) (st : state)
    (user_id feed_token : string) : state :=
  _save_tokens outcome
    {| _auth_tokens := _auth_tokens st;
       _feed_tokens := dict_set user_id feed_token (_feed_tokens st);
       _token_expiry := _token_expiry st;
       TOKEN_FILE := TOKEN_FILE st |}.


(** [get_stored_auth_token] *)
Definition get_stored_auth_token (now : Z) (st : state) : state * option string :=
  get_auth_token now st (Some "default").

(** [store_tokens]: two writes of the file *)
Definition store_tokens (now : Z) (outcomes : save_outcome * save_outcome) (st : state)
    (auth_token feed_token user_id : string) : state :=
  store_feed_token outcomes.2
    (store_auth_token now outcomes.1 st user_id auth_token 24) user_id feed_token.

End AuthDb.

(* ===================================================================== *)
(** ** broker/angel/utils/auth_helper.py                                  *)
(* ===================================================================== *)

Module AuthHelper.
Import Api AuthDb.

Local Open Scope Z_scope.



Section WithBroker.
(** [authenticate_broker(client_code, pin, totp)] of
    [broker.angel.api.auth_api]: [(auth_token, feed_token, error)] *)
Variable authenticate_broker :
  string -> string -> string -> option string * option string * option string.
(** [os.getenv] *)
Variable getenv : string -> option string.




End WithBroker.


End AuthHelper.

(* ===================================================================== *)
(** ** broker/angel/utils/client_info.py                                  *)
(* ===================================================================== *)

Module ClientInfo.

Local Open Scope Z_scope.

Definition hex_digit (n : Z) : ascii :=
  nth (Z.to_nat n) (list_ascii_of_string "0123456789abcdef") "0"%char.

Fixpoint hex_digits (fuel : nat) (n : Z) (acc : string) : string :=
  match fuel with
  | O => acc
  | S fuel' =>
      let acc' := String (hex_digit (n mod 16)) acc in
      if n / 16 =? 0 then acc' else hex_digits fuel' (n / 16) acc'
  end.

(** ['{:02x}'.format(n)] for [n >= 0] *)
Definition format_02x (n : Z) : string :=
  let digits := hex_digits (S (Z.to_nat (Z.log2 n))) n "" in
  if (String.length digits <? 2)%nat then "0" +:+ digits else digits.

(** [sep.join(parts)] *)
Definition join (sep : string) (parts : list string) : string :=
  match parts with
  | [] => ""
  | part :: rest => fold_left (fun acc p => acc +:+ sep +:+ p) rest part
  end.

(** [[(node >> elements) & 0xff for elements in range(0, 2*6, 2)][::-1]] *)
Definition mac_bytes (node : Z) : list Z :=
  rev (map (fun elements => Z.land (Z.shiftr node elements) 255) [0; 2; 4; 6; 8; 10]).

(** The [mac_address] of [get_client_info]; [getnode] is what
    [uuid.getnode()] returns or raises. *)
Definition mac_address (getnode : res Z) : string :=
  match getnode with
  | Ok node => join ":" (map format_02x (mac_bytes node))
  | Raise _ => "00:00:00:00:00:00"
  end.

End ClientInfo.

(* ===================================================================== *)
(** ** Concrete feeds, stores and consumers                               *)
(* ===================================================================== *)

Module Scenario.
Import Database Api Streamer.
Local Open Scope Z_scope.

(** The scenario of the specification: prices 100, 102, 98, 101 with
    volumes 10, 15, 15, 20. *)
Definition reliance_first : dict := {[ "ltp" := PNum 10000; "volume" := PNum 1000 ]}.
Definition reliance_rest : list (Z * dict) :=
  [ (1, {[ "ltp" := PNum 10200; "volume" := PNum 1500 ]});
    (2, {[ "ltp" := PNum 9800; "volume" := PNum 1500 ]});
    (3, {[ "ltp" := PNum 10100; "volume" := PNum 2000 ]}) ].

(** A store holding one row whose prices are all 150.75, and one whose
    prices are all 0.10. *)
Definition store_of (c : Z) : PriceDatabase :=
  upsert_all (H := plain_builtins) 7 empty_db "TESTSTOCK" "NSE"
    [(0, {[ "ltp" := PNum c ]})].

(** Two consumers subscribed to one key; the transport of consumer 1 is
    broken. *)
Definition reliance_key : string := "NSE_RELIANCE".

Definition reliance_message : message :=
  {| m_symbol := PStr "RELIANCE"; m_exchange := PStr "NSE";
     m_data := {[ "ltp" := PNum 10000 ]}; m_timestamp := 0 |}.

Definition two_consumers : WebSocketManager :=
  {| active_connections := [1%nat; 2%nat];
     subscriptions := {[ 1%nat := [reliance_key]; 2%nat := [reliance_key] ]};
     latest_prices := [(reliance_key, reliance_message)];
     last_sent := ∅ |}.

Definition first_broken (ws : WebSocket) (m : message) : bool :=
  negb (ws =? 1)%nat.



(** A streamer that is running and has lost its connection. *)
Definition lost_connection : AngelPriceStreamer unit :=
  with_connection (init tt) true false 0.

Definition fresh_streamer : AngelPriceStreamer Database.PriceDatabase :=
  init Database.empty_db.

Definition in_loop : env := {| now := 5000; loop_running := true |}.
Definition in_feed_thread : env := {| now := 5000; loop_running := false |}.

Definition reliance_quote : dict := {[ "lp" := PNum 10000; "v" := PNum 1000 ]}.
Definition zero_quote : dict := {[ "lp" := PNum 0; "v" := PNum 1000 ]}.
Definition token_quote : dict :=
  {[ "tk" := PStr "2885"; "e" := PStr "NSE"; "lp" := PNum 10000 ]}.

(** The store after the first tick of the scenario, the row it holds, a
    later tick, and a tick whose bid is not a number. *)
Definition after_first : PriceDatabase :=
  (upsert_price (H := plain_builtins) 7 0 empty_db "RELIANCE" "NSE" reliance_first).1.

Definition first_row : price_row :=
  {| open := 10000; high := 10000; low := 10000; close := 10000;
     volume := 10; oi := 0; last_updated := 0; created_at := 0 |}.

Definition second_tick : dict := {[ "ltp" := PNum 10200; "volume" := PNum 1500 ]}.

Definition bad_bid : dict := {[ "ltp" := PNum 10000; "bid" := PStr "n/a" ]}.

(** A second quote of the same symbol, 400 ms after the first. *)
Definition next_quote : dict := {[ "lp" := PNum 10100; "v" := PNum 1200 ]}.
Definition soon_after : env := {| now := 5400; loop_running := true |}.





End Scenario.

(* ===================================================================== *)
(** ** Properties of the aggregate store                                  *)
(* ===================================================================== *)

Module DatabaseFacts.
Import Database Scenario.
Local Open Scope Z_scope.

Section WithBuiltins.
Context `{Builtins}.

Lemma prices_insert_tick now self symbol exchange price_data :
  prices (_insert_tick now self symbol exchange price_data) = prices self.
Proof.
  unfold _insert_tick. repeat case_match; reflexivity.
Qed.

Lemma fits_decimal_max a b :
  fits_decimal a = true -> fits_decimal b = true -> fits_decimal (Z.max a b) = true.
Proof. unfold fits_decimal. intros Ha Hb. destruct (Z.max_spec a b) as [[_ ->]|[_ ->]]; done. Qed.

Lemma fits_decimal_min a b :
  fits_decimal a = true -> fits_decimal b = true -> fits_decimal (Z.min a b) = true.
Proof. unfold fits_decimal. intros Ha Hb. destruct (Z.min_spec a b) as [[_ ->]|[_ ->]]; done. Qed.

Lemma fits_bigint_max a b :
  fits_bigint a = true -> fits_bigint b = true -> fits_bigint (Z.max a b) = true.
Proof. unfold fits_bigint. intros Ha Hb. destruct (Z.max_spec a b) as [[_ ->]|[_ ->]]; done. Qed.

Lemma well_formed_tick_inv price_data :
  well_formed_tick price_data = true ->
  exists c v o,
    ltp_of price_data = Ok c /\ volume_of price_data = Ok v /\ oi_of price_data = Ok o /\
    0 < c /\ fits_decimal c = true /\ fits_bigint v = true /\ fits_bigint o = true.
Proof.
  unfold well_formed_tick. intros Hwf.
  destruct (ltp_of price_data) as [c|]; [|done].
  destruct (volume_of price_data) as [v|]; [|done].
  destruct (oi_of price_data) as [o|]; [|done].
  apply andb_prop in Hwf as [Hwf Ho]. apply andb_prop in Hwf as [Hwf Hv].
  apply andb_prop in Hwf as [Hc Hfc]. apply Z.ltb_lt in Hc.
  exists c, v, o. done.
Qed.

Lemma last_cons_default (a d : Z) (l : list Z) :
  List.last (a :: l) d = List.last l a.
Proof.
  revert a d. induction l as [|b l IH]; intros a d; [done|].
  change (List.last (a :: b :: l) d) with (List.last (b :: l) d).
  by rewrite (IH b d), (IH b a).
Qed.

(** One tick on an existing row: the update branch. *)
Lemma upsert_price_existing today now self symbol exchange price_data r :
  prices self !! (today, symbol, exchange) = Some r ->
  row_ok r ->
  well_formed_tick price_data = true ->
  exists r',
    prices (upsert_price today now self symbol exchange price_data).1
      !! (today, symbol, exchange) = Some r' /\
    (upsert_price today now self symbol exchange price_data).2 = true /\
    row_ok r' /\
    open r' = open r /\
    high r' = Z.max (high r) (ltp_val price_data) /\
    low r' = Z.min (low r) (ltp_val price_data) /\
    close r' = ltp_val price_data /\
    volume r' = Z.max (volume r) (volume_val price_data).
Proof.
  intros Hrow [Hh Hl Hlp Hv Ho] Hwf.
  destruct (well_formed_tick_inv _ Hwf) as (c & v & o & Hc & Hvol & Hoi & Hpos & Hfc & Hfv & Hfo).
  unfold upsert_price, ltp_val, volume_val.
  unfold ltp_of, volume_of, oi_of in Hc, Hvol, Hoi.
  unfold ltp_of, volume_of. rewrite Hc, Hvol, Hoi, Hrow.
  assert ((0 <? low r) = true) as -> by (by apply Z.ltb_lt).
  rewrite fits_decimal_max, fits_decimal_min, Hfc, fits_bigint_max by done.
  assert (fits_bigint (if 0 <? o then o else oi r) = true) as Hnoi
    by (by destruct (0 <? o)).
  rewrite Hnoi. cbn [andb fst snd].
  rewrite prices_insert_tick. cbn [prices].
  rewrite lookup_insert_eq. eexists. split; [reflexivity|].
  split; [reflexivity|]. cbn.
  split; [|done].
  constructor; cbn.
  - by apply fits_decimal_max.
  - by apply fits_decimal_min.
  - lia.
  - by apply fits_bigint_max.
  - done.
Qed.

(** The first tick of a key: the insert branch. *)
Lemma upsert_price_fresh today now self symbol exchange price_data :
  prices self !! (today, symbol, exchange) = None ->
  well_formed_tick price_data = true ->
  positive_seeds price_data = true ->
  exists r',
    prices (upsert_price today now self symbol exchange price_data).1
      !! (today, symbol, exchange) = Some r' /\
    (upsert_price today now self symbol exchange price_data).2 = true /\
    row_ok r' /\
    open r' = seed_val price_data "open" /\
    high r' = seed_val price_data "high" /\
    low r' = seed_val price_data "low" /\
    close r' = ltp_val price_data /\
    volume r' = volume_val price_data.
Proof.
  intros Hrow Hwf Hseed.
  destruct (well_formed_tick_inv _ Hwf) as (c & v & o & Hc & Hvol & Hoi & Hpos & Hfc & Hfv & Hfo).
  unfold positive_seeds in Hseed. unfold seed_val.
  destruct (seed price_data "open") as [op|] eqn:Hop; [|done].
  destruct (seed price_data "high") as [hi|] eqn:Hhi; [|done].
  destruct (seed price_data "low") as [lo|] eqn:Hlo; [|done].
  apply andb_prop in Hseed as [Hhpos Hlpos].
  apply Z.ltb_lt in Hhpos. apply Z.ltb_lt in Hlpos.
  unfold seed, ltp_val in Hop, Hhi, Hlo. rewrite Hc in Hop, Hhi, Hlo.
  unfold upsert_price, ltp_val, volume_val.
  unfold ltp_of, volume_of, oi_of in Hc, Hvol, Hoi.
  unfold ltp_of, volume_of. rewrite Hc, Hvol, Hoi, Hrow, Hop, Hhi, Hlo, Hfc, Hfv, Hfo.
  cbn [andb fst snd].
  rewrite prices_insert_tick. cbn [prices].
  rewrite lookup_insert_eq. eexists. split; [reflexivity|].
  split; [reflexivity|]. cbn.
  split; [|done].
  unfold to_decimal in Hhi, Hlo.
  destruct (py_float (get_default price_data "high" (PNum c))) as [hi'|]; [|done].
  destruct (py_float (get_default price_data "low" (PNum c))) as [lo'|]; [|done].
  destruct (fits_decimal hi') eqn:Hfh; [|done].
  destruct (fits_decimal lo') eqn:Hfl; [|done].
  simplify_eq. constructor; cbn; done.
Qed.

(** A run of further ticks on an existing row. *)
Lemma upsert_all_existing today symbol exchange ticks : forall self r,
  prices self !! (today, symbol, exchange) = Some r ->
  row_ok r ->
  Forall (fun t => well_formed_tick t.2 = true) ticks ->
  exists r',
    prices (upsert_all today self symbol exchange ticks)
      !! (today, symbol, exchange) = Some r' /\
    row_ok r' /\
    open r' = open r /\
    high r' = fold_left Z.max (map (fun t => ltp_val t.2) ticks) (high r) /\
    low r' = fold_left Z.min (map (fun t => ltp_val t.2) ticks) (low r) /\
    close r' = List.last (map (fun t => ltp_val t.2) ticks) (close r) /\
    volume r' = fold_left Z.max (map (fun t => volume_val t.2) ticks) (volume r).
Proof.
  induction ticks as [|[now pd] ticks IH]; intros self r Hrow Hok Hall.
  - exists r. cbn. done.
  - apply Forall_cons in Hall as [Hwf Hall]. cbn in Hwf.
    destruct (upsert_price_existing today now self symbol exchange pd r Hrow Hok Hwf)
      as (r1 & Hrow1 & _ & Hok1 & Hop1 & Hh1 & Hl1 & Hc1 & Hv1).
    destruct (IH _ r1 Hrow1 Hok1 Hall) as (r' & Hrow' & Hok' & Hop' & Hh' & Hl' & Hc' & Hv').
    exists r'. unfold upsert_all in *. cbn [foldl fst snd map fold_left].
    rewrite <- Hh1, <- Hl1, <- Hv1, last_cons_default, <- Hc1.
    split_and!; try done. congruence.
Qed.

(** C1 (as amended).  Ticks with strictly positive last price applied in
    order to one [(date, symbol, exchange)] key that has no row yet, the
    first tick seeding strictly positive [high] and [low] (each the field
    when the key is present, the last price when it is absent).  Then the
    row exists and: [high] is the maximum of the seed high and of the last
    prices of the later ticks; [low] is the minimum of the seed low and of
    the last prices of the later ticks; [close] is the last tick's last
    price; [volume] is the maximum volume of the sequence. *)
Theorem upsert_price_aggregate today self symbol exchange now first rest :
  prices self !! (today, symbol, exchange) = None ->
  well_formed_tick first = true ->
  positive_seeds first = true ->
  Forall (fun t => well_formed_tick t.2 = true) rest ->
  exists r,
    prices (upsert_all today self symbol exchange ((now, first) :: rest))
      !! (today, symbol, exchange) = Some r /\
    high r = fold_left Z.max (map (fun t => ltp_val t.2) rest) (seed_val first "high") /\
    low r = fold_left Z.min (map (fun t => ltp_val t.2) rest) (seed_val first "low") /\
    close r = List.last (map (fun t => ltp_val t.2) ((now, first) :: rest)) 0 /\
    volume r = fold_left Z.max (map (fun t => volume_val t.2) rest) (volume_val first).
Proof.
  intros Hnone Hwf Hseed Hrest.
  destruct (upsert_price_fresh today now self symbol exchange first Hnone Hwf Hseed)
    as (r1 & Hrow1 & _ & Hok1 & _ & Hh1 & Hl1 & Hc1 & Hv1).
  destruct (upsert_all_existing today symbol exchange rest _ r1 Hrow1 Hok1 Hrest)
    as (r & Hrow & _ & _ & Hh & Hl & Hc & Hv).
  exists r. cbn [map]. rewrite last_cons_default.
  rewrite <- Hh1, <- Hl1, <- Hv1. cbn [snd]. rewrite <- Hc1. done.
Qed.

End WithBuiltins.

(** *** Read path *)

Lemma all_from_spec p fuel : forall c,
  all_from fuel c p = true ->
  forall x, c <= x < c + Z.of_nat fuel -> p x = true.
Proof.
  induction fuel as [|k IH]; intros c Hall x Hx; [lia|].
  cbn [all_from] in Hall. apply andb_prop in Hall as [Hc Hall].
  destruct (decide (x = c)) as [->|Hne]; [done|].
  apply (IH (c + 1)); [done|lia].
Qed.

(** Every stored value below 1000.00, by evaluation: the double handed
    back is the decimal itself exactly when the value is a multiple of
    0.25, and is always within half a hundredth of it. *)
Lemma float_of_decimal_checked :
  all_from (Z.to_nat 100000) 0
    (fun c => Bool.eqb (is_exact_decimal (float_of_decimal c) c) (c mod 25 =? 0)
              && rounds_to_decimal (float_of_decimal c) c) = true.
Proof. vm_compute. reflexivity. Qed.

(** C8 (as amended).  [get_current_price] hands back every price of
    today's row ([open], [high], [low], [close], and [ltp], which is the
    close) as the binary double nearest to the stored two-place decimal.
    For a stored value below 1000.00 that double is the decimal itself
    exactly when the value is a multiple of 0.25, and otherwise an
    approximation within half a hundredth of it. *)
Theorem get_current_price_floats today self symbol exchange r c :
  prices self !! (today, symbol, exchange) = Some r ->
  0 <= c < 100000 ->
  (exists res,
     get_current_price today self symbol exchange = Some res /\
     cp_open res = float_of_decimal (open r) /\
     cp_high res = float_of_decimal (high r) /\
     cp_low res = float_of_decimal (low r) /\
     cp_close res = float_of_decimal (close r) /\
     cp_ltp res = float_of_decimal (close r)) /\
  (is_exact_decimal (float_of_decimal c) c = true <-> c mod 25 = 0) /\
  rounds_to_decimal (float_of_decimal c) c = true.
Proof.
  intros Hrow Hc. split.
  - unfold get_current_price. rewrite Hrow. eexists. split; [reflexivity|]. done.
  - pose proof (all_from_spec _ _ _ float_of_decimal_checked c) as Hchk.
    cbn beta in Hchk. rewrite Z2Nat.id in Hchk by lia. specialize (Hchk ltac:(lia)).
    apply andb_prop in Hchk as [Hex Hround]. split; [|done].
    apply Bool.eqb_prop in Hex. rewrite Hex. apply Z.eqb_eq.
Qed.

Lemma upsert_price_aggregate_witness :
  exists r,
    prices (upsert_all (H := plain_builtins) 7 empty_db "RELIANCE" "NSE"
              ((0, reliance_first) :: reliance_rest))
      !! (7, "RELIANCE", "NSE") = Some r /\
    high r = fold_left Z.max (map (fun t => ltp_val (H := plain_builtins) t.2) reliance_rest)
               (seed_val (H := plain_builtins) reliance_first "high") /\
    low r = fold_left Z.min (map (fun t => ltp_val (H := plain_builtins) t.2) reliance_rest)
              (seed_val (H := plain_builtins) reliance_first "low") /\
    close r = List.last (map (fun t => ltp_val (H := plain_builtins) t.2)
                           ((0, reliance_first) :: reliance_rest)) 0 /\
    volume r = fold_left Z.max (map (fun t => volume_val (H := plain_builtins) t.2) reliance_rest)
                 (volume_val (H := plain_builtins) reliance_first).
Proof.
  apply (upsert_price_aggregate (H := plain_builtins) 7 empty_db "RELIANCE" "NSE" 0
           reliance_first reliance_rest).
  - reflexivity.
  - vm_compute. reflexivity.
  - vm_compute. reflexivity.
  - repeat constructor.
Defined.

(** The scenario evaluated: open 100.00, high 102.00, low 98.00,
    close 101.00, volume 20. *)
Example reliance_scenario :
  prices (upsert_all (H := plain_builtins) 7 empty_db "RELIANCE" "NSE"
            ((0, reliance_first) :: reliance_rest)) !! (7, "RELIANCE", "NSE")
  = Some {| open := 10000; high := 10200; low := 9800; close := 10100;
            volume := 20; oi := 0; last_updated := 3; created_at := 0 |}.
Proof. vm_compute. reflexivity. Qed.

Lemma get_current_price_floats_witness :
  (exists res,
     get_current_price 7 (store_of 15075) "TESTSTOCK" "NSE" = Some res /\
     cp_open res = float_of_decimal 15075 /\
     cp_high res = float_of_decimal 15075 /\
     cp_low res = float_of_decimal 15075 /\
     cp_close res = float_of_decimal 15075 /\
     cp_ltp res = float_of_decimal 15075) /\
  (is_exact_decimal (float_of_decimal 15075) 15075 = true <-> 15075 mod 25 = 0) /\
  rounds_to_decimal (float_of_decimal 15075) 15075 = true.
Proof.
  apply (get_current_price_floats 7 (store_of 15075) "TESTSTOCK" "NSE"
           {| open := 15075; high := 15075; low := 15075; close := 15075;
              volume := 0; oi := 0; last_updated := 0; created_at := 0 |} 15075).
  - vm_compute. reflexivity.
  - lia.
Defined.

(** C8 as worded fails: the stored close is the decimal 0.10, and the
    [close] and [ltp] handed back by [get_current_price] are the double
    [7205759403792794 * 2^-56], which is not 0.10. *)
Lemma current_price_not_exact :
  close <$> (prices (store_of 10) !! (7, "TESTSTOCK", "NSE")) = Some 10 /\
  (float_value ∘ cp_close) <$> get_current_price 7 (store_of 10) "TESTSTOCK" "NSE"
    = Some (Some (7205759403792794, -56)) /\
  (fun res => is_exact_decimal (cp_close res) 10)
    <$> get_current_price 7 (store_of 10) "TESTSTOCK" "NSE" = Some false /\
  (fun res => is_exact_decimal (cp_ltp res) 10)
    <$> get_current_price 7 (store_of 10) "TESTSTOCK" "NSE" = Some false.
Proof. vm_compute. done. Qed.

(** C1 as worded fails on the insert branch: a first tick with last price
    100.00 and an explicit [high] of 50.00 stores [high = 50.00], where
    the worded maximum over the last price and the seed is 100.00. *)
Lemma upsert_price_high_counterexample :
  let first : dict := {[ "ltp" := PNum 10000; "high" := PNum 5000 ]} in
  well_formed_tick (H := plain_builtins) first = true /\
  spec_high (H := plain_builtins) first [] = Ok 10000 /\
  high <$> (prices (upsert_all (H := plain_builtins) 7 empty_db "RELIANCE" "NSE" [(0, first)])
              !! (7, "RELIANCE", "NSE")) = Some 5000.
Proof. vm_compute. done. Qed.

End DatabaseFacts.

(* ===================================================================== *)
(** ** Properties of the subscription registry and the fanout             *)
(* ===================================================================== *)

Module ApiFacts.
Import Api Scenario.
Local Open Scope Z_scope.

Lemma remove_first_subseteq {A} `{EqDecision A} (x y : A) (l : list A) :
  y ∈ remove_first x l -> y ∈ l.
Proof.
  induction l as [|z l IH]; cbn; [done|].
  rewrite elem_of_cons. case_decide as Hz.
  - by right.
  - rewrite elem_of_cons. intros [->|Hin]; [by left|right; by apply IH].
Qed.

Lemma remove_first_NoDup {A} `{EqDecision A} (x : A) (l : list A) :
  NoDup l -> NoDup (remove_first x l).
Proof.
  induction 1 as [|z l Hz Hl IH]; cbn; [constructor|].
  case_decide; [done|]. constructor; [|done].
  intros Hin. by apply Hz, (remove_first_subseteq x).
Qed.

Lemma remove_first_not_elem {A} `{EqDecision A} (x : A) (l : list A) :
  NoDup l -> x ∉ remove_first x l.
Proof.
  induction 1 as [|z l Hz Hl IH]; cbn; [apply not_elem_of_nil|].
  case_decide as Hzx; [by subst|].
  apply not_elem_of_cons. split; [congruence|done].
Qed.

Lemma occurrences_not_elem symbol held :
  symbol ∉ held -> occurrences symbol held = 0%nat.
Proof.
  unfold occurrences. induction held as [|s held IH]; [done|].
  intros [Hne Hnot]%not_elem_of_cons. rewrite filter_cons.
  case_decide; [congruence|]. by apply IH.
Qed.

Lemma occurrences_NoDup symbol held :
  NoDup held -> symbol ∈ held -> occurrences symbol held = 1%nat.
Proof.
  induction 1 as [|s held Hs Hnd IH]; [by intros ?%elem_of_nil|].
  intros Hin. unfold occurrences. rewrite filter_cons. case_decide as Hs'.
  - subst. cbn. f_equal. by apply occurrences_not_elem.
  - apply IH. apply elem_of_cons in Hin as [->|Hin]; done.
Qed.

Lemma registry_ok_do_call self c : registry_ok self -> registry_ok (do_call self c).
Proof.
  intros Hok ws held. destruct c as [w|w|w k|w k]; cbn.
  - destruct (decide (w = ws)) as [->|Hne].
    + rewrite lookup_insert_eq. intros [= <-]. constructor.
    + rewrite lookup_insert_ne by done. apply Hok.
  - case_bool_decide; [|apply Hok].
    destruct (decide (w = ws)) as [->|Hne].
    + by rewrite lookup_delete_eq.
    + rewrite lookup_delete_ne by done. apply Hok.
  - destruct (subscriptions self !! w) as [l|] eqn:Hw.
    + rewrite (bool_decide_eq_true_2 (is_Some (Some l))) by eauto. rewrite Hw. cbn.
      case_bool_decide as Hin; [apply Hok|].
      destruct (decide (w = ws)) as [->|Hne].
      * rewrite lookup_insert_eq. intros [= <-].
        apply NoDup_app. split_and!; [by eapply Hok| |apply NoDup_singleton].
        intros x Hx ->%list_elem_of_singleton. done.
      * rewrite lookup_insert_ne by done. apply Hok.
    + rewrite (bool_decide_eq_false_2 (is_Some None)) by (by intros [? ?]).
      rewrite lookup_insert_eq. cbn.
      rewrite bool_decide_eq_false_2 by set_solver.
      rewrite insert_insert_eq.
      destruct (decide (w = ws)) as [->|Hne].
      * rewrite lookup_insert_eq. intros [= <-]. apply NoDup_singleton.
      * rewrite lookup_insert_ne by done. apply Hok.
  - unfold unsubscribe_symbol.
    destruct (subscriptions self !! w) as [l|] eqn:Hw; [|apply Hok].
    case_bool_decide; [|apply Hok]. cbn.
    destruct (decide (w = ws)) as [->|Hne].
    + rewrite lookup_insert_eq. intros [= <-].
      apply remove_first_NoDup. by eapply Hok.
    + rewrite lookup_insert_ne by done. apply Hok.
Qed.

Lemma registry_ok_foldl calls : forall self,
  registry_ok self -> registry_ok (foldl do_call self calls).
Proof.
  induction calls as [|c calls IH]; intros self Hok; [done|].
  cbn. by apply IH, registry_ok_do_call.
Qed.

Lemma registry_ok_do_calls calls : registry_ok (do_calls calls).
Proof.
  apply registry_ok_foldl. intros ws held Hl. cbn in Hl.
  by rewrite lookup_empty in Hl.
Qed.

(** [subscribe_symbol] by cases on whether the consumer has a list. *)
Lemma subscribe_symbol_some self ws symbol held :
  subscriptions self !! ws = Some held ->
  subscriptions (subscribe_symbol self ws symbol)
  = if bool_decide (symbol ∈ held) then subscriptions self
    else <[ws := held ++ [symbol]]> (subscriptions self).
Proof.
  intros Hw. unfold subscribe_symbol. cbn.
  rewrite (bool_decide_eq_true_2 (is_Some (subscriptions self !! ws))) by eauto.
  by rewrite Hw.
Qed.

Lemma subscribe_symbol_none self ws symbol :
  subscriptions self !! ws = None ->
  subscriptions (subscribe_symbol self ws symbol)
  = <[ws := [symbol]]> (subscriptions self).
Proof.
  intros Hw. unfold subscribe_symbol. cbn.
  rewrite (bool_decide_eq_false_2 (is_Some (subscriptions self !! ws)))
    by (rewrite Hw; by intros [? ?]).
  rewrite lookup_insert_eq. cbn.
  rewrite bool_decide_eq_false_2 by apply not_elem_of_nil.
  by rewrite insert_insert_eq.
Qed.

Lemma manager_eq (a b : WebSocketManager) :
  active_connections a = active_connections b ->
  subscriptions a = subscriptions b ->
  latest_prices a = latest_prices b ->
  last_sent a = last_sent b ->
  a = b.
Proof. destruct a, b; cbn; congruence. Qed.

Lemma subscribe_symbol_held self ws symbol :
  symbol ∈ subscribed_symbols (subscribe_symbol self ws symbol) ws.
Proof.
  unfold subscribed_symbols.
  destruct (subscriptions self !! ws) as [l|] eqn:Hw.
  - rewrite (subscribe_symbol_some _ _ _ l Hw).
    case_bool_decide as Hin.
    + by rewrite Hw.
    + rewrite lookup_insert_eq. cbn. apply elem_of_app. right. apply list_elem_of_singleton. done.
  - rewrite (subscribe_symbol_none _ _ _ Hw), lookup_insert_eq. cbn.
    by apply list_elem_of_singleton.
Qed.

Lemma subscribe_symbol_twice self ws symbol :
  subscribe_symbol (subscribe_symbol self ws symbol) ws symbol
  = subscribe_symbol self ws symbol.
Proof.
  pose proof (subscribe_symbol_held self ws symbol) as Hheld.
  unfold subscribed_symbols in Hheld.
  destruct (subscriptions (subscribe_symbol self ws symbol) !! ws) as [l|] eqn:Hw;
    [|by apply not_elem_of_nil in Hheld].
  cbn in Hheld.
  apply manager_eq; try reflexivity.
  rewrite (subscribe_symbol_some _ _ _ l Hw).
  by rewrite bool_decide_eq_true_2.
Qed.

Lemma unsubscribe_symbol_not_held self ws symbol :
  symbol ∉ subscribed_symbols self ws -> unsubscribe_symbol self ws symbol = self.
Proof.
  unfold subscribed_symbols, unsubscribe_symbol.
  destruct (subscriptions self !! ws) as [l|]; [|done]. cbn.
  intros Hnot. by rewrite bool_decide_eq_false_2.
Qed.

Lemma unsubscribe_symbol_removes self ws symbol :
  registry_ok self ->
  symbol ∉ subscribed_symbols (unsubscribe_symbol self ws symbol) ws.
Proof.
  intros Hok. unfold subscribed_symbols, unsubscribe_symbol.
  destruct (subscriptions self !! ws) as [l|] eqn:Hw.
  - case_bool_decide as Hin.
    + cbn. rewrite lookup_insert_eq. cbn.
      apply remove_first_not_elem. by eapply Hok.
    + by rewrite Hw.
  - rewrite Hw. cbn. set_solver.
Qed.

(** *** Delivery *)

Section WithTransport.
Variable send_text : WebSocket -> message -> bool.

Lemma broadcast_loop_sent self m f conns ws m' :
  (ws, m') ∈ (broadcast_loop send_text self m f conns).1 <->
  m' = m /\ ws ∈ conns /\ filtered_out self f ws = false /\ send_text ws m = true.
Proof.
  induction conns as [|c conns IH]; cbn.
  - rewrite elem_of_nil. split; [done|]. by intros (_ & ?%elem_of_nil & _).
  - destruct (broadcast_loop send_text self m f conns) as [sent disc]. cbn in IH.
    rewrite elem_of_cons.
    destruct (filtered_out self f c) eqn:Hf; [|destruct (send_text c m) eqn:Hs]; cbn.
    + rewrite IH. split; [naive_solver|].
      intros (? & [->|?] & ? & ?); [congruence|done].
    + rewrite elem_of_cons, IH. split.
      * intros [[= -> ->]|(? & ? & ? & ?)]; naive_solver.
      * intros (-> & [->|?] & ? & ?); [by left|by right].
    + rewrite IH. split; [naive_solver|].
      intros (-> & [->|?] & ? & ?); [congruence|done].
Qed.

Lemma broadcast_loop_disconnected self m f conns :
  (broadcast_loop send_text self m f conns).2
  = filter (fun ws => filtered_out self f ws = false /\ send_text ws m = false) conns.
Proof.
  induction conns as [|c conns IH]; [done|].
  rewrite filter_cons. cbn [broadcast_loop].
  destruct (broadcast_loop send_text self m f conns) as [sent disc].
  cbn [snd] in IH.
  destruct (filtered_out self f c) eqn:Hf; [|destruct (send_text c m) eqn:Hs]; cbn [snd].
  - rewrite decide_False by (by intros [? ?]). done.
  - rewrite decide_False by (by intros [? ?]). done.
  - rewrite decide_True by done. by f_equal.
Qed.

Lemma disconnect_subscriptions self ws :
  subscriptions (disconnect self ws) = delete ws (subscriptions self).
Proof.
  unfold disconnect. cbn. case_bool_decide as Hin; [done|].
  symmetry. apply delete_id. by apply eq_None_not_Some.
Qed.

Lemma foldl_disconnect_subscriptions l : forall self ws,
  subscriptions (foldl disconnect self l) !! ws
  = if bool_decide (ws ∈ l) then None else subscriptions self !! ws.
Proof.
  induction l as [|c l IH]; intros self ws; cbn.
  - rewrite bool_decide_eq_false_2 by apply not_elem_of_nil. done.
  - rewrite IH, disconnect_subscriptions.
    destruct (decide (ws ∈ l)) as [Hin|Hnin].
    + rewrite !bool_decide_eq_true_2; [done| by right | done].
    + rewrite (bool_decide_eq_false_2 (ws ∈ l)) by done.
      destruct (decide (ws = c)) as [->|Hne].
      * rewrite bool_decide_eq_true_2 by (by left). apply lookup_delete_eq.
      * rewrite bool_decide_eq_false_2
          by (intros [?|?]%elem_of_cons; done).
        by apply lookup_delete_ne.
Qed.

Lemma filtered_out_subscribed self key ws :
  key ∈ subscribed_symbols self ws -> filtered_out self (Some key) ws = false.
Proof.
  intros Hin. unfold filtered_out. rewrite bool_decide_eq_true_2 by done.
  apply andb_false_r.
Qed.

Lemma push_loop_sent self key m conns ws m' :
  (ws, m') ∈ push_loop send_text self key m conns <->
  m' = m /\ ws ∈ conns /\ key ∈ subscribed_symbols self ws /\ send_text ws m = true.
Proof.
  induction conns as [|c conns IH]; cbn.
  - rewrite elem_of_nil. split; [done|]. by intros (_ & ?%elem_of_nil & _).
  - rewrite elem_of_cons.
    case_bool_decide as Hsub; [destruct (send_text c m) eqn:Hs|].
    + rewrite elem_of_cons, IH. split.
      * intros [[= -> ->]|(? & ? & ? & ?)]; naive_solver.
      * intros (-> & [->|?] & ? & ?); [by left|by right].
    + rewrite IH. split; [naive_solver|].
      intros (-> & [->|?] & ? & ?); [congruence|done].
    + rewrite IH. split; [naive_solver|].
      intros (-> & [->|?] & ? & ?); [done|done].
Qed.


Lemma push_key_registry now self key m :
  active_connections (push_key send_text now self key m).1 = active_connections self /\
  subscriptions (push_key send_text now self key m).1 = subscriptions self /\
  latest_prices (push_key send_text now self key m).1 = latest_prices self.
Proof. unfold push_key. repeat case_match; done. Qed.

Lemma push_items_registry now items : forall self,
  active_connections (push_items send_text now self items).1 = active_connections self /\
  subscriptions (push_items send_text now self items).1 = subscriptions self.
Proof.
  induction items as [|[key m] items IH]; intros self; cbn; [done|].
  destruct (push_key_registry now self key m) as (Ha & Hs & _).
  destruct (push_key send_text now self key m) as [self1 sent1]. cbn in Ha, Hs.
  specialize (IH self1).
  destruct (push_items send_text now self1 items) as [self2 sent2]. cbn in *.
  destruct IH as [-> ->]. done.
Qed.

Lemma disconnect_latest_prices self ws :
  latest_prices (disconnect self ws) = latest_prices self.
Proof. reflexivity. Qed.

Lemma foldl_disconnect_latest_prices l : forall self,
  latest_prices (foldl disconnect self l) = latest_prices self.
Proof. induction l as [|c l IH]; intros self; cbn; [done|]. by rewrite IH. Qed.

Lemma broadcast_latest_prices self m f :
  latest_prices (broadcast send_text self m f).1 = latest_prices self.
Proof.
  unfold broadcast.
  destruct (broadcast_loop send_text self m f (active_connections self)) as [sent disc].
  apply foldl_disconnect_latest_prices.
Qed.

Lemma dict_get_set {V} k (v : V) d : dict_get k (dict_set k v d) = Some v.
Proof.
  induction d as [|[k' v'] d IH]; cbn.
  - by rewrite decide_True.
  - case_decide as Hk; cbn.
    + by rewrite decide_True.
    + by rewrite decide_False.
Qed.





End WithTransport.

(** C6 (as amended).  In [broadcast], every subscribed consumer whose send
    succeeds receives the message whatever happens to the others, and
    every subscribed consumer whose send fails receives nothing and is
    removed by [disconnect] at the end of the pass.  In one iteration of
    [push_latest_prices], every subscribed consumer whose send succeeds
    receives the message as well, and the whole pass leaves the
    connections and subscriptions as they were. *)
Theorem delivery_failure_isolated send_text self m key :
  let r := broadcast send_text self m (Some key) in
  (forall ws, ws ∈ active_connections self -> key ∈ subscribed_symbols self ws ->
     send_text ws m = true -> (ws, m) ∈ r.2) /\
  (forall ws, ws ∈ active_connections self -> key ∈ subscribed_symbols self ws ->
     send_text ws m = false -> ((ws, m) ∉ r.2) /\ subscriptions r.1 !! ws = None) /\
  r.1 = foldl disconnect self
          (filter (fun ws => filtered_out self (Some key) ws = false /\ send_text ws m = false)
             (active_connections self)) /\
  (forall current_time,
     let p := push_key send_text current_time self key m in
     active_connections p.1 = active_connections self /\
     subscriptions p.1 = subscriptions self /\
     (forall ws, 500 <= current_time - default 0 (last_sent self !! key) ->
        ws ∈ active_connections self -> key ∈ subscribed_symbols self ws ->
        send_text ws m = true -> (ws, m) ∈ p.2)) /\
  (forall current_time,
     active_connections (push_latest_prices send_text current_time self).1
       = active_connections self /\
     subscriptions (push_latest_prices send_text current_time self).1
       = subscriptions self).
Proof.
  intros r. subst r. unfold broadcast.
  pose proof (broadcast_loop_sent send_text self m (Some key) (active_connections self)) as Hsent.
  pose proof (broadcast_loop_disconnected send_text self m (Some key) (active_connections self))
    as Hdisc.
  destruct (broadcast_loop send_text self m (Some key) (active_connections self))
    as [sent disc]. cbn [fst snd] in *.
  split_and!.
  - intros ws Hin Hsub Hok. apply Hsent.
    split_and!; [done|done|by apply filtered_out_subscribed|done].
  - intros ws Hin Hsub Hfail. split.
    + intros (_ & _ & _ & Hok)%Hsent. congruence.
    + rewrite foldl_disconnect_subscriptions, bool_decide_eq_true_2; [done|].
      rewrite Hdisc. apply list_elem_of_filter.
      split; [|done]. split; [by apply filtered_out_subscribed|done].
  - by rewrite Hdisc.
  - intros t. cbn zeta.
    destruct (push_key_registry send_text t self key m) as (Ha & Hs & _).
    split_and!; [done|done|].
    intros ws Hdue Hin Hsub Hok. unfold push_key.
    rewrite (proj2 (Z.leb_le _ _) Hdue).
    assert ((ws, m) ∈ push_loop send_text self key m (active_connections self)) as Hpush.
    { by apply push_loop_sent. }
    by case_match.
  - intros t. apply push_items_registry.
Qed.

Lemma delivery_failure_isolated_witness :
  (2%nat, reliance_message)
    ∈ (broadcast first_broken two_consumers reliance_message (Some reliance_key)).2 /\
  subscriptions (broadcast first_broken two_consumers reliance_message (Some reliance_key)).1
    !! 1%nat = None.
Proof.
  destruct (delivery_failure_isolated first_broken two_consumers reliance_message reliance_key)
    as (Hok & Hfail & _).
  split.
  - apply Hok; [apply (bool_decide_unpack _); reflexivity
               |apply (bool_decide_unpack _); reflexivity|reflexivity].
  - apply Hfail; [apply (bool_decide_unpack _); reflexivity
                 |apply (bool_decide_unpack _); reflexivity|reflexivity].
Defined.

(** C6 as worded fails for the periodic pass: the send to consumer 1 fails
    during [push_latest_prices], consumer 2 is served, and consumer 1 is
    still connected and subscribed afterwards. *)
Lemma push_failure_keeps_consumer :
  let r := push_latest_prices first_broken 1000 two_consumers in
  r.2 = [(2%nat, reliance_message)] /\
  active_connections r.1 = [1%nat; 2%nat] /\
  subscriptions r.1 !! 1%nat = Some [reliance_key].
Proof. vm_compute. done. Qed.

(** C9.  For every manager the endpoints can build, every consumer and
    key: subscribing a second time changes nothing; after subscribing the
    consumer's list holds the key exactly once; subscribing then
    unsubscribing leaves no entry for the pair; unsubscribing a key the
    consumer does not hold leaves the manager unchanged. *)
Theorem subscription_idempotent calls ws symbol :
  let self := do_calls calls in
  subscribe_symbol (subscribe_symbol self ws symbol) ws symbol
    = subscribe_symbol self ws symbol /\
  occurrences symbol (subscribed_symbols (subscribe_symbol self ws symbol) ws) = 1%nat /\
  occurrences symbol
    (subscribed_symbols
       (subscribe_symbol (subscribe_symbol self ws symbol) ws symbol) ws) = 1%nat /\
  occurrences symbol
    (subscribed_symbols
       (unsubscribe_symbol (subscribe_symbol self ws symbol) ws symbol) ws) = 0%nat /\
  (symbol ∉ subscribed_symbols self ws -> unsubscribe_symbol self ws symbol = self).
Proof.
  intros self.
  assert (registry_ok (subscribe_symbol self ws symbol)) as Hok.
  { apply (registry_ok_do_call self (Subscribe ws symbol)), registry_ok_do_calls. }
  assert (occurrences symbol (subscribed_symbols (subscribe_symbol self ws symbol) ws)
          = 1%nat) as Hone.
  { apply occurrences_NoDup; [|apply subscribe_symbol_held].
    unfold subscribed_symbols.
    destruct (subscriptions (subscribe_symbol self ws symbol) !! ws) eqn:Hw; cbn.
    - by eapply Hok.
    - constructor. }
  split_and!.
  - apply subscribe_symbol_twice.
  - exact Hone.
  - by rewrite subscribe_symbol_twice.
  - by apply occurrences_not_elem, unsubscribe_symbol_removes.
  - apply unsubscribe_symbol_not_held.
Qed.

Lemma subscription_idempotent_witness :
  unsubscribe_symbol (do_calls [Connect 1%nat]) 1%nat "NSE_TCS" = do_calls [Connect 1%nat].
Proof.
  destruct (subscription_idempotent [Connect 1%nat] 1%nat "NSE_TCS") as (_ & _ & _ & _ & Hnoop).
  apply Hnoop. apply (bool_decide_unpack _). reflexivity.
Defined.

End ApiFacts.

(* ===================================================================== *)
(** ** Properties of the ingest controller                                *)
(* ===================================================================== *)

Module StreamerFacts.
Import Api Streamer Scenario.
Local Open Scope Z_scope.

(** *** Reconnection *)

(** One reconnection attempt below the attempt budget: the counter is
    incremented first, and the delay is computed from the new value. *)
Lemma _handle_reconnection_delay {DB} initialized (self : AngelPriceStreamer DB) :
  reconnect_attempts self < max_reconnect_attempts self ->
  (_handle_reconnection initialized self).2
  = Some (Z.min (reconnect_delay self * 2 ^ (reconnect_attempts self + 1))
                (max_reconnect_delay self)).
Proof.
  intros Hlt. unfold _handle_reconnection.
  rewrite (proj2 (Z.leb_gt _ _) Hlt). by destruct initialized.
Qed.

(** A successful reconnection resets the counter. *)
Lemma _handle_reconnection_reset {DB} (self : AngelPriceStreamer DB) :
  reconnect_attempts self < max_reconnect_attempts self ->
  reconnect_attempts (_handle_reconnection true self).1 = 0 /\
  connected (_handle_reconnection true self).1 = true.
Proof.
  intros Hlt. unfold _handle_reconnection.
  by rewrite (proj2 (Z.leb_gt _ _) Hlt).
Qed.

(** C3.  From a fresh streamer ([reconnect_delay = 5],
    [max_reconnect_delay = 60], counter 0) consecutive failures sleep
    10, 20, 40, 60, 60, ... seconds, ten times in all: the first delay is
    10, where the worded sequence starts at [spec_delay 1 = 5].  A
    success resets the counter to 0, and when the connection is lost
    again the next failures sleep 10 and 20. *)
Theorem reconnect_delays :
  _streaming_loop (repeat false 12) lost_connection
    = [10; 20; 40; 60; 60; 60; 60; 60; 60; 60] /\
  map spec_delay [1; 2; 3; 4; 5; 6] = [5; 10; 20; 40; 60; 60] /\
  reconnect_attempts
    (_handle_reconnection true (with_connection lost_connection true false 3)).1 = 0 /\
  (let reconnected :=
     (_handle_reconnection true (with_connection lost_connection true false 3)).1 in
   _streaming_loop [false; false]
     (with_connection reconnected true false (reconnect_attempts reconnected)))
    = [10; 20].
Proof. vm_compute. done. Qed.

(** *** Ingest *)

Lemma get_prepare_ltp d t :
  get (prepare_price_data d t) "ltp" = resolved_ltp (Some d).
Proof. unfold get, prepare_price_data. by rewrite lookup_insert_eq. Qed.

Lemma strictly_positive_inv v :
  strictly_positive v = true -> exists c, v = PNum c /\ 0 < c.
Proof. destruct v as [| |c]; cbn; try done. intros ?%Z.ltb_lt. eauto. Qed.

Section Ingest.
Context `{Builtins} {DB : Type}.
Variable upsert_price : DB -> pyval -> pyval -> dict -> DB * res bool.
Variable call_get_br_symbol : pyval -> res pyval.
Variable call_get_brexchange : pyval -> res pyval.

Local Abbreviation handle_body :=
  (handle_body upsert_price call_get_br_symbol call_get_brexchange).
Local Abbreviation handle_market_data :=
  (handle_market_data upsert_price call_get_br_symbol call_get_brexchange).
Local Abbreviation extract_symbol_exchange :=
  (extract_symbol_exchange call_get_br_symbol call_get_brexchange).

Lemma persist_frame e (self : AngelPriceStreamer DB) symbol exchange price_data :
  messages_received (stats (persist upsert_price e self symbol exchange price_data).1)
  = messages_received (stats self).
Proof. unfold persist. repeat case_match; done. Qed.

(** An event whose resolved last price is not strictly positive stops
    before the store write and before the hand-over to the event loop. *)
Lemma handle_body_rejects e (self : AngelPriceStreamer DB) topic data :
  strictly_positive (resolved_ltp data) = false ->
  self_after (handle_body e self topic data).1 = counted e self /\
  scheduled (handle_body e self topic data).1 = [].
Proof.
  intros Hltp. unfold handle_body.
  destruct (extract_symbol_exchange topic data) as [log1 [[symbol exchange]|x]]; [|done].
  destruct (negb (truthy symbol) || negb (truthy exchange)); [done|].
  destruct data as [d|]; [|done].
  rewrite get_prepare_ltp.
  destruct (resolved_ltp (Some d)) as [|s|c] eqn:Hv; cbn.
  - done.
  - by destruct (negb (s =? ""))%string.
  - cbn in Hltp. apply Z.ltb_ge in Hltp.
    destruct (negb (c =? 0)); [|done].
    by rewrite (proj2 (Z.leb_le _ _) Hltp).
Qed.

(** A validated tick is handed to the event loop when there is one,
    whatever the rate limiter decides and however the store write ends. *)
Lemma handle_body_forwards e (self : AngelPriceStreamer DB) topic d log1 symbol exchange :
  loop_running e = true ->
  extract_symbol_exchange topic (Some d) = (log1, Ok (symbol, exchange)) ->
  truthy symbol = true ->
  truthy exchange = true ->
  strictly_positive (resolved_ltp (Some d)) = true ->
  scheduled (handle_body e self topic (Some d)).1
    = [ {| task_symbol := symbol; task_exchange := exchange;
           task_price_data := prepare_price_data d (now e) |} ] /\
  (handle_body e self topic (Some d)).2 = None.
Proof.
  intros Hloop Hext Hs He Hltp. unfold handle_body.
  rewrite Hext, Hs, He. cbn [negb orb].
  rewrite get_prepare_ltp.
  destruct (strictly_positive_inv _ Hltp) as (c & -> & Hc).
  cbn. rewrite (proj2 (Z.eqb_neq c 0)) by lia.
  rewrite (proj2 (Z.leb_gt c 0)) by lia. cbn.
  destruct (persist upsert_price e (counted e self) symbol exchange
              (prepare_price_data d (now e))) as [self' log2].
  by rewrite Hloop.
Qed.

(** The same tick without a running event loop: [asyncio.create_task]
    raises, nothing is scheduled. *)
Lemma handle_body_no_loop e (self : AngelPriceStreamer DB) topic d log1 symbol exchange :
  loop_running e = false ->
  extract_symbol_exchange topic (Some d) = (log1, Ok (symbol, exchange)) ->
  truthy symbol = true ->
  truthy exchange = true ->
  strictly_positive (resolved_ltp (Some d)) = true ->
  scheduled (handle_body e self topic (Some d)).1 = [] /\
  (handle_body e self topic (Some d)).2 = Some RuntimeError.
Proof.
  intros Hloop Hext Hs He Hltp. unfold handle_body.
  rewrite Hext, Hs, He. cbn [negb orb].
  rewrite get_prepare_ltp.
  destruct (strictly_positive_inv _ Hltp) as (c & -> & Hc).
  cbn. rewrite (proj2 (Z.eqb_neq c 0)) by lia.
  rewrite (proj2 (Z.leb_gt c 0)) by lia. cbn.
  destruct (persist upsert_price e (counted e self) symbol exchange
              (prepare_price_data d (now e))) as [self' log2].
  by rewrite Hloop.
Qed.

Lemma handle_market_data_effects e (self : AngelPriceStreamer DB) topic data :
  exists eff,
    handle_market_data e self topic data = Returned eff /\
    self_after eff = self_after (handle_body e self topic data).1 /\
    scheduled eff = scheduled (handle_body e self topic data).1.
Proof.
  unfold Streamer.handle_market_data.
  destruct (handle_body e self topic data) as [eff [x|]]; eauto.
Qed.

Lemma handle_body_counts e (self : AngelPriceStreamer DB) topic data :
  messages_received (stats (self_after (handle_body e self topic data).1))
  = messages_received (stats self) + 1.
Proof.
  unfold Streamer.handle_body.
  destruct (extract_symbol_exchange topic data) as [log1 [[symbol exchange]|x]]; [|done].
  destruct (negb (truthy symbol) || negb (truthy exchange)); [done|].
  destruct data as [d|]; [|done].
  destruct (negb (truthy (get (prepare_price_data d (now e)) "ltp"))); [done|].
  destruct (py_le_zero (get (prepare_price_data d (now e)) "ltp")) as [[|]|x]; [done| |done].
  pose proof (persist_frame e (counted e self) symbol exchange
                (prepare_price_data d (now e))) as Hp.
  destruct (persist upsert_price e (counted e self) symbol exchange
              (prepare_price_data d (now e))) as [self' log2].
  cbn [fst] in Hp. by destruct (loop_running e); cbn; rewrite Hp.
Qed.

(** C10.  For every topic and data, every store behaviour, every lookup
    behaviour and every environment, the callback returns to its caller:
    an exception that escapes the body is logged at [ERROR] level and
    absorbed, and the message counter has advanced by one. *)
Theorem handle_market_data_returns e (self : AngelPriceStreamer DB) topic data :
  exists eff,
    handle_market_data e self topic data = Returned eff /\
    messages_received (stats (self_after eff)) = messages_received (stats self) + 1 /\
    ((handle_body e self topic data).2 <> None ->
     List.last (logged eff) (INFO, "") = (ERROR, "Error handling market data")).
Proof.
  pose proof (handle_body_counts e self topic data) as Hcount.
  unfold Streamer.handle_market_data.
  destruct (handle_body e self topic data) as [eff [x|]]; cbn [fst snd] in *.
  - eexists. split; [reflexivity|]. split; [done|]. intros _. cbn.
    apply last_last.
  - eexists. split; [reflexivity|]. split; [done|]. done.
Qed.

Lemma isdigit_truthy token : isdigit token = true -> truthy (PStr token) = true.
Proof. unfold isdigit. cbn. by intros [? _]%andb_prop. Qed.

(** Forwarding of validated ticks.  Every validated tick (symbol and
    exchange resolved, last price strictly positive) reaches the hand-over
    to the event loop, for every state of the rate limiter and every
    behaviour of the store write (returning [True], returning [False], or
    raising).  It is forwarded for fanout when the calling thread has a
    running event loop; when it has none, [asyncio.create_task] raises
    and nothing is forwarded. *)
Theorem validated_tick_forwarded e (self : AngelPriceStreamer DB)
    topic d log1 symbol exchange :
  extract_symbol_exchange topic (Some d) = (log1, Ok (symbol, exchange)) ->
  truthy symbol = true ->
  truthy exchange = true ->
  strictly_positive (resolved_ltp (Some d)) = true ->
  exists eff,
    handle_market_data e self topic (Some d) = Returned eff /\
    scheduled eff =
      if loop_running e
      then [ {| task_symbol := symbol; task_exchange := exchange;
                task_price_data := prepare_price_data d (now e) |} ]
      else [].
Proof.
  intros Hext Hs He Hltp.
  destruct (handle_market_data_effects e self topic (Some d)) as (eff & Heq & _ & Hs').
  exists eff. split; [done|]. rewrite Hs'.
  destruct (loop_running e) eqn:Hloop.
  - by destruct (handle_body_forwards e self topic d log1 symbol exchange
                   Hloop Hext Hs He Hltp).
  - by destruct (handle_body_no_loop e self topic d log1 symbol exchange
                   Hloop Hext Hs He Hltp).
Qed.

(** The [except] branch around the token lookup, for any lookup: when the
    symbol comes from the data and is a bare numeric token, the lookup is
    called; if the call raises, the exception is caught and logged at
    [DEBUG] level and the symbol stays the numeric token, so that the tick
    is dropped with a [WARNING] only when no exchange is available, and
    otherwise goes on under the numeric token (and is forwarded when it
    validates and an event loop is running). *)
Theorem unresolved_token_kept e (self : AngelPriceStreamer DB) topic d token x :
  contains "_" topic = false ->
  d <> ∅ ->
  symbol_of d = PStr token ->
  isdigit token = true ->
  call_get_br_symbol (PStr token) = Raise x ->
  extract_symbol_exchange topic (Some d)
    = ([(DEBUG, "Token mapping failed")], Ok (PStr token, exchange_of d)) /\
  exists eff,
    handle_market_data e self topic (Some d) = Returned eff /\
    (truthy (exchange_of d) = false ->
       self_after eff = counted e self /\ scheduled eff = [] /\
       List.last (logged eff) (INFO, "") = (WARNING, "Unable to extract symbol/exchange")) /\
    (truthy (exchange_of d) = true ->
     strictly_positive (resolved_ltp (Some d)) = true ->
     loop_running e = true ->
       scheduled eff = [ {| task_symbol := PStr token; task_exchange := exchange_of d;
                            task_price_data := prepare_price_data d (now e) |} ]).
Proof.
  intros Htopic Hd Hsym Hdig Hcall.
  assert (extract_symbol_exchange topic (Some d)
          = ([(DEBUG, "Token mapping failed")], Ok (PStr token, exchange_of d))) as Hext.
  { unfold Streamer.extract_symbol_exchange. rewrite Htopic, andb_false_r.
    cbn [truthy negb andb data_truthy].
    rewrite bool_decide_eq_false_2 by done. cbn [negb].
    fold (symbol_of d). fold (exchange_of d).
    rewrite Hsym, (isdigit_truthy _ Hdig). cbn [py_isdigit].
    by rewrite Hdig, Hcall. }
  split; [done|].
  destruct (handle_market_data_effects e self topic (Some d)) as (eff & Heq & Hself & Hsched).
  exists eff. split; [done|]. split.
  - intros Hex. revert Hself Hsched.
    unfold Streamer.handle_market_data in Heq. revert Heq.
    unfold Streamer.handle_body.
    rewrite Hext, Hex, orb_true_r. cbn [fst].
    intros [= <-]. done.
  - intros Hex Hltp Hloop. rewrite Hsched.
    by destruct (handle_body_forwards e self topic d _ _ _ Hloop Hext
                   (isdigit_truthy _ Hdig) Hex Hltp).
Qed.

End Ingest.

Section Concrete.
Context `{Builtins}.

(** C2.  An event whose resolved last price is not strictly positive
    (missing, zero, negative, or not a number) leaves the store as it was,
    both the aggregate rows and the tick log, leaves the rate limiter
    as it was, and hands nothing to the event loop. *)
Theorem non_positive_ltp_rejected today e
    (self : AngelPriceStreamer Database.PriceDatabase) topic data :
  strictly_positive (resolved_ltp data) = false ->
  exists eff,
    _handle_market_data today e self topic data = Returned eff /\
    Database.prices (db (self_after eff)) = Database.prices (db self) /\
    Database.real_time_ticks (db (self_after eff)) = Database.real_time_ticks (db self) /\
    db (self_after eff) = db self /\
    _last_db_update (self_after eff) = _last_db_update self /\
    scheduled eff = [].
Proof.
  intros Hltp. unfold _handle_market_data.
  destruct (handle_market_data_effects (store_upsert today e)
              (fun symbol => TokenDb.get_br_symbol [symbol])
              (fun symbol => TokenDb.get_brexchange [symbol]) e self topic data)
    as (eff & Heq & Hself & Hsched).
  destruct (handle_body_rejects (store_upsert today e)
              (fun symbol => TokenDb.get_br_symbol [symbol])
              (fun symbol => TokenDb.get_brexchange [symbol]) e self topic data Hltp)
    as [Hself' Hsched'].
  exists eff. rewrite Hself, Hself', Hsched, Hsched'. done.
Qed.

End Concrete.

(** *** Fanout *)

Section Fanout.
Context `{Builtins} {DB : Type}.

Lemma _broadcast_update_caches send_text t (self : AngelPriceStreamer DB) mgr tk :
  dict_get (manager_key (task_symbol tk) (task_exchange tk))
    (latest_prices (_broadcast_update send_text t self mgr tk).1.2)
  = Some (message_of t tk).
Proof.
  unfold _broadcast_update.
  destruct (direct_loop send_text _ (_subscribers self)) as [sent_direct disc].
  match goal with
  | |- context [broadcast send_text ?mgr' ?m ?f] =>
      pose proof (ApiFacts.broadcast_latest_prices send_text mgr' m f) as Hlp;
      destruct (broadcast send_text mgr' m f) as [mgr2 sent2]
  end.
  cbn in *. rewrite Hlp. apply ApiFacts.dict_get_set.
Qed.




End Fanout.

(** *** Closed examples *)

Lemma non_positive_ltp_rejected_witness :
  exists eff,
    _handle_market_data (H := plain_builtins) 7 in_loop fresh_streamer
      "NSE_RELIANCE_QUOTE" (Some zero_quote) = Returned eff /\
    Database.prices (db (self_after eff)) = Database.prices (db fresh_streamer) /\
    Database.real_time_ticks (db (self_after eff))
      = Database.real_time_ticks (db fresh_streamer) /\
    db (self_after eff) = db fresh_streamer /\
    _last_db_update (self_after eff) = _last_db_update fresh_streamer /\
    scheduled eff = [].
Proof.
  apply (non_positive_ltp_rejected (H := plain_builtins) 7 in_loop fresh_streamer
           "NSE_RELIANCE_QUOTE" (Some zero_quote)).
  reflexivity.
Defined.

Lemma validated_tick_forwarded_witness :
  exists eff,
    _handle_market_data (H := plain_builtins) 7 in_loop fresh_streamer
      "NSE_RELIANCE_QUOTE" (Some reliance_quote) = Returned eff /\
    scheduled eff = [ {| task_symbol := PStr "RELIANCE"; task_exchange := PStr "NSE";
                         task_price_data := prepare_price_data reliance_quote (now in_loop) |} ].
Proof.
  exact (validated_tick_forwarded (H := plain_builtins)
           (store_upsert (H := plain_builtins) 7 in_loop)
           (fun symbol => TokenDb.get_br_symbol [symbol])
           (fun symbol => TokenDb.get_brexchange [symbol])
           in_loop fresh_streamer "NSE_RELIANCE_QUOTE" reliance_quote []
           (PStr "RELIANCE") (PStr "NSE") eq_refl eq_refl eq_refl eq_refl).
Defined.

(** C7.  The callback evaluated on a validated tick in a thread without a
    running event loop (the feed's own thread): the tick is written to
    the store, [asyncio.create_task] raises [RuntimeError], the error is
    logged, and nothing is forwarded to the fanout, where the claim has
    every validated tick forwarded. *)
Lemma validated_tick_not_forwarded :
  let eff := effects_of (_handle_market_data (H := plain_builtins) 7 in_feed_thread
                           fresh_streamer "NSE_RELIANCE_QUOTE" (Some reliance_quote)) in
  strictly_positive (resolved_ltp (Some reliance_quote)) = true /\
  Database.close <$> (Database.prices (db (self_after eff)) !! (7, "RELIANCE", "NSE"))
    = Some 10000 /\
  scheduled eff = [] /\
  List.last (logged eff) (INFO, "") = (ERROR, "Error handling market data").
Proof. vm_compute. done. Qed.

Lemma token_quote_nonempty : token_quote <> ∅.
Proof.
  intros Hempty. apply (f_equal (fun m : dict => m !! "tk")) in Hempty.
  vm_compute in Hempty. discriminate.
Qed.

Lemma unresolved_token_kept_witness :
  extract_symbol_exchange
    (fun symbol => TokenDb.get_br_symbol [symbol])
    (fun symbol => TokenDb.get_brexchange [symbol]) "" (Some token_quote)
    = ([(DEBUG, "Token mapping failed")], Ok (PStr "2885", exchange_of token_quote)) /\
  exists eff,
    _handle_market_data (H := plain_builtins) 7 in_loop fresh_streamer
      "" (Some token_quote) = Returned eff /\
    (truthy (exchange_of token_quote) = false ->
       self_after eff = counted in_loop fresh_streamer /\ scheduled eff = [] /\
       List.last (logged eff) (INFO, "") = (WARNING, "Unable to extract symbol/exchange")) /\
    (truthy (exchange_of token_quote) = true ->
     strictly_positive (resolved_ltp (Some token_quote)) = true ->
     loop_running in_loop = true ->
       scheduled eff = [ {| task_symbol := PStr "2885";
                            task_exchange := exchange_of token_quote;
                            task_price_data := prepare_price_data token_quote (now in_loop) |} ]).
Proof.
  exact (unresolved_token_kept (H := plain_builtins)
           (store_upsert (H := plain_builtins) 7 in_loop)
           (fun symbol => TokenDb.get_br_symbol [symbol])
           (fun symbol => TokenDb.get_brexchange [symbol])
           in_loop fresh_streamer "" token_quote "2885" TypeError
           eq_refl token_quote_nonempty eq_refl eq_refl eq_refl).
Defined.

(** C5.  The claim fails on the code.  The callback calls
    [get_br_symbol(symbol)] with one argument, and the function takes
    [(symbol, exchange)]: the call raises [TypeError] for every symbol,
    so no numeric token is ever resolved and every tick whose symbol is a
    numeric token read from the data leaves the lookup under that token.
    The token ["2885"], which the table knows as RELIANCE on NSE, arrives
    in field [tk] with exchange ["NSE"]: the tick is stored and forwarded
    under the symbol ["2885"], nothing is stored for RELIANCE, and no
    warning is logged. *)
Theorem numeric_token_not_resolved :
  (forall symbol, TokenDb.get_br_symbol [symbol] = Raise TypeError) /\
  (forall topic d token,
     contains "_" topic = false -> d <> ∅ ->
     symbol_of d = PStr token -> isdigit token = true ->
     extract_symbol_exchange
       (fun symbol => TokenDb.get_br_symbol [symbol])
       (fun symbol => TokenDb.get_brexchange [symbol]) topic (Some d)
     = ([(DEBUG, "Token mapping failed")], Ok (PStr token, exchange_of d))) /\
  TokenStore.get_symbol_dbquery TokenStore.initial "2885" "NSE" = Some "RELIANCE" /\
  let eff := effects_of (_handle_market_data (H := plain_builtins) 7 in_loop
                           fresh_streamer "" (Some token_quote)) in
  Database.close <$> (Database.prices (db (self_after eff)) !! (7, "2885", "NSE"))
    = Some 10000 /\
  Database.prices (db (self_after eff)) !! (7, "RELIANCE", "NSE") = None /\
  length (Database.real_time_ticks (db (self_after eff))) = 1%nat /\
  map task_symbol (scheduled eff) = [PStr "2885"] /\
  map fst (logged eff) = [INFO; DEBUG; INFO].
Proof.
  assert (forall symbol, TokenDb.get_br_symbol [symbol] = Raise TypeError) as Hraise
    by (by intros []).
  split; [exact Hraise|]. split.
  - intros topic d token Htopic Hd Hsym Hdig.
    unfold Streamer.extract_symbol_exchange. rewrite Htopic, andb_false_r.
    cbn [truthy negb andb data_truthy].
    rewrite bool_decide_eq_false_2 by done. cbn [negb].
    fold (symbol_of d). fold (exchange_of d).
    rewrite Hsym, (isdigit_truthy _ Hdig). cbn [py_isdigit].
    by rewrite Hdig, Hraise.
  - vm_compute. done.
Qed.



Lemma handle_market_data_returns_witness :
  exists eff,
    _handle_market_data (H := plain_builtins) 7 in_feed_thread fresh_streamer
      "NSE_RELIANCE_QUOTE" (Some reliance_quote) = Returned eff /\
    List.last (logged eff) (INFO, "") = (ERROR, "Error handling market data").
Proof.
  destruct (handle_market_data_returns (H := plain_builtins)
              (store_upsert (H := plain_builtins) 7 in_feed_thread)
              (fun symbol => TokenDb.get_br_symbol [symbol])
              (fun symbol => TokenDb.get_brexchange [symbol])
              in_feed_thread fresh_streamer "NSE_RELIANCE_QUOTE" (Some reliance_quote))
    as (eff & Heq & _ & Hlog).
  exists eff. split; [exact Heq|]. apply Hlog. vm_compute. discriminate.
Defined.

(** Events whose handling raises inside the callback. *)
Example data_is_none :
  (handle_body (H := plain_builtins) (store_upsert (H := plain_builtins) 7 in_loop)
     (fun symbol => TokenDb.get_br_symbol [symbol])
     (fun symbol => TokenDb.get_brexchange [symbol])
     in_loop fresh_streamer "NSE_RELIANCE_QUOTE" None).2 = Some AttributeError.
Proof. reflexivity. Qed.

Example ltp_is_text :
  (handle_body (H := plain_builtins) (store_upsert (H := plain_builtins) 7 in_loop)
     (fun symbol => TokenDb.get_br_symbol [symbol])
     (fun symbol => TokenDb.get_brexchange [symbol])
     in_loop fresh_streamer "NSE_RELIANCE_QUOTE" (Some {[ "lp" := PStr "n/a" ]})).2
  = Some TypeError.
Proof. vm_compute. reflexivity. Qed.

Example token_is_number :
  (handle_body (H := plain_builtins) (store_upsert (H := plain_builtins) 7 in_loop)
     (fun symbol => TokenDb.get_br_symbol [symbol])
     (fun symbol => TokenDb.get_brexchange [symbol])
     in_loop fresh_streamer "" (Some {[ "tk" := PNum 288500; "lp" := PNum 10000 ]})).2
  = Some AttributeError.
Proof. vm_compute. reflexivity. Qed.

End StreamerFacts.

(* ===================================================================== *)
(** ** More properties of the store: writes, tick log, reads *)
(* ===================================================================== *)

Module StoreFacts.
Import Database Scenario.
Local Open Scope Z_scope.

Section WithBuiltins.
Context `{Builtins}.

(** Every way out of [upsert_price]. *)
Lemma upsert_price_cases today now self symbol exchange price_data :
  let r := upsert_price today now self symbol exchange price_data in
  (r = (self, false)) \/
  (exists cp row,
     ltp_of price_data = Ok cp /\
     r = (_insert_tick now
            {| prices := <[(today, symbol, exchange) := row]> (prices self);
               real_time_ticks := real_time_ticks self;
               tick_id_seq := tick_id_seq self |}
            symbol exchange price_data, true) /\
     close row = cp /\ last_updated row = now /\
     match prices self !! (today, symbol, exchange) with
     | Some old =>
         open row = open old /\ created_at row = created_at old /\
         high row = Z.max (high old) cp /\
         low row = (if 0 <? low old then Z.min (low old) cp else cp) /\
         volume old <= volume row
     | None => created_at row = now
     end).
Proof.
  cbn zeta. unfold upsert_price, ltp_of.
  destruct (py_float (get_default price_data "ltp" (PNum 0))) as [cp|]; [|by left].
  destruct (py_int (get_default price_data "volume" (PNum 0))) as [vol|]; [|by left].
  destruct (py_int (get_default price_data "oi" (PNum 0))) as [o|]; [|by left].
  destruct (prices self !! (today, symbol, exchange)) as [old|].
  - case_match; [|by left]. right. eexists cp, _.
    split; [done|]. split; [reflexivity|]. cbn. split_and!; try done. lia.
  - destruct (to_decimal _) as [op|]; [|by left].
    destruct (to_decimal _) as [hi|]; [|by left].
    destruct (to_decimal _) as [lo|]; [|by left].
    case_match; [|by left]. right. eexists cp, _.
    split; [done|]. split; [reflexivity|]. done.
Qed.

Lemma prices_insert_tick' now self symbol exchange price_data :
  prices (_insert_tick now self symbol exchange price_data) = prices self.
Proof. unfold _insert_tick. repeat case_match; reflexivity. Qed.

(** X1.  [upsert_price] is all or nothing on the aggregate: when it
    returns [False] the store is exactly as before (rows, tick log and
    sequence); when it returns [True] today's row of the key exists, its
    close is the tick's last price and its [last_updated] is the clock,
    and [get_current_price] hands that price back as [close] and [ltp]. *)
Theorem upsert_price_outcome today now self symbol exchange price_data :
  let r := upsert_price today now self symbol exchange price_data in
  (r.2 = false -> r.1 = self) /\
  (r.2 = true ->
   exists cp row,
     ltp_of price_data = Ok cp /\
     prices r.1 !! (today, symbol, exchange) = Some row /\
     close row = cp /\ last_updated row = now /\
     exists res,
       get_current_price today r.1 symbol exchange = Some res /\
       cp_close res = float_of_decimal cp /\ cp_ltp res = float_of_decimal cp).
Proof.
  intros r. subst r.
  destruct (upsert_price_cases today now self symbol exchange price_data)
    as [->|(cp & row & Hltp & -> & Hclose & Hupd & _)]; cbn [fst snd].
  - split; [done|]. discriminate.
  - split; [discriminate|]. intros _. exists cp, row.
    assert (prices (_insert_tick now
                      {| prices := <[(today, symbol, exchange) := row]> (prices self);
                         real_time_ticks := real_time_ticks self;
                         tick_id_seq := tick_id_seq self |}
                      symbol exchange price_data) !! (today, symbol, exchange) = Some row)
      as Hrow.
    { rewrite prices_insert_tick'. cbn. apply lookup_insert_eq. }
    split_and!; try done.
    unfold get_current_price. rewrite Hrow. eexists. split; [reflexivity|].
    cbn. by rewrite Hclose.
Qed.

(** X2.  [upsert_price] touches one key only: the row of every other
    [(date, symbol, exchange)], another day of the same symbol included,
    is as before, and so is what [get_current_price] returns for it. *)
Theorem upsert_price_frame today now self symbol exchange price_data d s e :
  (d, s, e) <> (today, symbol, exchange) ->
  prices (upsert_price today now self symbol exchange price_data).1 !! (d, s, e)
    = prices self !! (d, s, e) /\
  get_current_price d (upsert_price today now self symbol exchange price_data).1 s e
    = get_current_price d self s e.
Proof.
  intros Hne.
  assert (prices (upsert_price today now self symbol exchange price_data).1 !! (d, s, e)
          = prices self !! (d, s, e)) as Hrow.
  { destruct (upsert_price_cases today now self symbol exchange price_data)
      as [->|(cp & row & _ & -> & _)]; cbn [fst]; [done|].
    rewrite prices_insert_tick'. cbn. by rewrite lookup_insert_ne. }
  split; [done|]. unfold get_current_price. by rewrite Hrow.
Qed.

(** X3.  A successful [upsert_price] on an existing row only widens it:
    [open] and [created_at] are kept, [high] and [volume] never decrease,
    a strictly positive [low] never increases, and afterwards
    [low <= close <= high] whatever the row held before. *)
Theorem upsert_price_widens today now self symbol exchange price_data old :
  prices self !! (today, symbol, exchange) = Some old ->
  (upsert_price today now self symbol exchange price_data).2 = true ->
  exists row,
    prices (upsert_price today now self symbol exchange price_data).1
      !! (today, symbol, exchange) = Some row /\
    open row = open old /\ created_at row = created_at old /\
    high old <= high row /\ volume old <= volume row /\
    (0 < low old -> low row <= low old) /\
    low row <= close row <= high row.
Proof.
  intros Hold Htrue.
  destruct (upsert_price_cases today now self symbol exchange price_data)
    as [Heq|(cp & row & _ & Heq & Hclose & _ & Hrow)];
    cbn zeta in Heq; rewrite Heq in *; cbn [fst snd] in *; [discriminate|].
  rewrite Hold in Hrow. destruct Hrow as (Hop & Hcr & Hhi & Hlo & Hvol).
  exists row. rewrite prices_insert_tick'. cbn. rewrite lookup_insert_eq.
  split_and!; try done.
  - lia.
  - intros Hpos. rewrite Hlo, (proj2 (Z.ltb_lt _ _) Hpos). lia.
  - rewrite Hlo, Hclose. destruct (0 <? low old); lia.
  - rewrite Hhi, Hclose. lia.
Qed.

(** *** Tick log *)

Lemma _insert_tick_log now self symbol exchange price_data :
  tick_id_seq (_insert_tick now self symbol exchange price_data) = tick_id_seq self + 1 /\
  (real_time_ticks (_insert_tick now self symbol exchange price_data) = real_time_ticks self \/
   exists row,
     real_time_ticks (_insert_tick now self symbol exchange price_data)
       = real_time_ticks self ++ [row] /\
     t_id row = tick_id_seq self /\ t_timestamp row = now /\
     t_symbol row = symbol /\ t_exchange row = exchange /\
     ltp_of price_data = Ok (t_ltp row)).
Proof.
  unfold _insert_tick, ltp_of.
  destruct (py_float (get_default price_data "ltp" (PNum 0))) as [ltp|]; [|by split; [|left]].
  destruct (py_int (get_default price_data "volume" (PNum 0))) as [vol|]; [|by split; [|left]].
  destruct (py_int (get_default price_data "oi" (PNum 0))) as [o|]; [|by split; [|left]].
  destruct (py_float (get_default price_data "bid" (PNum 0))) as [bid|]; [|by split; [|left]].
  destruct (py_float (get_default price_data "ask" (PNum 0))) as [ask|]; [|by split; [|left]].
  case_match; cbn; (split; [done|]); [right|by left].
  eexists. split; [reflexivity|]. done.
Qed.

Lemma tick_ids_ok_snoc self row :
  tick_ids_ok self ->
  t_id row = tick_id_seq self ->
  tick_ids_ok {| prices := prices self;
                 real_time_ticks := real_time_ticks self ++ [row];
                 tick_id_seq := tick_id_seq self + 1 |}.
Proof.
  intros [Hsorted Hbelow] Hid. split; cbn.
  - rewrite map_app. apply StronglySorted_app_2; [|done|repeat constructor].
    intros x1 x2 Hx1 ->%list_elem_of_singleton.
    apply list_elem_of_fmap in Hx1 as (r1 & -> & Hr1).
    rewrite Forall_forall in Hbelow. rewrite Hid. by apply Hbelow.
  - apply Forall_app. split.
    + eapply Forall_impl; [done|]. cbn. intros; lia.
    + constructor; [lia|constructor].
Qed.

Lemma upsert_price_log today now self symbol exchange price_data :
  tick_ids_ok self ->
  tick_ids_ok (upsert_price today now self symbol exchange price_data).1 /\
  real_time_ticks self
    `prefix_of` real_time_ticks (upsert_price today now self symbol exchange price_data).1 /\
  (length (real_time_ticks (upsert_price today now self symbol exchange price_data).1)
   <= S (length (real_time_ticks self)))%nat /\
  tick_id_seq self <= tick_id_seq (upsert_price today now self symbol exchange price_data).1.
Proof.
  intros Hok.
  destruct (upsert_price_cases today now self symbol exchange price_data)
    as [->|(cp & row & _ & -> & _)]; cbn [fst].
  - split_and!; [done|done|lia|lia].
  - match goal with
    | |- context [_insert_tick now ?db symbol exchange price_data] =>
        destruct (_insert_tick_log now db symbol exchange price_data)
          as [Hseq [Hsame|(t & Happ & Hid & _)]];
        set (db' := _insert_tick now db symbol exchange price_data) in *
    end; cbn in Hseq, Hsame || cbn in Hseq.
    + destruct Hok as [Hs Hb]. split_and!.
      * split; rewrite Hsame; [done|]. rewrite Hseq.
        eapply Forall_impl; [done|]. cbn. intros; lia.
      * by rewrite Hsame.
      * rewrite Hsame. lia.
      * lia.
    + cbn in Happ, Hid.
      pose proof (tick_ids_ok_snoc self t Hok Hid) as [Hs Hb]. cbn in Hs, Hb.
      split_and!.
      * split; rewrite Happ; [done|]. by rewrite Hseq.
      * rewrite Happ. by apply prefix_app_r.
      * rewrite Happ, length_app. cbn. lia.
      * lia.
Qed.

Lemma upsert_calls_log calls : forall self,
  tick_ids_ok self ->
  tick_ids_ok (upsert_calls self calls) /\
  real_time_ticks self `prefix_of` real_time_ticks (upsert_calls self calls) /\
  (length (real_time_ticks (upsert_calls self calls))
   <= length (real_time_ticks self) + length calls)%nat.
Proof.
  induction calls as [|c calls IH]; intros self Hok; cbn.
  - split_and!; [done|done|lia].
  - destruct (upsert_price_log (uc_today c) (uc_now c) self (uc_symbol c) (uc_exchange c)
                (uc_price_data c) Hok) as (Hok1 & Hpre1 & Hlen1 & _).
    destruct (IH _ Hok1) as (Hok2 & Hpre2 & Hlen2).
    split_and!; [done|by etrans|]. unfold upsert_calls in *. lia.
Qed.

Lemma upsert_calls_app self calls1 calls2 :
  upsert_calls self (calls1 ++ calls2) = upsert_calls (upsert_calls self calls1) calls2.
Proof. unfold upsert_calls. apply foldl_app. Qed.

(** X4.  The tick log is append-only with strictly increasing
    identifiers: after any sequence of [upsert_price] calls on a new
    store, whatever their arguments and results, the identifiers are
    strictly increasing and below the next sequence value, there is at
    most one row per call, and further calls only extend the log. *)
Theorem tick_log_append_only calls more :
  tick_ids_ok (upsert_calls empty_db calls) /\
  (length (real_time_ticks (upsert_calls empty_db calls)) <= length calls)%nat /\
  real_time_ticks (upsert_calls empty_db calls)
    `prefix_of` real_time_ticks (upsert_calls empty_db (calls ++ more)).
Proof.
  assert (tick_ids_ok empty_db) as Hempty by (split; constructor).
  destruct (upsert_calls_log calls empty_db Hempty) as (Hok & _ & Hlen).
  split_and!; [done|cbn in Hlen; lia|].
  rewrite upsert_calls_app. by apply upsert_calls_log.
Qed.

(** X5.  The tick row is best effort: when [bid] or [ask] of the tick is
    not a number, a successful [upsert_price] still returns [True] and
    updates the aggregate, but adds no row to the tick log and uses up
    one identifier of the sequence. *)
Theorem upsert_price_tick_skipped today now self symbol exchange price_data x :
  py_float (get_default price_data "bid" (PNum 0)) = Raise x \/
  py_float (get_default price_data "ask" (PNum 0)) = Raise x ->
  (upsert_price today now self symbol exchange price_data).2 = true ->
  real_time_ticks (upsert_price today now self symbol exchange price_data).1
    = real_time_ticks self /\
  tick_id_seq (upsert_price today now self symbol exchange price_data).1
    = tick_id_seq self + 1 /\
  is_Some (prices (upsert_price today now self symbol exchange price_data).1
             !! (today, symbol, exchange)).
Proof.
  intros Hbad Htrue.
  destruct (upsert_price_cases today now self symbol exchange price_data)
    as [Heq|(cp & row & _ & Heq & _)];
    cbn zeta in Heq; rewrite Heq in *; cbn [fst snd] in *; [discriminate|].
  rewrite prices_insert_tick'. cbn [prices]. rewrite lookup_insert_eq.
  split_and!; [| |by eexists].
  - unfold _insert_tick. destruct Hbad as [-> | ->]; by repeat case_match.
  - unfold _insert_tick. destruct Hbad as [-> | ->]; by repeat case_match.
Qed.

End WithBuiltins.

(** *** Read path *)

Section SortedTake.
Context {A : Type} (R : relation A).

Lemma StronglySorted_take n l : StronglySorted R l -> StronglySorted R (take n l).
Proof.
  intros Hs. rewrite <- (take_drop n l) in Hs.
  by apply StronglySorted_app_1_l in Hs.
Qed.

Lemma take_sorted_closed n l x y :
  StronglySorted R l -> x ∈ take n l -> y ∈ l -> ~ R x y -> y ∈ take n l.
Proof.
  intros Hs Hx Hy Hnot. rewrite <- (take_drop n l) in Hs, Hy.
  apply elem_of_app in Hy as [Hy|Hy]; [done|].
  destruct Hnot. by eapply StronglySorted_app_1_elem_of.
Qed.

Lemma take_sorted_head n l y :
  StronglySorted R l -> (0 < n)%nat -> y ∈ l ->
  exists x, x ∈ take n l /\ (x = y \/ R x y).
Proof.
  intros Hs Hn Hy. destruct l as [|x l]; [by apply elem_of_nil in Hy|].
  destruct n as [|n]; [lia|]. exists x. split; [cbn; by left|].
  apply elem_of_cons in Hy as [->|Hy]; [by left|right].
  apply StronglySorted_cons in Hs as [Hall _].
  rewrite Forall_forall in Hall. by apply Hall.
Qed.

End SortedTake.

Lemma StronglySorted_strict {A} (f : A -> Z) (l : list A) :
  StronglySorted (fun a b => f b <= f a) l ->
  NoDup (f <$> l) ->
  StronglySorted (fun a b => f b < f a) l.
Proof.
  induction 1 as [|x l Hs IH Hall]; intros Hnd; [constructor|].
  rewrite fmap_cons in Hnd. apply NoDup_cons in Hnd as [Hx Hnd].
  constructor; [by apply IH|].
  rewrite Forall_forall in Hall |- *. intros y Hy.
  specialize (Hall y Hy). cbn in Hall.
  assert (f y <> f x); [|lia].
  intros Heq. apply Hx. rewrite <- Heq. by apply list_elem_of_fmap_2.
Qed.

#[local] Instance newer_date_first_trans : Transitive newer_date_first.
Proof. intros a b c. unfold newer_date_first. lia. Qed.
#[local] Instance newer_date_first_total : Total newer_date_first.
Proof. intros a b. unfold newer_date_first. lia. Qed.
#[local] Instance newer_first_trans : Transitive newer_first.
Proof. intros a b c. unfold newer_first. lia. Qed.
#[local] Instance newer_first_total : Total newer_first.
Proof. intros a b. unfold newer_first. lia. Qed.

Lemma sorted_history_elem self symbol exchange kr :
  kr ∈ sorted_history self symbol exchange <->
  kr.1 = (kr.1.1.1, symbol, exchange) /\ prices self !! kr.1 = Some kr.2.
Proof.
  unfold sorted_history. rewrite merge_sort_Permutation, list_elem_of_filter.
  destruct kr as [[[d s] e] r]. cbn. rewrite elem_of_map_to_list. naive_solver.
Qed.

Lemma sorted_history_strict self symbol exchange :
  StronglySorted (fun a b : (Z * string * string) * price_row => b.1.1.1 < a.1.1.1)
    (sorted_history self symbol exchange).
Proof.
  apply (StronglySorted_strict (fun kr : (Z * string * string) * price_row => kr.1.1.1)).
  - apply (StronglySorted_merge_sort newer_date_first).
  - apply NoDup_fmap_2_strong.
    + intros a b [Ha Ha']%sorted_history_elem [Hb Hb']%sorted_history_elem Hd.
      destruct a as [[[da sa] ea] ra], b as [[[db sb] eb] rb]. cbn in *.
      by simplify_eq.
    + unfold sorted_history. rewrite merge_sort_Permutation.
      apply NoDup_filter, NoDup_map_to_list.
Qed.

(** X6.  [get_price_history] returns the [days] most recent stored days of
    the symbol, newest first: at most [days] entries, all of the requested
    symbol and exchange, with strictly decreasing dates, each the float
    conversion of a stored row; no stored day as recent as a returned one
    is left out, and the most recent stored day is returned whenever
    [days] is positive. *)
Theorem get_price_history_newest self symbol exchange days :
  let result := get_price_history self symbol exchange days in
  (length result <= days)%nat /\
  StronglySorted (fun a b => h_date b < h_date a) result /\
  (forall h, h ∈ result ->
     h_symbol h = symbol /\ h_exchange h = exchange /\
     exists row,
       prices self !! (h_date h, symbol, exchange) = Some row /\
       h_open h = float_of_decimal (open row) /\
       h_high h = float_of_decimal (high row) /\
       h_low h = float_of_decimal (low row) /\
       h_close h = float_of_decimal (close row) /\
       h_volume h = volume row) /\
  (forall d row h,
     prices self !! (d, symbol, exchange) = Some row ->
     h ∈ result -> h_date h <= d ->
     exists h', h' ∈ result /\ h_date h' = d) /\
  (forall d row,
     prices self !! (d, symbol, exchange) = Some row -> (0 < days)%nat ->
     exists h', h' ∈ result /\ d <= h_date h').
Proof.
  intros result. subst result. unfold get_price_history, history_rows.
  pose proof (sorted_history_strict self symbol exchange) as Hsorted.
  set (conv := fun kr : (Z * string * string) * price_row => _).
  split_and!.
  - rewrite length_map, length_take. lia.
  - apply (StronglySorted_fmap conv
             (fun a b : (Z * string * string) * price_row => b.1.1.1 < a.1.1.1)); [done|].
    by apply StronglySorted_take.
  - intros h (kr & -> & Hkr)%list_elem_of_fmap.
    assert (kr ∈ sorted_history self symbol exchange) as Hin
      by (eapply (subseteq_take days); done).
    apply sorted_history_elem in Hin as [Hkey Hrow].
    destruct kr as [[[d s] e] r]. cbn in *. injection Hkey as -> ->.
    split_and!; try done. by exists r.
  - intros d row h Hrow (kr & -> & Hkr)%list_elem_of_fmap Hle. cbn in Hle.
    assert (((d, symbol, exchange), row) ∈ take days (sorted_history self symbol exchange))
      as Hd.
    { eapply take_sorted_closed; [exact Hsorted|exact Hkr| |].
      - by apply sorted_history_elem.
      - cbn. lia. }
    exists (conv (d, symbol, exchange, row)). split; [by apply list_elem_of_fmap_2|done].
  - intros d row Hrow Hdays.
    destruct (take_sorted_head _ days (sorted_history self symbol exchange)
                (d, symbol, exchange, row) Hsorted Hdays) as (x & Hx & Hmax).
    { by apply sorted_history_elem. }
    exists (conv x). split; [by apply list_elem_of_fmap_2|].
    destruct Hmax as [->|Hlt]; cbn in *; lia.
Qed.

Lemma get_recent_ticks_rows self symbol exchange limit t :
  t ∈ get_recent_ticks self symbol exchange limit <->
  exists row,
    row ∈ recent_rows self symbol exchange limit /\
    t = {| rt_timestamp := t_timestamp row; rt_symbol := t_symbol row;
           rt_exchange := t_exchange row; rt_ltp := float_of_decimal (t_ltp row);
           rt_volume := t_volume row; rt_oi := t_oi row;
           rt_bid := float_of_decimal (t_bid row);
           rt_ask := float_of_decimal (t_ask row) |}.
Proof.
  unfold get_recent_ticks. fold (recent_rows self symbol exchange limit).
  change (map ?f ?l) with (f <$> l). rewrite list_elem_of_fmap. naive_solver.
Qed.

(** X7.  [get_recent_ticks] returns at most [limit] entries, newest
    first, each the float conversion of a logged tick of the requested
    symbol and exchange; a logged tick of the key strictly newer than a
    returned one is returned too, and the newest logged tick of the key
    is returned whenever [limit] is positive. *)
Theorem get_recent_ticks_newest self symbol exchange limit :
  let result := get_recent_ticks self symbol exchange limit in
  (length result <= limit)%nat /\
  StronglySorted (fun a b => rt_timestamp b <= rt_timestamp a) result /\
  (forall t, t ∈ result ->
     rt_symbol t = symbol /\ rt_exchange t = exchange /\
     exists row,
       row ∈ real_time_ticks self /\
       rt_timestamp t = t_timestamp row /\
       rt_ltp t = float_of_decimal (t_ltp row) /\
       rt_volume t = t_volume row) /\
  (forall row t,
     row ∈ real_time_ticks self ->
     t_symbol row = symbol -> t_exchange row = exchange ->
     t ∈ result -> rt_timestamp t < t_timestamp row ->
     exists t', t' ∈ result /\ rt_timestamp t' = t_timestamp row /\
                rt_ltp t' = float_of_decimal (t_ltp row)) /\
  (forall row,
     row ∈ real_time_ticks self ->
     t_symbol row = symbol -> t_exchange row = exchange -> (0 < limit)%nat ->
     exists t', t' ∈ result /\ t_timestamp row <= rt_timestamp t').
Proof.
  intros result. subst result.
  set (P := fun row => t_symbol row = symbol /\ t_exchange row = exchange).
  set (L := merge_sort newer_first (filter P (real_time_ticks self))).
  assert (StronglySorted newer_first L) as Hsorted
    by apply (StronglySorted_merge_sort newer_first).
  assert (forall row, row ∈ L <-> P row /\ row ∈ real_time_ticks self) as HL.
  { intros row. unfold L. by rewrite merge_sort_Permutation, list_elem_of_filter. }
  assert (recent_rows self symbol exchange limit = take limit L) as Hrows by reflexivity.
  split_and!.
  - unfold get_recent_ticks. rewrite length_map, length_take. lia.
  - unfold get_recent_ticks.
    apply (StronglySorted_fmap _ newer_first); [done|].
    by apply StronglySorted_take.
  - intros t (row & Hrow & ->)%get_recent_ticks_rows. rewrite Hrows in Hrow.
    assert (row ∈ L) as [[Hs He] Hin]%HL by (eapply (subseteq_take limit); done).
    cbn. split_and!; try done. by exists row.
  - intros row t Hin Hs He (row0 & Hrow0 & ->)%get_recent_ticks_rows Hlt.
    rewrite Hrows in Hrow0. cbn in Hlt.
    assert (row ∈ take limit L) as Hrow.
    { eapply take_sorted_closed; [exact Hsorted|exact Hrow0|by apply HL|].
      unfold newer_first. lia. }
    eexists. split; [apply get_recent_ticks_rows; exists row; by rewrite Hrows|done].
  - intros row Hin Hs He Hlimit.
    destruct (take_sorted_head _ limit L row Hsorted Hlimit) as (x & Hx & Hmax);
      [by apply HL|].
    eexists. split; [apply get_recent_ticks_rows; exists x; by rewrite Hrows|].
    cbn. destruct Hmax as [->|Hle]; [lia|exact Hle].
Qed.

(** X8.  [cleanup_old_ticks] never touches the aggregate rows or the
    sequence; when its statement runs it keeps, in order, exactly the
    ticks whose timestamp is not older than [days_to_keep] days, the
    identifiers stay strictly increasing, and running it again at the
    same clock changes nothing. *)
Theorem cleanup_old_ticks_keeps executed now self days_to_keep :
  let after := cleanup_old_ticks executed now self days_to_keep in
  prices after = prices self /\
  tick_id_seq after = tick_id_seq self /\
  real_time_ticks after `sublist_of` real_time_ticks self /\
  (tick_ids_ok self -> tick_ids_ok after) /\
  cleanup_old_ticks executed now after days_to_keep = after /\
  (executed = true ->
   forall row, row ∈ real_time_ticks after <->
     row ∈ real_time_ticks self /\ now - days_to_keep * 86400000 <= t_timestamp row).
Proof.
  intros after. subst after. unfold cleanup_old_ticks.
  destruct executed; cbn; [|split_and!; done].
  set (P := fun row => ~ t_timestamp row < now - days_to_keep * 86400000).
  split_and!; try done.
  - apply sublist_filter.
  - intros [Hs Hb]. split; cbn.
    + clear Hb. induction (real_time_ticks self) as [|r l IH]; [constructor|].
      cbn in Hs. apply StronglySorted_cons in Hs as [Hall Hs].
      rewrite filter_cons. case_decide; [|by apply IH].
      cbn. constructor; [by apply IH|].
      rewrite Forall_forall in Hall |- *.
      intros x (y & -> & [_ Hy]%list_elem_of_filter)%list_elem_of_fmap.
      apply Hall. by apply list_elem_of_fmap_2.
    + rewrite Forall_forall in Hb |- *.
      intros x [_ Hx]%list_elem_of_filter. by apply Hb.
  - f_equal. rewrite list_filter_filter. apply list_filter_iff. intros x. tauto.
  - intros _ row. rewrite list_elem_of_filter. unfold P. split.
    + intros [Hp Hin]. split; [done|lia].
    + intros [Hin Hp]. split; [lia|done].
Qed.

(** *** Closed examples *)

Lemma upsert_price_frame_witness :
  prices (upsert_price (H := plain_builtins) 7 1 after_first "RELIANCE" "NSE" second_tick).1
    !! (6, "RELIANCE", "NSE")
  = prices after_first !! (6, "RELIANCE", "NSE").
Proof.
  apply (upsert_price_frame (H := plain_builtins) 7 1 after_first "RELIANCE" "NSE"
           second_tick 6 "RELIANCE" "NSE").
  discriminate.
Defined.

Lemma upsert_price_widens_witness :
  exists row,
    prices (upsert_price (H := plain_builtins) 7 1 after_first "RELIANCE" "NSE" second_tick).1
      !! (7, "RELIANCE", "NSE") = Some row /\
    open row = open first_row /\ created_at row = created_at first_row /\
    high first_row <= high row /\ volume first_row <= volume row /\
    (0 < low first_row -> low row <= low first_row) /\
    low row <= close row <= high row.
Proof.
  apply (upsert_price_widens (H := plain_builtins) 7 1 after_first "RELIANCE" "NSE"
           second_tick first_row).
  - vm_compute. reflexivity.
  - vm_compute. reflexivity.
Defined.

Lemma upsert_price_tick_skipped_witness :
  real_time_ticks (upsert_price (H := plain_builtins) 7 1 after_first "RELIANCE" "NSE" bad_bid).1
    = real_time_ticks after_first /\
  tick_id_seq (upsert_price (H := plain_builtins) 7 1 after_first "RELIANCE" "NSE" bad_bid).1
    = tick_id_seq after_first + 1 /\
  is_Some (prices (upsert_price (H := plain_builtins) 7 1 after_first "RELIANCE" "NSE" bad_bid).1
             !! (7, "RELIANCE", "NSE")).
Proof.
  apply (upsert_price_tick_skipped (H := plain_builtins) 7 1 after_first "RELIANCE" "NSE"
           bad_bid ValueError).
  - left. vm_compute. reflexivity.
  - vm_compute. reflexivity.
Defined.

End StoreFacts.

(* ===================================================================== *)
(** ** More properties of the manager and of the REST endpoints *)
(* ===================================================================== *)

Module RegistryFacts.
Import Database Api Scenario.
Local Open Scope Z_scope.

(** *** Registry *)

Lemma filter_not_elem {A} `{EqDecision A} (x : A) (l : list A) :
  x ∉ l -> filter (fun y => y <> x) l = l.
Proof.
  induction l as [|y l IH]; [done|]. intros [Hne Hl]%not_elem_of_cons.
  rewrite filter_cons, decide_True by (intros ->; by apply Hne).
  by rewrite IH.
Qed.

Lemma elem_of_concat {A} (x : A) (ls : list (list A)) :
  x ∈ concat ls <-> exists l, x ∈ l /\ l ∈ ls.
Proof.
  induction ls as [|k ls IH]; cbn [concat].
  - split; [by intros ?%elem_of_nil|]. by intros (l & _ & ?%elem_of_nil).
  - rewrite elem_of_app, IH. split.
    + intros [Hx|(l & Hx & Hl)]; [exists k; split; [done|by left]|].
      exists l. split; [done|by right].
    + intros (l & Hx & [->|Hl]%elem_of_cons); [by left|]. right. by exists l.
Qed.

Lemma filter_ext_elem {A} (P Q : A -> Prop)
    `{!forall x, Decision (P x), !forall x, Decision (Q x)} (l : list A) :
  (forall x, x ∈ l -> (P x <-> Q x)) -> filter P l = filter Q l.
Proof.
  induction l as [|x l IH]; intros Hext; [done|].
  rewrite !filter_cons, IH by (intros y Hy; apply Hext; by right).
  destruct (decide (P x)) as [Hp|Hp].
  - rewrite decide_True; [done|]. apply Hext; [by left|done].
  - rewrite decide_False; [done|]. intros Hq. apply Hp. apply Hext; [by left|done].
Qed.

Lemma remove_first_filter {A} `{EqDecision A} (x : A) (l : list A) :
  NoDup l -> remove_first x l = filter (fun y => y <> x) l.
Proof.
  induction 1 as [|y l Hy Hnd IH]; [done|]. cbn [remove_first].
  rewrite filter_cons. destruct (decide (y = x)) as [->|Hne].
  - rewrite decide_False by (intros Hc; by apply Hc).
    by rewrite filter_not_elem.
  - rewrite decide_True by done. by rewrite IH.
Qed.

Lemma remove_first_snoc {A} `{EqDecision A} (x : A) (l : list A) :
  x ∉ l -> remove_first x (l ++ [x]) = l.
Proof.
  induction l as [|y l IH]; cbn [remove_first app].
  - intros _. by rewrite decide_True.
  - intros [Hne Hl]%not_elem_of_cons.
    rewrite decide_False by (intros ->; by apply Hne). by rewrite IH.
Qed.

Lemma disconnect_active self ws :
  NoDup (active_connections self) ->
  active_connections (disconnect self ws)
  = filter (fun y => y <> ws) (active_connections self).
Proof.
  intros Hnd. cbn. case_bool_decide as Hin.
  - by apply remove_first_filter.
  - by rewrite filter_not_elem.
Qed.

Lemma foldl_disconnect_active l : forall self,
  NoDup (active_connections self) ->
  active_connections (foldl disconnect self l)
  = filter (fun y => y ∉ l) (active_connections self).
Proof.
  induction l as [|x l IH]; intros self Hnd; cbn [foldl].
  - symmetry. clear Hnd. induction (active_connections self) as [|y k IHk]; [done|].
    rewrite filter_cons, decide_True by apply not_elem_of_nil. by rewrite IHk.
  - rewrite IH by (rewrite disconnect_active by done; by apply NoDup_filter).
    rewrite disconnect_active by done. rewrite list_filter_filter.
    apply list_filter_iff. intros y. rewrite not_elem_of_cons. tauto.
Qed.

Lemma foldl_disconnect_last_sent l : forall self,
  last_sent (foldl disconnect self l) = last_sent self.
Proof. induction l as [|x l IH]; intros self; cbn [foldl]; [done|]. by rewrite IH. Qed.

Lemma subscribed_symbols_disconnect self ws ws' :
  subscribed_symbols (disconnect self ws) ws'
  = if decide (ws' = ws) then [] else subscribed_symbols self ws'.
Proof.
  unfold subscribed_symbols. rewrite ApiFacts.disconnect_subscriptions.
  destruct (decide (ws' = ws)) as [->|Hne].
  - by rewrite lookup_delete_eq.
  - by rewrite lookup_delete_ne.
Qed.

(** X9.  Connecting a consumer that the manager does not know and
    disconnecting it again gives the manager back unchanged. *)
Theorem connect_disconnect_round_trip self ws :
  ws ∉ active_connections self ->
  subscriptions self !! ws = None ->
  disconnect (connect self ws) ws = self.
Proof.
  intros Hin Hsub. apply ApiFacts.manager_eq; cbn; try done.
  - rewrite bool_decide_eq_true_2 by (apply elem_of_app; right; by left).
    by apply remove_first_snoc.
  - rewrite bool_decide_eq_true_2 by (rewrite lookup_insert_eq; by eexists).
    rewrite delete_insert_eq. by apply delete_id.
Qed.

Section WithTransport.
Variable send_text : WebSocket -> message -> bool.

Lemma push_key_sent_iff now self key m ws m' :
  (ws, m') ∈ (push_key send_text now self key m).2 <->
  m' = m /\ ws ∈ active_connections self /\ key ∈ subscribed_symbols self ws /\
  send_text ws m = true /\ 500 <= now - default 0 (last_sent self !! key).
Proof.
  unfold push_key. destruct (500 <=? _) eqn:Hdue.
  - apply Z.leb_le in Hdue.
    assert (forall (b : bool) (a c : WebSocketManager) (s : list (WebSocket * message)),
              (if b then (a, s) else (c, s)).2 = s) as Hif by (by intros []).
    rewrite Hif, ApiFacts.push_loop_sent. naive_solver.
  - apply Z.leb_gt in Hdue. cbn. split; [by intros ?%elem_of_nil|]. lia.
Qed.

Lemma push_loop_ext a b key m conns :
  subscriptions a = subscriptions b ->
  push_loop send_text a key m conns = push_loop send_text b key m conns.
Proof.
  intros Hsub. induction conns as [|ws conns IH]; [done|]. cbn [push_loop].
  unfold subscribed_symbols. by rewrite Hsub, IH.
Qed.

Lemma push_key_ext now a b key m :
  active_connections a = active_connections b ->
  subscriptions a = subscriptions b ->
  last_sent a !! key = last_sent b !! key ->
  (push_key send_text now a key m).2 = (push_key send_text now b key m).2.
Proof.
  intros Hact Hsub Hlast. unfold push_key. rewrite Hlast, Hact, (push_loop_ext a b) by done.
  destruct (500 <=? _); [|done]. by destruct (0 <? _)%nat.
Qed.

Lemma push_key_last_sent now self key m key' :
  last_sent (push_key send_text now self key m).1 !! key'
  = if decide (key' = key /\ (push_key send_text now self key m).2 <> [])
    then Some now else last_sent self !! key'.
Proof.
  unfold push_key. destruct (500 <=? _); cbn.
  - destruct (push_loop send_text self key m (active_connections self)) as [|d sent] eqn:Hs; cbn.
    + rewrite decide_False by naive_solver. done.
    + destruct (decide (key' = key)) as [->|Hne].
      * rewrite lookup_insert_eq. by rewrite decide_True.
      * rewrite lookup_insert_ne by done. rewrite decide_False by naive_solver. done.
  - rewrite decide_False by naive_solver. done.
Qed.

Lemma push_items_alone now items : forall self,
  NoDup items.*1 ->
  (push_items send_text now self items).2
  = concat (map (fun km => (push_key send_text now self km.1 km.2).2) items) /\
  (forall key,
     last_sent (push_items send_text now self items).1 !! key
     = match dict_get key items with
       | Some m => if decide ((push_key send_text now self key m).2 = [])
                   then last_sent self !! key else Some now
       | None => last_sent self !! key
       end).
Proof.
  induction items as [|[k m] items IH]; intros self Hnd; [done|].
  rewrite fmap_cons in Hnd. apply NoDup_cons in Hnd as [Hk Hnd]. cbn in Hk.
  cbn [push_items map concat fst snd dict_get].
  pose proof (ApiFacts.push_key_registry send_text now self k m) as (Hact & Hsub & _).
  destruct (push_key send_text now self k m) as [self1 sent1] eqn:Hpk. cbn [fst snd] in *.
  destruct (IH self1 Hnd) as [IHsent IHlast].
  destruct (push_items send_text now self1 items) as [self2 sent2]. cbn [fst snd] in *.
  assert (forall key, key <> k ->
            last_sent self1 !! key = last_sent self !! key) as Hother.
  { intros key Hne.
    pose proof (push_key_last_sent now self k m key) as Hl. rewrite Hpk in Hl. cbn in Hl.
    rewrite Hl. by rewrite decide_False by naive_solver. }
  split.
  - f_equal. rewrite IHsent. f_equal. apply map_ext_in. intros [k' m'] Hin. cbn.
    apply push_key_ext; try done. apply Hother. intros ->.
    apply Hk. apply list_elem_of_fmap. exists (k, m'). split; [done|].
    by apply list_elem_of_In.
  - intros key. rewrite IHlast. destruct (decide (k = key)) as [->|Hne].
    + assert (dict_get key items = None) as ->.
      { clear -Hk. induction items as [|[k' m'] items IH]; [done|]. cbn in *.
        apply not_elem_of_cons in Hk as [Hne Hk].
        rewrite decide_False by done. by apply IH. }
      pose proof (push_key_last_sent now self key m key) as Hl. rewrite Hpk in Hl. cbn in Hl.
      rewrite Hl, Hpk. cbn [snd]. destruct (decide (sent1 = [])) as [->|Hne].
      * by rewrite decide_False by naive_solver.
      * by rewrite decide_True.
    + destruct (dict_get key items) as [m'|] eqn:Hget; [|by apply Hother].
      rewrite (push_key_ext now self1 self key m') by (try done; by apply Hother).
      destruct (decide _); [by apply Hother|done].
Qed.

(** X10.  One pass of [push_latest_prices] over a cache with distinct
    keys treats every key as if it were pushed alone on the manager the
    pass started from: the deliveries are those of the keys in cache
    order, a delivery happens exactly for a cached message that is due, to
    an active consumer subscribed to its key whose send succeeds, and a
    key is stamped with the clock exactly when something was delivered
    for it. *)
Theorem push_latest_prices_pass current_time self :
  NoDup (latest_prices self).*1 ->
  let r := push_latest_prices send_text current_time self in
  r.2 = concat (map (fun km => (push_key send_text current_time self km.1 km.2).2)
                  (latest_prices self)) /\
  (forall ws m, (ws, m) ∈ r.2 <->
     exists key, (key, m) ∈ latest_prices self /\
       ws ∈ active_connections self /\ key ∈ subscribed_symbols self ws /\
       send_text ws m = true /\
       500 <= current_time - default 0 (last_sent self !! key)) /\
  (forall key,
     last_sent r.1 !! key
     = match dict_get key (latest_prices self) with
       | Some m => if decide ((push_key send_text current_time self key m).2 = [])
                   then last_sent self !! key else Some current_time
       | None => last_sent self !! key
       end).
Proof.
  intros Hnd r. subst r. unfold push_latest_prices.
  destruct (push_items_alone current_time (latest_prices self) self Hnd) as [Hsent Hlast].
  split_and!; [done| |done].
  intros ws m. rewrite Hsent, elem_of_concat. split.
  - intros (l & Hin & [[key m0] [-> Hkm]]%list_elem_of_fmap). cbn in Hin.
    apply push_key_sent_iff in Hin as (-> & ? & ? & ? & ?). exists key. done.
  - intros (key & Hkm & ? & ? & ? & ?).
    exists (push_key send_text current_time self key m).2. split.
    + by apply push_key_sent_iff.
    + apply list_elem_of_fmap. by exists (key, m).
Qed.

Lemma broadcast_loop_delivered self m f conns :
  (broadcast_loop send_text self m f conns).1
  = map (fun ws => (ws, m))
      (filter (fun ws => filtered_out self f ws = false /\ send_text ws m = true) conns).
Proof.
  induction conns as [|ws conns IH]; [done|]. cbn [broadcast_loop].
  destruct (broadcast_loop send_text self m f conns) as [sent disc]. cbn [fst] in IH.
  rewrite filter_cons.
  destruct (filtered_out self f ws) eqn:Hf.
  - rewrite decide_False by naive_solver. done.
  - destruct (send_text ws m) eqn:Hs.
    + rewrite decide_True by done. cbn. by rewrite IH.
    + rewrite decide_False by naive_solver. done.
Qed.

(** X11.  [broadcast] over distinct connections: the message goes, in
    connection order, to the consumers that pass the filter and whose
    send succeeds; exactly the consumers that pass the filter and whose
    send fails leave the registry, with their subscriptions; everybody
    else keeps its place and its subscriptions, and the price cache and
    the push stamps are untouched. *)
Theorem broadcast_drops_failed self m symbol_filter :
  NoDup (active_connections self) ->
  let r := broadcast send_text self m symbol_filter in
  let failed := fun ws => filtered_out self symbol_filter ws = false /\ send_text ws m = false in
  r.2 = map (fun ws => (ws, m))
          (filter (fun ws => filtered_out self symbol_filter ws = false /\ send_text ws m = true)
             (active_connections self)) /\
  active_connections r.1 = filter (fun ws => ~ failed ws) (active_connections self) /\
  (forall ws, ws ∈ active_connections self -> failed ws ->
     subscriptions r.1 !! ws = None) /\
  (forall ws, ~ failed ws -> subscriptions r.1 !! ws = subscriptions self !! ws) /\
  latest_prices r.1 = latest_prices self /\
  last_sent r.1 = last_sent self.
Proof.
  intros Hnd r failed. subst r. unfold broadcast.
  pose proof (broadcast_loop_delivered self m symbol_filter (active_connections self)) as Hsent.
  pose proof (ApiFacts.broadcast_loop_disconnected send_text self m symbol_filter
                (active_connections self)) as Hdisc.
  destruct (broadcast_loop send_text self m symbol_filter (active_connections self))
    as [sent disc]. cbn [fst snd] in *. subst disc.
  split_and!.
  - done.
  - rewrite foldl_disconnect_active by done.
    apply filter_ext_elem. intros ws Hin. rewrite list_elem_of_filter. unfold failed. tauto.
  - intros ws Hin Hf. rewrite ApiFacts.foldl_disconnect_subscriptions.
    rewrite bool_decide_eq_true_2; [done|]. by apply list_elem_of_filter.
  - intros ws Hf. rewrite ApiFacts.foldl_disconnect_subscriptions.
    rewrite bool_decide_eq_false_2; [done|]. by intros [? _]%list_elem_of_filter.
  - apply ApiFacts.foldl_disconnect_latest_prices.
  - apply foldl_disconnect_last_sent.
Qed.

Lemma push_items_sent_subscribed now items : forall self ws m,
  (ws, m) ∈ (push_items send_text now self items).2 ->
  exists key, key ∈ subscribed_symbols self ws.
Proof.
  induction items as [|[k m0] items IH]; intros self ws m; cbn [push_items].
  - by intros ?%elem_of_nil.
  - pose proof (ApiFacts.push_key_registry send_text now self k m0) as (_ & Hsub & _).
    pose proof (push_key_sent_iff now self k m0 ws m) as Hk.
    destruct (push_key send_text now self k m0) as [self1 sent1]. cbn [fst snd] in *.
    specialize (IH self1 ws m).
    destruct (push_items send_text now self1 items) as [self2 sent2]. cbn [fst snd] in *.
    intros [Hin|Hin]%elem_of_app.
    + apply Hk in Hin as (_ & _ & ? & _). by exists k.
    + destruct (IH Hin) as [key Hkey]. exists key.
      unfold subscribed_symbols in *. by rewrite <- Hsub.
Qed.

(** X12.  After [disconnect] a consumer holds no subscription, so no
    filtered broadcast and no periodic push delivers to it, whatever is
    left of it in the connection list; the subscriptions of every other
    consumer are as before. *)
Theorem disconnect_silences self websocket m key current_time :
  key <> "" ->
  let self' := disconnect self websocket in
  subscribed_symbols self' websocket = [] /\
  (forall m', (websocket, m') ∉ (broadcast send_text self' m (Some key)).2) /\
  (forall m', (websocket, m') ∉ (push_latest_prices send_text current_time self').2) /\
  (forall other, other <> websocket ->
     subscribed_symbols self' other = subscribed_symbols self other /\
     (other ∈ active_connections self' <-> other ∈ active_connections self)).
Proof.
  intros Hkey self'. subst self'.
  assert (subscribed_symbols (disconnect self websocket) websocket = []) as Hnone.
  { rewrite subscribed_symbols_disconnect. by rewrite decide_True. }
  split_and!.
  - done.
  - intros m' Hin. unfold broadcast in Hin.
    pose proof (ApiFacts.broadcast_loop_sent send_text (disconnect self websocket) m (Some key)
                  (active_connections (disconnect self websocket)) websocket m') as Hs.
    destruct (broadcast_loop _ _ _ _ _) as [sent disc]. cbn [fst snd] in *.
    apply Hs in Hin as (_ & _ & Hf & _).
    unfold filtered_out in Hf. rewrite Hnone in Hf.
    rewrite bool_decide_eq_false_2 in Hf by apply not_elem_of_nil.
    apply String.eqb_neq in Hkey. rewrite Hkey in Hf. done.
  - intros m' Hin. apply push_items_sent_subscribed in Hin as [k Hk].
    rewrite Hnone in Hk. by apply elem_of_nil in Hk.
  - intros other Hne. split.
    + rewrite subscribed_symbols_disconnect. by rewrite decide_False.
    + cbn. case_bool_decide as Hin; [|done]. split.
      * apply ApiFacts.remove_first_subseteq.
      * clear Hin. induction (active_connections self) as [|y l IH]; [done|].
        cbn [remove_first]. intros [->|Hin]%elem_of_cons.
        -- rewrite decide_False by done. by left.
        -- destruct (decide (y = websocket)); [done|]. right. by apply IH.
Qed.

End WithTransport.

Lemma length_get_price_history self symbol exchange days :
  (length (Database.get_price_history self symbol exchange days) <= days)%nat.
Proof.
  unfold Database.get_price_history, history_rows. rewrite length_map, length_take. lia.
Qed.

Lemma length_get_recent_ticks self symbol exchange limit :
  (length (Database.get_recent_ticks self symbol exchange limit) <= limit)%nat.
Proof.
  unfold Database.get_recent_ticks. rewrite length_map, length_take. lia.
Qed.

Lemma out_of_range_spec n hi :
  0 < hi ->
  negb (n =? 0) && ((n <? 1) || (hi <? n)) = true <-> n < 0 \/ hi < n.
Proof.
  intros Hhi. rewrite andb_true_iff, orb_true_iff, negb_true_iff.
  rewrite Z.eqb_neq, !Z.ltb_lt. lia.
Qed.

(** X13.  The history and tick endpoints reject exactly a nonzero
    count outside their range (1..365 days, 1..1000 ticks) with status
    400; a missing count and a count of zero are both served with the
    default (30 days, 100 ticks); a response never holds more rows than
    the count served, hence never more than 365 days or 1000 ticks. *)
Theorem endpoint_limits upper db symbol exchange n :
  let history := Endpoints.get_price_history upper db symbol exchange in
  let ticks := Endpoints.get_recent_ticks upper db symbol exchange in
  (history (Some n) = HTTPException 400 <-> n < 0 \/ 365 < n) /\
  (ticks (Some n) = HTTPException 400 <-> n < 0 \/ 1000 < n) /\
  history (Some 0) = history (Some 30) /\ history None = history (Some 30) /\
  ticks (Some 0) = ticks (Some 100) /\ ticks None = ticks (Some 100) /\
  (forall rows, history (Some n) = Response rows ->
     (Z.of_nat (length rows) <= 365) /\
     rows = Database.get_price_history db (upper symbol) (upper exchange)
              (Z.to_nat (if n =? 0 then 30 else n))) /\
  (forall rows, ticks (Some n) = Response rows ->
     (Z.of_nat (length rows) <= 1000) /\
     rows = Database.get_recent_ticks db (upper symbol) (upper exchange)
              (Z.to_nat (if n =? 0 then 100 else n))).
Proof.
  intros history ticks. subst history ticks.
  unfold Endpoints.get_price_history, Endpoints.get_recent_ticks, int_or, int_truthy.
  cbn [default from_option id].
  pose proof (out_of_range_spec n 365 ltac:(lia)) as Hh.
  pose proof (out_of_range_spec n 1000 ltac:(lia)) as Ht.
  split_and!; try done.
  - destruct (negb (n =? 0) && ((n <? 1) || (365 <? n))).
    + split; [intros _; by apply Hh|done].
    + split; [intros [=]|]. intros Hc. apply Hh in Hc. done.
  - destruct (negb (n =? 0) && ((n <? 1) || (1000 <? n))).
    + split; [intros _; by apply Ht|done].
    + split; [intros [=]|]. intros Hc. apply Ht in Hc. done.
  - intros rows. destruct (negb (n =? 0) && ((n <? 1) || (365 <? n))) eqn:Hr; [done|].
    intros [= <-].
    assert (~ (n < 0 \/ 365 < n)) as Hin by (intros Hc; apply Hh in Hc; done).
    destruct (n =? 0) eqn:Hn; cbn [negb]; (split; [|done]).
    + pose proof (length_get_price_history db (upper symbol) (upper exchange) (Z.to_nat 30)). lia.
    + pose proof (length_get_price_history db (upper symbol) (upper exchange) (Z.to_nat n)). lia.
  - intros rows. destruct (negb (n =? 0) && ((n <? 1) || (1000 <? n))) eqn:Hr; [done|].
    intros [= <-].
    assert (~ (n < 0 \/ 1000 < n)) as Hin by (intros Hc; apply Ht in Hc; done).
    destruct (n =? 0) eqn:Hn; cbn [negb]; (split; [|done]).
    + pose proof (length_get_recent_ticks db (upper symbol) (upper exchange) (Z.to_nat 100)). lia.
    + pose proof (length_get_recent_ticks db (upper symbol) (upper exchange) (Z.to_nat n)). lia.
Qed.

(** *** Closed examples *)

Lemma connect_disconnect_round_trip_witness :
  disconnect (connect two_consumers 3%nat) 3%nat = two_consumers.
Proof.
  apply (connect_disconnect_round_trip two_consumers 3%nat).
  - apply (bool_decide_unpack _). reflexivity.
  - vm_compute. reflexivity.
Defined.

Lemma broadcast_drops_failed_witness :
  active_connections
    (broadcast first_broken two_consumers reliance_message (Some reliance_key)).1
  = filter (fun ws => ~ (filtered_out two_consumers (Some reliance_key) ws = false /\
                         first_broken ws reliance_message = false))
      (active_connections two_consumers).
Proof.
  destruct (broadcast_drops_failed first_broken two_consumers reliance_message
              (Some reliance_key)) as (_ & Hactive & _).
  - apply (bool_decide_unpack _). reflexivity.
  - exact Hactive.
Defined.

Lemma push_latest_prices_pass_witness :
  (push_latest_prices first_broken 1000 two_consumers).2
  = concat (map (fun km => (push_key first_broken 1000 two_consumers km.1 km.2).2)
              (latest_prices two_consumers)).
Proof.
  destruct (push_latest_prices_pass first_broken 1000 two_consumers) as (Hsent & _).
  - apply (bool_decide_unpack _). reflexivity.
  - exact Hsent.
Defined.

Lemma disconnect_silences_witness :
  subscribed_symbols (disconnect two_consumers 1%nat) 1%nat = [].
Proof.
  destruct (disconnect_silences first_broken two_consumers 1%nat reliance_message
              reliance_key 1000) as (Hnone & _).
  - discriminate.
  - exact Hnone.
Defined.

End RegistryFacts.

(* ===================================================================== *)
(** ** More properties of the streamer: reconnection, ingest, fanout *)
(* ===================================================================== *)

Module PipelineFacts.
Import Database Api Streamer Scenario.
Local Open Scope Z_scope.

(** *** Reconnection *)

Section Reconnection.
Context {DB : Type}.

Lemma _streaming_loop_stopped outcomes (self : AngelPriceStreamer DB) :
  running self = false -> _streaming_loop outcomes self = [].
Proof. intros Hr. destruct outcomes; cbn; by rewrite ?Hr. Qed.

Lemma _streaming_loop_failures n : forall (self : AngelPriceStreamer DB),
  running self = true ->
  connected self = false ->
  _streaming_loop (repeat false n) self
  = map (fun i => Z.min (reconnect_delay self * 2 ^ (reconnect_attempts self + 1 + Z.of_nat i))
                        (max_reconnect_delay self))
      (seq 0 (Nat.min n (Z.to_nat (max_reconnect_attempts self - reconnect_attempts self)))).
Proof.
  induction n as [|n IH]; intros self Hrun Hconn; [done|].
  cbn [repeat _streaming_loop]. rewrite Hrun, Hconn. cbn [negb].
  unfold _handle_reconnection.
  destruct (max_reconnect_attempts self <=? reconnect_attempts self) eqn:Hmax.
  - apply Z.leb_le in Hmax.
    rewrite _streaming_loop_stopped by done.
    replace (Z.to_nat _) with 0%nat by lia. by rewrite Nat.min_0_r.
  - apply Z.leb_gt in Hmax. cbn zeta. rewrite IH by done. cbn.
    replace (Z.to_nat (max_reconnect_attempts self - reconnect_attempts self))
      with (S (Z.to_nat (max_reconnect_attempts self - (reconnect_attempts self + 1)))) by lia.
    cbn [Nat.min seq map]. f_equal.
    + do 3 f_equal. lia.
    + rewrite <- seq_shift, map_map. apply map_ext. intros i. do 3 f_equal. lia.
Qed.

(** X14.  While every reconnection attempt fails, the streaming loop
    sleeps [min(reconnect_delay * 2^k, max_reconnect_delay)] for
    [k = attempts+1, attempts+2, ...] and gives up when the attempt
    counter reaches [max_reconnect_attempts]: never more sleeps than
    attempts left, never a positive sleep above the maximum delay. *)
Theorem reconnect_budget n (self : AngelPriceStreamer DB) :
  running self = true ->
  connected self = false ->
  let delays := _streaming_loop (repeat false n) self in
  delays
  = map (fun i => Z.min (reconnect_delay self * 2 ^ (reconnect_attempts self + 1 + Z.of_nat i))
                        (max_reconnect_delay self))
      (seq 0 (Nat.min n (Z.to_nat (max_reconnect_attempts self - reconnect_attempts self)))) /\
  Z.of_nat (length delays) <= Z.max 0 (max_reconnect_attempts self - reconnect_attempts self) /\
  Forall (fun delay => delay <= max_reconnect_delay self) delays.
Proof.
  intros Hrun Hconn delays. subst delays.
  rewrite _streaming_loop_failures by done. split_and!.
  - done.
  - rewrite length_map, length_seq. lia.
  - apply Forall_forall. intros delay (i & -> & _)%list_elem_of_fmap. lia.
Qed.


End Reconnection.

(** *** Ingest *)

Lemma contains_app sep a b : contains sep (a +:+ b) = contains sep a || contains sep b.
Proof.
  induction a as [|c a IH]; [done|].
  change (String c a +:+ b) with (String c (a +:+ b)). cbn [contains].
  rewrite IH. by rewrite orb_assoc.
Qed.

Lemma split_aux_app sep a rest :
  contains sep a = false ->
  split_aux sep (a +:+ String sep rest) = (a, split sep rest).
Proof.
  induction a as [|c a IH].
  - intros _. change ("" +:+ String sep rest) with (String sep rest).
    cbn [split_aux]. unfold split. destruct (split_aux sep rest) as [hd tl].
    by rewrite Ascii.eqb_refl.
  - change (String c a +:+ String sep rest) with (String c (a +:+ String sep rest)).
    cbn [split_aux contains].
    intros [Hc Ha]%orb_false_iff. rewrite IH by done. by rewrite Hc.
Qed.

Lemma split_app sep a rest :
  contains sep a = false ->
  split sep (a +:+ String sep rest) = a :: split sep rest.
Proof. intros Ha. unfold split at 1. by rewrite split_aux_app. Qed.

Lemma split_head sep s : exists hd tl, split sep s = hd :: tl.
Proof. unfold split. destruct (split_aux sep s) as [hd tl]. by exists hd, tl. Qed.

Lemma split_no_sep sep a : contains sep a = false -> split sep a = [a].
Proof.
  unfold split. induction a as [|c a IH]; cbn [split_aux contains]; [done|].
  intros [Hc Ha]%orb_false_iff. specialize (IH Ha).
  destruct (split_aux sep a) as [hd tl]. rewrite Hc. by injection IH as -> ->.
Qed.

Lemma truthy_PStr s : s <> "" -> truthy (PStr s) = true.
Proof. intros Hs. cbn. by apply negb_true_iff, String.eqb_neq. Qed.

Section Ingest.
Context `{Builtins} {DB : Type}.
Variable upsert_price : DB -> pyval -> pyval -> dict -> DB * res bool.
Variable call_get_br_symbol : pyval -> res pyval.
Variable call_get_brexchange : pyval -> res pyval.

Lemma extract_topic exchange symbol tail data :
  contains "_" exchange = false ->
  symbol <> "" ->
  split "_" tail = symbol :: List.tl (split "_" tail) ->
  extract_symbol_exchange call_get_br_symbol call_get_brexchange
    (exchange +:+ "_" +:+ tail) data
  = ([], Ok (PStr symbol, PStr exchange)).
Proof.
  intros Hex Hsym Htail. unfold extract_symbol_exchange.
  assert (negb (String.eqb (exchange +:+ "_" +:+ tail) "")
          && contains "_" (exchange +:+ "_" +:+ tail) = true) as ->.
  { apply andb_true_iff. split.
    - apply negb_true_iff, String.eqb_neq. by destruct exchange.
    - rewrite contains_app. cbn. by rewrite orb_true_r. }
  change ("_" +:+ tail) with (String "_" tail).
  rewrite split_app, Htail by done.
  rewrite (truthy_PStr symbol) by done. cbn [negb andb]. by destruct data.
Qed.

(** X16.  A topic [EXCHANGE_SYMBOL] or [EXCHANGE_SYMBOL_rest] whose
    first two parts hold no underscore and whose symbol part is not
    empty decides the pair by itself: the first part is the exchange,
    the second the symbol, whatever follows the second underscore is
    dropped, the data is not consulted and no token lookup is made. *)
Theorem topic_decides exchange symbol rest data :
  contains "_" exchange = false ->
  contains "_" symbol = false ->
  symbol <> "" ->
  extract_symbol_exchange call_get_br_symbol call_get_brexchange
    (exchange +:+ "_" +:+ symbol) data
  = ([], Ok (PStr symbol, PStr exchange)) /\
  extract_symbol_exchange call_get_br_symbol call_get_brexchange
    (exchange +:+ "_" +:+ symbol +:+ "_" +:+ rest) data
  = ([], Ok (PStr symbol, PStr exchange)).
Proof.
  intros Hex Hsym Hne. split; apply extract_topic; try done.
  - by rewrite split_no_sep.
  - change ("_" +:+ rest) with (String "_" rest). by rewrite split_app.
Qed.

Lemma persist_cases e (self : AngelPriceStreamer DB) symbol exchange price_data :
  let p := persist upsert_price e self symbol exchange price_data in
  let key := db_key symbol exchange in
  (db_updates (stats p.1) = db_updates (stats self) + 1 /\
   _last_db_update p.1 = <[key := now e]> (_last_db_update self) /\
   exists d, upsert_price (db self) symbol exchange price_data = (d, Ok true) /\ db p.1 = d) \/
  (db_updates (stats p.1) = db_updates (stats self) /\
   _last_db_update p.1 = _last_db_update self).
Proof.
  intros p key. subst p key. unfold persist.
  destruct (match _last_db_update self !! db_key symbol exchange with
            | Some t => min_update_interval self <=? now e - t
            | None => true
            end); [|by right].
  destruct (upsert_price (db self) symbol exchange price_data) as [d [[]|x]] eqn:Hup;
    cbn; [left|by right|by right].
  split_and!; try done. by exists d.
Qed.

Lemma persist_frame_fields e (self : AngelPriceStreamer DB) symbol exchange price_data :
  let p := persist upsert_price e self symbol exchange price_data in
  min_update_interval p.1 = min_update_interval self /\
  _subscribers p.1 = _subscribers self /\
  running p.1 = running self /\
  connected p.1 = connected self /\
  broadcast_count (stats p.1) = broadcast_count (stats self).
Proof.
  intros p. subst p. unfold persist.
  destruct (match _last_db_update self !! db_key symbol exchange with
            | Some t => min_update_interval self <=? now e - t
            | None => true
            end); [|done].
  by destruct (upsert_price (db self) symbol exchange price_data) as [d [[]|x]].
Qed.

Lemma persist_too_early e (self : AngelPriceStreamer DB) symbol exchange price_data t :
  _last_db_update self !! db_key symbol exchange = Some t ->
  now e - t < min_update_interval self ->
  persist upsert_price e self symbol exchange price_data = (self, []).
Proof.
  intros Hlast Hearly. unfold persist. rewrite Hlast.
  by rewrite (proj2 (Z.leb_gt _ _)) by lia.
Qed.

(** X17.  The store write of the callback is rate limited per
    [symbol.exchange] key, and the limiter is armed exactly when a write
    is counted: either [db_updates] grows by one, the store write
    returned true and the key is stamped with the clock, after which
    every tick of the key that arrives less than [min_update_interval]
    later leaves the streamer and its store as they are; or the counter
    and the stamps are both unchanged, so that a failed or skipped write
    does not delay the next one. *)
Theorem store_write_rate_limited e (self : AngelPriceStreamer DB)
    symbol exchange price_data :
  let p := persist upsert_price e self symbol exchange price_data in
  let key := db_key symbol exchange in
  (db_updates (stats p.1) = db_updates (stats self) + 1 /\
   _last_db_update p.1 = <[key := now e]> (_last_db_update self) /\
   (exists d, upsert_price (db self) symbol exchange price_data = (d, Ok true) /\ db p.1 = d) /\
   (forall e' price_data',
      now e' - now e < min_update_interval self ->
      persist upsert_price e' p.1 symbol exchange price_data' = (p.1, []))) \/
  (db_updates (stats p.1) = db_updates (stats self) /\
   _last_db_update p.1 = _last_db_update self).
Proof.
  intros p key.
  destruct (persist_cases e self symbol exchange price_data) as [(Hc & Hl & Hd)|Hno];
    [left|by right].
  fold p in Hc, Hl, Hd. split_and!; try done.
  intros e' pd' Hearly.
  destruct (persist_frame_fields e self symbol exchange price_data) as (Hmin & _).
  fold p in Hmin.
  apply (persist_too_early e' p.1 symbol exchange pd' (now e)).
  - rewrite Hl. apply lookup_insert_eq.
  - by rewrite Hmin.
Qed.

Lemma handle_body_valid e (self : AngelPriceStreamer DB) topic d log1 symbol exchange :
  extract_symbol_exchange call_get_br_symbol call_get_brexchange topic (Some d)
    = (log1, Ok (symbol, exchange)) ->
  truthy symbol = true ->
  truthy exchange = true ->
  strictly_positive (resolved_ltp (Some d)) = true ->
  let body := handle_body upsert_price call_get_br_symbol call_get_brexchange
                e self topic (Some d) in
  self_after body.1
    = (persist upsert_price e (counted e self) symbol exchange
         (prepare_price_data d (now e))).1 /\
  scheduled body.1
    = if loop_running e
      then [ {| task_symbol := symbol; task_exchange := exchange;
                task_price_data := prepare_price_data d (now e) |} ]
      else [].
Proof.
  intros Hext Hs He Hltp body. subst body. unfold handle_body.
  rewrite Hext, Hs, He. cbn [negb orb].
  rewrite StreamerFacts.get_prepare_ltp.
  destruct (StreamerFacts.strictly_positive_inv _ Hltp) as (c & -> & Hc).
  cbn. rewrite (proj2 (Z.eqb_neq c 0)) by lia.
  rewrite (proj2 (Z.leb_gt c 0)) by lia. cbn.
  destruct (persist upsert_price e (counted e self) symbol exchange
              (prepare_price_data d (now e))) as [self' log2].
  by destruct (loop_running e).
Qed.

Lemma handle_market_data_valid e (self : AngelPriceStreamer DB) topic d log1 symbol exchange :
  extract_symbol_exchange call_get_br_symbol call_get_brexchange topic (Some d)
    = (log1, Ok (symbol, exchange)) ->
  truthy symbol = true ->
  truthy exchange = true ->
  strictly_positive (resolved_ltp (Some d)) = true ->
  let eff := effects_of (handle_market_data upsert_price call_get_br_symbol
                           call_get_brexchange e self topic (Some d)) in
  self_after eff
    = (persist upsert_price e (counted e self) symbol exchange
         (prepare_price_data d (now e))).1 /\
  scheduled eff
    = if loop_running e
      then [ {| task_symbol := symbol; task_exchange := exchange;
                task_price_data := prepare_price_data d (now e) |} ]
      else [].
Proof.
  intros Hext Hs He Hltp eff. subst eff.
  destruct (StreamerFacts.handle_market_data_effects upsert_price call_get_br_symbol
              call_get_brexchange e self topic (Some d)) as (eff & -> & Hself & Hsched).
  cbn [effects_of]. rewrite Hself, Hsched.
  by apply (handle_body_valid e self topic d log1).
Qed.

End Ingest.

(** X18.  Two valid ticks of one topic: when the first one was written
    to the store and the second arrives less than [min_update_interval]
    later, the second leaves the store exactly as the first left it (no
    tick row, no change of the day's aggregate) and is not counted as a
    store update, but it is still handed on for broadcast when the
    event loop runs. *)
Theorem burst_stored_once `{Builtins} today today' e e'
    (self : AngelPriceStreamer PriceDatabase) exchange symbol rest d d' :
  contains "_" exchange = false ->
  contains "_" symbol = false ->
  exchange <> "" ->
  symbol <> "" ->
  strictly_positive (resolved_ltp (Some d)) = true ->
  strictly_positive (resolved_ltp (Some d')) = true ->
  let topic := exchange +:+ "_" +:+ symbol +:+ "_" +:+ rest in
  let eff1 := effects_of (_handle_market_data today e self topic (Some d)) in
  let eff2 := effects_of (_handle_market_data today' e' (self_after eff1) topic (Some d')) in
  db_updates (stats (self_after eff1)) = db_updates (stats self) + 1 ->
  now e' - now e < min_update_interval self ->
  db (self_after eff2) = db (self_after eff1) /\
  db_updates (stats (self_after eff2)) = db_updates (stats (self_after eff1)) /\
  scheduled eff2
    = if loop_running e'
      then [ {| task_symbol := PStr symbol; task_exchange := PStr exchange;
                task_price_data := prepare_price_data d' (now e') |} ]
      else [].
Proof.
  intros Hex Hsym Hexne Hsymne Hltp Hltp' topic eff1 eff2 Hcounted Hearly.
  pose proof (fun data =>
    proj2 (topic_decides (fun s => TokenDb.get_br_symbol [s])
             (fun s => TokenDb.get_brexchange [s]) exchange symbol rest data Hex Hsym Hsymne))
    as Hext.
  destruct (handle_market_data_valid (store_upsert today e) _ _ e self topic d []
              (PStr symbol) (PStr exchange) (Hext _)
              (truthy_PStr _ Hsymne) (truthy_PStr _ Hexne) Hltp) as [Hself1 _].
  destruct (handle_market_data_valid (store_upsert today' e') _ _ e' (self_after eff1) topic d' []
              (PStr symbol) (PStr exchange) (Hext _)
              (truthy_PStr _ Hsymne) (truthy_PStr _ Hexne) Hltp') as [Hself2 Hsched2].
  fold (_handle_market_data today e self topic (Some d)) in Hself1. fold eff1 in Hself1.
  fold (_handle_market_data today' e' (self_after eff1) topic (Some d')) in Hself2, Hsched2.
  fold eff2 in Hself2, Hsched2.
  destruct (persist_cases (store_upsert today e) e (counted e self) (PStr symbol) (PStr exchange)
              (prepare_price_data d (now e))) as [(_ & Hlast & _)|[Hsame _]].
  2:{ rewrite <- Hself1 in Hsame. cbn in Hsame. lia. }
  destruct (persist_frame_fields (store_upsert today e) e (counted e self) (PStr symbol)
              (PStr exchange) (prepare_price_data d (now e))) as (Hmin & _).
  rewrite <- Hself1 in Hlast, Hmin. cbn in Hmin.
  rewrite (persist_too_early (store_upsert today' e') e' (counted e' (self_after eff1))
             (PStr symbol) (PStr exchange) _ (now e)) in Hself2.
  - rewrite Hself2, Hsched2. done.
  - cbn. rewrite Hlast. apply lookup_insert_eq.
  - cbn. rewrite Hmin. done.
Qed.

(** *** Fanout *)

Section Fanout.
Context `{Builtins} {DB : Type}.
Variable send_text : WebSocket -> message -> bool.

Lemma direct_loop_spec m subscribers :
  direct_loop send_text m subscribers
  = (map (fun ws => (ws, m)) (filter (fun ws => send_text ws m = true) subscribers),
     filter (fun ws => send_text ws m = false) subscribers).
Proof.
  induction subscribers as [|ws l IH]; [done|]. cbn [direct_loop]. rewrite IH.
  rewrite !filter_cons. destruct (send_text ws m) eqn:Hs.
  - rewrite decide_True by done. rewrite decide_False by done. done.
  - rewrite decide_False by done. rewrite decide_True by done. done.
Qed.

Lemma _broadcast_update_sent now_ms (self : AngelPriceStreamer DB) mgr t :
  let m := message_of now_ms t in
  let key := manager_key (task_symbol t) (task_exchange t) in
  (_broadcast_update send_text now_ms self mgr t).2
  = map (fun ws => (ws, m)) (filter (fun ws => send_text ws m = true) (_subscribers self))
    ++ map (fun ws => (ws, m))
         (filter (fun ws => filtered_out mgr (Some key) ws = false /\ send_text ws m = true)
            (active_connections mgr)).
Proof.
  intros m key. unfold _broadcast_update. fold m. fold key. rewrite direct_loop_spec.
  set (mgr' := {| active_connections := active_connections mgr;
                  subscriptions := subscriptions mgr;
                  latest_prices := dict_set key m (latest_prices mgr);
                  last_sent := last_sent mgr |}).
  pose proof (RegistryFacts.broadcast_loop_delivered send_text mgr' m (Some key)
                (active_connections mgr')) as Hsent.
  unfold broadcast.
  destruct (broadcast_loop send_text mgr' m (Some key) (active_connections mgr'))
    as [sent disc]. cbn [fst snd] in *. by rewrite Hsent.
Qed.

(** X19.  [_broadcast_update] keeps, in order, exactly the direct
    subscribers whose send succeeded, counts one broadcast per delivery
    to them plus one for the manager, delivers first to the direct
    subscribers and then to the active consumers of the manager that are
    subscribed to [EXCHANGE_SYMBOL], and leaves the store, the
    connection state and the rate limiter alone. *)
Theorem broadcast_update_direct now_ms (self : AngelPriceStreamer DB) mgr t :
  let r := _broadcast_update send_text now_ms self mgr t in
  let m := message_of now_ms t in
  let key := manager_key (task_symbol t) (task_exchange t) in
  let delivered := filter (fun ws => send_text ws m = true) (_subscribers self) in
  _subscribers r.1.1 = delivered /\
  broadcast_count (stats r.1.1)
    = broadcast_count (stats self) + Z.of_nat (length delivered) + 1 /\
  r.2 = map (fun ws => (ws, m)) delivered
        ++ map (fun ws => (ws, m))
             (filter (fun ws => filtered_out mgr (Some key) ws = false /\ send_text ws m = true)
                (active_connections mgr)) /\
  db r.1.1 = db self /\
  _last_db_update r.1.1 = _last_db_update self /\
  running r.1.1 = running self /\
  connected r.1.1 = connected self /\
  messages_received (stats r.1.1) = messages_received (stats self) /\
  db_updates (stats r.1.1) = db_updates (stats self).
Proof.
  intros r m key delivered. subst r. unfold _broadcast_update.
  fold m. fold key. rewrite direct_loop_spec. fold delivered.
  set (mgr' := {| active_connections := active_connections mgr;
                  subscriptions := subscriptions mgr;
                  latest_prices := dict_set key m (latest_prices mgr);
                  last_sent := last_sent mgr |}).
  pose proof (RegistryFacts.broadcast_loop_delivered send_text mgr' m (Some key)
                (active_connections mgr')) as Hsent.
  unfold broadcast.
  destruct (broadcast_loop send_text mgr' m (Some key) (active_connections mgr'))
    as [sent disc]. cbn [fst snd] in *. rewrite length_map.
  split_and!; try done.
  - cbn. unfold delivered.
    apply RegistryFacts.filter_ext_elem. intros ws Hin. rewrite list_elem_of_filter.
    destruct (send_text ws m); naive_solver.
  - by rewrite Hsent.
Qed.

End Fanout.

(** X20.  From the feed to the consumers: a valid tick whose topic is
    [EXCHANGE_SYMBOL_rest], handled while the event loop runs, schedules
    one task; running it delivers a [price_update] carrying the resolved
    last price to every active consumer of the manager that is
    subscribed to [EXCHANGE_SYMBOL] and whose send succeeds, delivers
    nothing but that message, and leaves it in the manager's cache under
    that key. *)
Theorem tick_reaches_subscribers `{Builtins} send_text today e t
    (self : AngelPriceStreamer PriceDatabase) mgr exchange symbol rest d :
  contains "_" exchange = false ->
  contains "_" symbol = false ->
  exchange <> "" ->
  symbol <> "" ->
  strictly_positive (resolved_ltp (Some d)) = true ->
  loop_running e = true ->
  let topic := exchange +:+ "_" +:+ symbol +:+ "_" +:+ rest in
  let eff := effects_of (_handle_market_data today e self topic (Some d)) in
  let m := {| m_symbol := PStr symbol; m_exchange := PStr exchange;
              m_data := prepare_price_data d (now e); m_timestamp := t |} in
  let r := run_tasks send_text t (self_after eff) mgr (scheduled eff) in
  get (m_data m) "ltp" = resolved_ltp (Some d) /\
  (forall ws, ws ∈ active_connections mgr ->
     (exchange +:+ "_" +:+ symbol) ∈ subscribed_symbols mgr ws ->
     send_text ws m = true -> (ws, m) ∈ r.2) /\
  (forall ws m', (ws, m') ∈ r.2 -> m' = m) /\
  dict_get (exchange +:+ "_" +:+ symbol) (latest_prices r.1.2) = Some m.
Proof.
  intros Hex Hsym Hexne Hsymne Hltp Hloop topic eff m r.
  pose proof (proj2 (topic_decides (fun s => TokenDb.get_br_symbol [s])
                       (fun s => TokenDb.get_brexchange [s]) exchange symbol rest (Some d)
                       Hex Hsym Hsymne)) as Hext.
  destruct (handle_market_data_valid (store_upsert today e) _ _ e self topic d []
              (PStr symbol) (PStr exchange) Hext
              (truthy_PStr _ Hsymne) (truthy_PStr _ Hexne) Hltp) as [_ Hsched].
  fold (_handle_market_data today e self topic (Some d)) in Hsched. fold eff in Hsched.
  rewrite Hloop in Hsched. subst r. rewrite Hsched. cbn [run_tasks].
  set (tk := {| task_symbol := PStr symbol; task_exchange := PStr exchange;
                task_price_data := prepare_price_data d (now e) |}).
  pose proof (_broadcast_update_sent send_text t (self_after eff) mgr tk) as Hsent.
  pose proof (StreamerFacts._broadcast_update_caches send_text t (self_after eff) mgr tk) as Hc.
  cbn zeta in Hsent.
  destruct (_broadcast_update send_text t (self_after eff) mgr tk) as [[self1 mgr1] sent1].
  cbn [fst snd] in *. change (message_of t tk) with m in *.
  change (manager_key (task_symbol tk) (task_exchange tk))
    with (exchange +:+ "_" +:+ symbol) in *.
  rewrite app_nil_r, Hsent. split_and!.
  - apply StreamerFacts.get_prepare_ltp.
  - intros ws Hin Hsub Hsend. apply elem_of_app. right.
    apply list_elem_of_fmap. exists ws. split; [done|].
    apply list_elem_of_filter. split; [|done]. split; [|done].
    by apply ApiFacts.filtered_out_subscribed.
  - intros ws m' [Hin|Hin]%elem_of_app;
      apply list_elem_of_fmap in Hin as (? & [= _ ->] & _); done.
  - done.
Qed.

(** *** Closed examples *)

Lemma reconnect_budget_witness :
  Z.of_nat (length (_streaming_loop (repeat false 12) lost_connection))
  <= Z.max 0 (max_reconnect_attempts lost_connection - reconnect_attempts lost_connection).
Proof.
  destruct (reconnect_budget 12 lost_connection) as (_ & Hlen & _).
  - reflexivity.
  - reflexivity.
  - exact Hlen.
Defined.

(** An exchange code that itself holds an underscore is cut at it. *)
Lemma topic_decides_witness :
  extract_symbol_exchange
    (fun symbol => TokenDb.get_br_symbol [symbol])
    (fun symbol => TokenDb.get_brexchange [symbol])
    "NSE_INDEX_NIFTY_LTP" None
  = ([], Ok (PStr "INDEX", PStr "NSE")).
Proof.
  destruct (topic_decides
              (fun symbol => TokenDb.get_br_symbol [symbol])
              (fun symbol => TokenDb.get_brexchange [symbol])
              "NSE" "INDEX" "NIFTY_LTP" None) as (_ & Hrest).
  - reflexivity.
  - reflexivity.
  - discriminate.
  - exact Hrest.
Defined.

Lemma burst_stored_once_witness :
  let eff1 := effects_of (_handle_market_data (H := plain_builtins) 7 in_loop fresh_streamer
                            "NSE_RELIANCE_QUOTE" (Some reliance_quote)) in
  let eff2 := effects_of (_handle_market_data (H := plain_builtins) 7 soon_after
                            (self_after eff1) "NSE_RELIANCE_QUOTE" (Some next_quote)) in
  db (self_after eff2) = db (self_after eff1).
Proof.
  destruct (burst_stored_once (H := plain_builtins) 7 7 in_loop soon_after fresh_streamer
              "NSE" "RELIANCE" "QUOTE" reliance_quote next_quote) as (Hdb & _).
  - reflexivity.
  - reflexivity.
  - discriminate.
  - discriminate.
  - vm_compute. reflexivity.
  - vm_compute. reflexivity.
  - vm_compute. reflexivity.
  - vm_compute. reflexivity.
  - exact Hdb.
Defined.

Lemma tick_reaches_subscribers_witness :
  let eff := effects_of (_handle_market_data (H := plain_builtins) 7 in_loop fresh_streamer
                           "NSE_RELIANCE_QUOTE" (Some reliance_quote)) in
  (2%nat, {| m_symbol := PStr "RELIANCE"; m_exchange := PStr "NSE";
             m_data := prepare_price_data reliance_quote (now in_loop);
             m_timestamp := 5000 |})
    ∈ (run_tasks (H := plain_builtins) first_broken 5000 (self_after eff) two_consumers
         (scheduled eff)).2.
Proof.
  destruct (tick_reaches_subscribers (H := plain_builtins) first_broken 7 in_loop 5000
              fresh_streamer two_consumers "NSE" "RELIANCE" "QUOTE" reliance_quote)
    as (_ & Hsent & _).
  - reflexivity.
  - reflexivity.
  - discriminate.
  - discriminate.
  - vm_compute. reflexivity.
  - reflexivity.
  - apply (Hsent 2%nat).
    + apply (bool_decide_unpack _). reflexivity.
    + apply (bool_decide_unpack _). reflexivity.
    + reflexivity.
Defined.

End PipelineFacts.

(* ===================================================================== *)
(** ** Properties of the token table, its cache and the symbol mapper *)
(* ===================================================================== *)

Module TokenFacts.
Import TokenDb TokenStore Mapping Scenario.

Lemma mock_get_set tbl k e k' :
  mock_get (mock_set tbl k e) k' = if decide (k' = k) then Some e else mock_get tbl k'.
Proof.
  induction tbl as [|[k0 e0] tbl IH]; cbn [mock_set mock_get].
  - destruct (decide (k = k')) as [->|Hne].
    + by rewrite decide_True.
    + by rewrite decide_False by (intros ->; done).
  - destruct (decide (k0 = k)) as [->|Hne]; cbn [mock_get].
    + destruct (decide (k = k')) as [->|Hne'].
      * by rewrite decide_True.
      * by rewrite decide_False by (intros ->; done).
    + destruct (decide (k0 = k')) as [->|Hne'].
      * by rewrite decide_False.
      * by rewrite IH.
Qed.

Lemma mock_get_elem tbl k e : mock_get tbl k = Some e -> (k, e) ∈ tbl.
Proof.
  induction tbl as [|[k0 e0] tbl IH]; cbn [mock_get]; [done|].
  destruct (decide (k0 = k)) as [->|Hne].
  - intros [= ->]. by left.
  - intros Hget. right. by apply IH.
Qed.

Lemma length_mock_set tbl k e :
  length (mock_set tbl k e)
  = match mock_get tbl k with Some _ => length tbl | None => S (length tbl) end.
Proof.
  induction tbl as [|[k0 e0] tbl IH]; cbn [mock_set mock_get]; [done|].
  destruct (decide (k0 = k)); cbn [length]; [done|]. rewrite IH.
  by destruct (mock_get tbl k).
Qed.

(** X21.  [add_mock_token] and the queries: the pair just registered
    answers with the token given and with the broker names given, an
    omitted or empty broker name standing for the plain one; every other
    pair answers as before; the table grows by one entry for a new pair
    and keeps its size for a known one; the cache is not touched. *)
Theorem add_mock_token_round_trip st symbol exchange tok brsym brex :
  let st' := add_mock_token st symbol exchange tok brsym brex in
  get_token_dbquery st' symbol exchange = Some tok /\
  get_br_symbol_dbquery st' symbol exchange = str_or brsym symbol /\
  get_brexchange_dbquery st' symbol exchange = str_or brex exchange /\
  (forall s e, (s, e) <> (symbol, exchange) ->
     get_token_dbquery st' s e = get_token_dbquery st s e /\
     get_br_symbol_dbquery st' s e = get_br_symbol_dbquery st s e /\
     get_brexchange_dbquery st' s e = get_brexchange_dbquery st s e) /\
  get_symbol_count st'
    = match get_token_dbquery st symbol exchange with
      | Some _ => get_symbol_count st
      | None => S (get_symbol_count st)
      end /\
  token_cache st' = token_cache st.
Proof.
  intros st'. subst st'.
  unfold get_token_dbquery, get_br_symbol_dbquery, get_brexchange_dbquery,
    get_symbol_count, add_mock_token. cbn [mock_tokens token_cache].
  rewrite !mock_get_set, decide_True by done. split_and!; try done.
  - intros s e Hne. rewrite !mock_get_set, decide_False by done. done.
  - rewrite length_mock_set. by destruct (mock_get (mock_tokens st) (symbol, exchange)).
Qed.

Lemma symbol_of_token_Some tbl tok exchange symbol :
  symbol_of_token tbl tok exchange = Some symbol ->
  exists exch data, ((symbol, exch), data) ∈ tbl /\ token data = tok /\
    (exch = exchange \/ brexchange data = exchange).
Proof.
  induction tbl as [|[[s x] d] tbl IH]; cbn [symbol_of_token]; [done|].
  destruct (decide _) as [[Ht Hx]|Hno].
  - intros [= ->]. exists x, d. split; [by left|done].
  - intros (exch & data & Hin & ?)%IH. exists exch, data. split; [by right|done].
Qed.

Lemma symbol_of_token_None tbl tok exchange :
  symbol_of_token tbl tok exchange = None <->
  forall symbol exch data, ((symbol, exch), data) ∈ tbl ->
    ~ (token data = tok /\ (exch = exchange \/ brexchange data = exchange)).
Proof.
  induction tbl as [|[[s x] d] tbl IH]; cbn [symbol_of_token].
  - split; [|done]. by intros _ ? ? ? ?%elem_of_nil.
  - destruct (decide _) as [Hyes|Hno].
    + split; [done|]. intros Hall. destruct (Hall s x d); [by left|done].
    + rewrite IH. split.
      * intros Hall s' x' d' Hin.
        apply elem_of_cons in Hin as [[= -> -> ->]|Hin]; [done|]. by apply (Hall s' x' d').
      * intros Hall s' x' d' Hin. apply (Hall s' x' d'). by right.
Qed.

(** X22.  [get_symbol_dbquery] answers with a symbol whose entry
    carries the token and has the exchange as its exchange or as its
    broker exchange, and answers [None] only when the table has no such
    entry; so the token of any registered pair is always mapped back to
    a registered symbol with that token, under the pair's exchange and
    under its broker exchange alike. *)
Theorem get_symbol_dbquery_sound st tok exchange :
  (forall symbol, get_symbol_dbquery st tok exchange = Some symbol ->
     exists exch data, mock_get (mock_tokens st) (symbol, exch) <> None /\
       ((symbol, exch), data) ∈ mock_tokens st /\ token data = tok /\
       (exch = exchange \/ brexchange data = exchange)) /\
  (get_symbol_dbquery st tok exchange = None <->
   forall symbol exch data, ((symbol, exch), data) ∈ mock_tokens st ->
     ~ (token data = tok /\ (exch = exchange \/ brexchange data = exchange))) /\
  (forall symbol data,
     mock_get (mock_tokens st) (symbol, exchange) = Some data -> token data = tok ->
     is_Some (get_symbol_dbquery st tok exchange) /\
     is_Some (get_symbol_dbquery st tok (brexchange data))).
Proof.
  unfold get_symbol_dbquery. split_and!.
  - intros symbol (exch & data & Hin & Ht & Hx)%symbol_of_token_Some.
    exists exch, data. split_and!; try done.
    clear -Hin. induction (mock_tokens st) as [|[k0 e0] tbl IH];
      [by apply elem_of_nil in Hin|]. cbn [mock_get].
    destruct (decide (k0 = (symbol, exch))); [done|].
    apply elem_of_cons in Hin as [[= <- <-]|Hin]; [done|]. by apply IH.
  - apply symbol_of_token_None.
  - intros symbol data Hget%mock_get_elem Ht. split.
    + destruct (symbol_of_token (mock_tokens st) tok exchange) eqn:Hq; [by eexists|].
      exfalso. pose proof (proj1 (symbol_of_token_None _ _ _) Hq symbol exchange data Hget) as Hc.
      apply Hc. split; [done|by left].
    + destruct (symbol_of_token (mock_tokens st) tok (brexchange data)) eqn:Hq; [by eexists|].
      exfalso. pose proof (proj1 (symbol_of_token_None _ _ _) Hq symbol exchange data Hget) as Hc.
      apply Hc. split; [done|by right].
Qed.

Section WithCache.
Variable evicted : gmap string string -> gmap string string.

(** X23.  The lookups share one cache and their keys overlap: the
    answer [get_br_symbol] caches for [(symbol, exchange)] sits under the
    key that [get_token] and [get_symbol] use for ["br" + symbol], so as
    long as that entry is alive both return the broker symbol of
    [symbol], from the cache, without consulting the table; the same
    holds for [get_oa_symbol] and ["oa" + symbol], and a token cached by
    [get_token] is what [get_symbol] returns for the symbol's name used
    as a token. *)
Theorem cache_keys_collide st symbol exchange :
  let br := get_br_symbol evicted st symbol exchange in
  let oa := get_oa_symbol evicted st symbol exchange in
  get_token evicted br.1 ("br" +:+ symbol) exchange = (br.1, Some br.2) /\
  get_symbol evicted br.1 ("br" +:+ symbol) exchange = (br.1, Some br.2) /\
  get_token evicted oa.1 ("oa" +:+ symbol) exchange = (oa.1, Some oa.2) /\
  (forall tok,
     (get_token evicted st symbol exchange).2 = Some tok ->
     get_symbol evicted (get_token evicted st symbol exchange).1 symbol exchange
     = ((get_token evicted st symbol exchange).1, Some tok)).
Proof.
  intros br oa. subst br oa.
  split_and!.
  - unfold get_br_symbol, get_token.
    destruct (token_cache st !! ("br" +:+ symbol +:+ "-" +:+ exchange)) as [v|] eqn:Hc;
      cbn [fst snd].
    + change (("br" +:+ symbol) +:+ "-" +:+ exchange)
        with ("br" +:+ symbol +:+ "-" +:+ exchange). by rewrite Hc.
    + cbn [cache_set token_cache].
      change (("br" +:+ symbol) +:+ "-" +:+ exchange)
        with ("br" +:+ symbol +:+ "-" +:+ exchange). by rewrite lookup_insert_eq.
  - unfold get_br_symbol, get_symbol.
    destruct (token_cache st !! ("br" +:+ symbol +:+ "-" +:+ exchange)) as [v|] eqn:Hc;
      cbn [fst snd].
    + change (("br" +:+ symbol) +:+ "-" +:+ exchange)
        with ("br" +:+ symbol +:+ "-" +:+ exchange). by rewrite Hc.
    + cbn [cache_set token_cache].
      change (("br" +:+ symbol) +:+ "-" +:+ exchange)
        with ("br" +:+ symbol +:+ "-" +:+ exchange). by rewrite lookup_insert_eq.
  - unfold get_oa_symbol, get_token.
    destruct (token_cache st !! ("oa" +:+ symbol +:+ "-" +:+ exchange)) as [v|] eqn:Hc;
      cbn [fst snd].
    + change (("oa" +:+ symbol) +:+ "-" +:+ exchange)
        with ("oa" +:+ symbol +:+ "-" +:+ exchange). by rewrite Hc.
    + cbn [cache_set token_cache].
      change (("oa" +:+ symbol) +:+ "-" +:+ exchange)
        with ("oa" +:+ symbol +:+ "-" +:+ exchange). by rewrite lookup_insert_eq.
  - intros tok. unfold get_token, get_symbol.
    destruct (token_cache st !! (symbol +:+ "-" +:+ exchange)) as [v|] eqn:Hc; cbn [fst snd].
    + intros [= ->]. by rewrite Hc.
    + destruct (get_token_dbquery st symbol exchange) as [t|]; cbn [fst snd]; [|done].
      intros [= ->]. cbn [cache_set token_cache]. by rewrite lookup_insert_eq.
Qed.


Lemma get_token_from_symbol_token st symbol exchange :
  match (get_token_from_symbol evicted st symbol exchange).2 with
  | Some info =>
      (get_token evicted st symbol exchange).2 = Some (i_token info) /\
      i_token info <> "" /\ i_symbol info = symbol /\ i_exchange info = exchange
  | None =>
      (get_token evicted st symbol exchange).2 = None \/
      (get_token evicted st symbol exchange).2 = Some ""
  end.
Proof.
  unfold get_token_from_symbol.
  destruct (get_token evicted st symbol exchange) as [st1 [tok|]]; cbn [snd].
  - destruct (get_br_symbol evicted st1 symbol exchange) as [st2 brs].
    destruct (get_brexchange evicted st2 symbol exchange) as [st3 brx].
    destruct (String.eqb tok "") eqn:He; cbn [negb snd].
    + apply String.eqb_eq in He as ->. by right.
    + apply String.eqb_neq in He. done.
  - destruct (get_br_symbol evicted st1 symbol exchange) as [st2 brs].
    destruct (get_brexchange evicted st2 symbol exchange) as [st3 brx]. cbn. by left.
Qed.

End WithCache.

Lemma string_length_app (a b : string) :
  String.length (a +:+ b) = (String.length a + String.length b)%nat.
Proof.
  induction a as [|c a IH]; [done|].
  change (String c a +:+ b) with (String c (a +:+ b)). cbn [String.length]. by rewrite IH.
Qed.

Lemma get_token_miss evicted st symbol exchange :
  token_cache st !! (symbol +:+ "-" +:+ exchange) = None ->
  get_token evicted st symbol exchange
  = match get_token_dbquery st symbol exchange with
    | Some tok => (cache_set evicted st (symbol +:+ "-" +:+ exchange) tok, Some tok)
    | None => (st, None)
    end.
Proof. intros Hc. unfold get_token. by rewrite Hc. Qed.

Lemma get_br_symbol_miss evicted st symbol exchange :
  token_cache st !! ("br" +:+ symbol +:+ "-" +:+ exchange) = None ->
  get_br_symbol evicted st symbol exchange
  = (cache_set evicted st ("br" +:+ symbol +:+ "-" +:+ exchange)
       (get_br_symbol_dbquery st symbol exchange),
     get_br_symbol_dbquery st symbol exchange).
Proof. intros Hc. unfold get_br_symbol. by rewrite Hc. Qed.

Lemma get_br_symbol_hit evicted st symbol exchange cached :
  token_cache st !! ("br" +:+ symbol +:+ "-" +:+ exchange) = Some cached ->
  get_br_symbol evicted st symbol exchange = (st, cached).
Proof. intros Hc. unfold get_br_symbol. by rewrite Hc. Qed.

Lemma get_brexchange_miss evicted st symbol exchange :
  token_cache st !! ("brex-" +:+ symbol +:+ "-" +:+ exchange) = None ->
  get_brexchange evicted st symbol exchange
  = (cache_set evicted st ("brex-" +:+ symbol +:+ "-" +:+ exchange)
       (get_brexchange_dbquery st symbol exchange),
     get_brexchange_dbquery st symbol exchange).
Proof. intros Hc. unfold get_brexchange. by rewrite Hc. Qed.

Lemma get_brexchange_hit evicted st symbol exchange cached :
  token_cache st !! ("brex-" +:+ symbol +:+ "-" +:+ exchange) = Some cached ->
  get_brexchange evicted st symbol exchange = (st, cached).
Proof. intros Hc. unfold get_brexchange. by rewrite Hc. Qed.

Lemma keys_distinct symbol exchange :
  symbol +:+ "-" +:+ exchange <> "br" +:+ symbol +:+ "-" +:+ exchange /\
  symbol +:+ "-" +:+ exchange <> "brex-" +:+ symbol +:+ "-" +:+ exchange /\
  "br" +:+ symbol +:+ "-" +:+ exchange <> "brex-" +:+ symbol +:+ "-" +:+ exchange.
Proof.
  split_and!; intros Heq; apply (f_equal String.length) in Heq;
    rewrite !string_length_app in Heq; cbn in Heq; lia.
Qed.

(** X25.  [get_token_from_symbol] asks for the broker names before it
    looks at the token.  Take a pair that is not in the table and has no
    live cache entry under any of its three keys ([symbol-exchange],
    [br...] and [brex-...]), and let nothing leave the cache: the
    question about the pair is answered [None] and still leaves both
    fallbacks cached, so once the pair is registered the answer carries
    the new token together with the plain symbol and exchange, where the
    table holds the broker names given. *)
Theorem get_token_from_symbol_stale st symbol exchange tok brsym brex :
  mock_get (mock_tokens st) (symbol, exchange) = None ->
  token_cache st !! (symbol +:+ "-" +:+ exchange) = None ->
  token_cache st !! ("br" +:+ symbol +:+ "-" +:+ exchange) = None ->
  token_cache st !! ("brex-" +:+ symbol +:+ "-" +:+ exchange) = None ->
  tok <> "" ->
  let keep := fun c : gmap string string => c in
  let asked := get_token_from_symbol keep st symbol exchange in
  let st' := add_mock_token asked.1 symbol exchange tok brsym brex in
  asked.2 = None /\
  token_cache asked.1 !! ("br" +:+ symbol +:+ "-" +:+ exchange) = Some symbol /\
  token_cache asked.1 !! ("brex-" +:+ symbol +:+ "-" +:+ exchange) = Some exchange /\
  (get_token_from_symbol keep st' symbol exchange).2
    = Some {| i_token := tok; i_symbol := symbol; i_exchange := exchange;
              i_brsymbol := symbol; i_brexchange := exchange |} /\
  get_br_symbol_dbquery st' symbol exchange = str_or brsym symbol /\
  get_brexchange_dbquery st' symbol exchange = str_or brex exchange.
Proof.
  intros Hnew Htk Hbr Hbrex Htok keep asked st'.
  destruct (keys_distinct symbol exchange) as (Hk1 & Hk2 & Hk3).
  set (st2 := {| mock_tokens := mock_tokens st;
                 token_cache :=
                   <["brex-" +:+ symbol +:+ "-" +:+ exchange := exchange]>
                     (<["br" +:+ symbol +:+ "-" +:+ exchange := symbol]> (token_cache st)) |}).
  assert (get_token_from_symbol keep st symbol exchange = (st2, None)) as Hasked.
  { unfold get_token_from_symbol.
    rewrite (get_token_miss keep st) by done.
    unfold get_token_dbquery. rewrite Hnew.
    rewrite (get_br_symbol_miss keep st) by done.
    rewrite get_brexchange_miss
      by (unfold cache_set, keep; cbn [token_cache]; by rewrite lookup_insert_ne).
    unfold get_br_symbol_dbquery, get_brexchange_dbquery, cache_set, keep, st2.
    cbn [mock_tokens token_cache]. rewrite Hnew. done. }
  subst asked st'. rewrite Hasked. cbn [fst snd]. split_and!.
  - done.
  - unfold st2. cbn [token_cache].
    rewrite lookup_insert_ne by done. by rewrite lookup_insert_eq.
  - unfold st2. cbn [token_cache]. by rewrite lookup_insert_eq.
  - unfold get_token_from_symbol.
    rewrite get_token_miss.
    2:{ unfold add_mock_token, st2. cbn [token_cache].
        by rewrite !lookup_insert_ne by done. }
    unfold get_token_dbquery at 1. unfold add_mock_token at 1. cbn [mock_tokens].
    rewrite mock_get_set, decide_True by done. cbn [token].
    rewrite (get_br_symbol_hit _ _ _ _ symbol).
    2:{ unfold cache_set, add_mock_token, st2, keep. cbn [token_cache].
        rewrite lookup_insert_ne by done. rewrite lookup_insert_ne by done.
        by rewrite lookup_insert_eq. }
    rewrite (get_brexchange_hit _ _ _ _ exchange).
    2:{ unfold cache_set, add_mock_token, st2, keep. cbn [token_cache].
        rewrite lookup_insert_ne by done. by rewrite lookup_insert_eq. }
    apply String.eqb_neq in Htok. rewrite Htok. cbn [negb snd str_or].
    do 2 f_equal.
    + by destruct (String.eqb symbol "").
    + by destruct (String.eqb exchange "").
  - unfold get_br_symbol_dbquery, add_mock_token. cbn [mock_tokens].
    by rewrite mock_get_set, decide_True.
  - unfold get_brexchange_dbquery, add_mock_token. cbn [mock_tokens].
    by rewrite mock_get_set, decide_True.
Qed.

(** *** Closed examples *)


Lemma get_token_from_symbol_stale_witness :
  let asked := get_token_from_symbol (fun c => c) initial "HDFCBANK" "NSE" in
  let st' := add_mock_token asked.1 "HDFCBANK" "NSE" "1333" (Some "HDFCBANK-EQ") None in
  asked.2 = None /\
  (get_token_from_symbol (fun c => c) st' "HDFCBANK" "NSE").2
  = Some {| i_token := "1333"; i_symbol := "HDFCBANK"; i_exchange := "NSE";
            i_brsymbol := "HDFCBANK"; i_brexchange := "NSE" |}.
Proof.
  destruct (get_token_from_symbol_stale initial "HDFCBANK" "NSE" "1333"
              (Some "HDFCBANK-EQ") None) as (Hnone & _ & _ & Hstale & _).
  - reflexivity.
  - reflexivity.
  - reflexivity.
  - reflexivity.
  - discriminate.
  - split; [exact Hnone|exact Hstale].
Defined.

End TokenFacts.

(* ===================================================================== *)
(** ** Properties of the token store of the broker login *)
(* ===================================================================== *)

Module AuthFacts.
Import Api AuthDb AuthHelper Scenario.
Local Open Scope Z_scope.

Lemma dict_set_nonempty {V} k (v : V) d : dict_set k v d <> [].
Proof. destruct d as [|[k' v'] d]; cbn; [done|]. by destruct (decide (k' = k)). Qed.


Lemma dict_get_pop {V} k k' (d : list (string * V)) :
  dict_get k (dict_pop k' d) = if decide (k = k') then None else dict_get k d.
Proof.
  unfold dict_pop. induction d as [|[k0 v0] d IH]; cbn [dict_get].
  - rewrite filter_nil. by destruct (decide (k = k')).
  - rewrite filter_cons. cbn [fst]. destruct (decide (k0 <> k')) as [Hne|Heq]; cbn [dict_get].
    + destruct (decide (k0 = k)) as [->|Hne0]; [by rewrite decide_False|]. apply IH.
    + assert (k0 = k') as -> by (by destruct (decide (k0 = k')); [|destruct Heq]).
      rewrite IH. destruct (decide (k = k')) as [->|Hne]; [done|].
      by rewrite decide_False by (intros ->; done).
Qed.

Lemma dict_get_pops {V} k users : forall d : list (string * V),
  dict_get k (foldl (fun d user_id => dict_pop user_id d) d users)
  = if bool_decide (k ∈ users) then None else dict_get k d.
Proof.
  induction users as [|u users IH]; intros d; cbn [foldl].
  - by rewrite bool_decide_eq_false_2 by apply not_elem_of_nil.
  - rewrite IH, dict_get_pop. destruct (decide (k = u)) as [->|Hne].
    + rewrite (bool_decide_eq_true_2 (u ∈ u :: users)) by (by left).
      by destruct (bool_decide (u ∈ users)).
    + case_bool_decide as Hin.
      * by rewrite bool_decide_eq_true_2 by (by right).
      * rewrite bool_decide_eq_false_2; [done|].
        by intros [?|?]%elem_of_cons.
Qed.

(** X26.  Tokens held in memory are never checked for expiry: after
    [store_tokens] both tokens of the user are returned at any later
    clock, past the expiry recorded for them (24 hours after the store)
    as well, whatever became of the file, and the lookups change
    nothing. *)
Theorem stored_tokens_outlive_expiry now outcomes st auth_token feed_token user_id later :
  let st' := store_tokens now outcomes st auth_token feed_token user_id in
  get_auth_token later st' (Some user_id) = (st', Some auth_token) /\
  get_feed_token later st' (Some user_id) = (st', Some feed_token) /\
  dict_get user_id (_token_expiry st') = Some (now + 24 * 3600000).
Proof.
  intros st'. subst st'. unfold store_tokens, store_feed_token, store_auth_token,
    _save_tokens, get_auth_token, get_feed_token.
  cbn [_auth_tokens _feed_tokens _token_expiry TOKEN_FILE default from_option id].
  rewrite !bool_decide_eq_false_2 by apply dict_set_nonempty.
  cbn [_auth_tokens _feed_tokens]. by rewrite !ApiFacts.dict_get_set.
Qed.

(** X27.  Expiry is enforced when the file is loaded, and only for
    users with a recorded expiry: a user whose recorded expiry is before
    the clock comes out of the load with no token at all; a user with no
    expired record keeps the tokens of the file; the file itself is not
    rewritten by the load. *)
Theorem expiry_enforced_on_load now data user_id :
  let st := imported now (Saved data) in
  (forall exp, (user_id, exp) ∈ token_expiry data -> exp < now ->
     dict_get user_id (_auth_tokens st) = None /\
     dict_get user_id (_feed_tokens st) = None /\
     dict_get user_id (_token_expiry st) = None) /\
  ((forall exp, (user_id, exp) ∈ token_expiry data -> now <= exp) ->
     dict_get user_id (_auth_tokens st) = dict_get user_id (auth_tokens data) /\
     dict_get user_id (_feed_tokens st) = dict_get user_id (feed_tokens data) /\
     dict_get user_id (_token_expiry st) = dict_get user_id (token_expiry data)) /\
  TOKEN_FILE st = Saved data.
Proof.
  intros st. subst st. unfold imported, _load_tokens.
  cbn [TOKEN_FILE _auth_tokens _feed_tokens _token_expiry].
  rewrite !dict_get_pops. split_and!; [| |done].
  - intros exp Hin Hlt. rewrite bool_decide_eq_true_2; [done|].
    apply list_elem_of_fmap. exists (user_id, exp). split; [done|].
    by apply list_elem_of_filter.
  - intros Hall. rewrite bool_decide_eq_false_2; [done|].
    intros ([u exp] & -> & [Hlt Hin]%list_elem_of_filter)%list_elem_of_fmap.
    cbn in *. specialize (Hall exp Hin). lia.
Qed.

Section WithBroker.
Variable authenticate_broker :
  string -> string -> string -> option string * option string * option string.
Variable getenv : string -> option string.


End WithBroker.

(** *** Closed examples *)


End AuthFacts.

(* ===================================================================== *)
(** ** Properties of the client information *)
(* ===================================================================== *)

Module ClientInfoFacts.
Import ClientInfo.
Local Open Scope Z_scope.

Lemma mac_byte_low node elements :
  0 <= elements <= 10 ->
  Z.land (Z.shiftr node elements) 255 = Z.land (Z.shiftr (node mod 2 ^ 18) elements) 255.
Proof.
  intros He. apply Z.bits_inj'. intros n Hn.
  rewrite !Z.land_spec, !Z.shiftr_spec by done.
  destruct (decide (n < 8)) as [Hlt|Hge].
  - by rewrite Z.mod_pow2_bits_low by lia.
  - change 255 with (Z.ones 8). rewrite Z.ones_spec_high by lia.
    by rewrite !andb_false_r.
Qed.

Lemma mac_byte_range node elements : 0 <= Z.land (Z.shiftr node elements) 255 < 256.
Proof.
  change 255 with (Z.ones 8). rewrite Z.land_ones by done.
  apply Z.mod_pos_bound. done.
Qed.

Lemma mac_byte_overlap node elements :
  0 <= elements ->
  Z.land (Z.shiftr node elements) 255 / 4
  = Z.land (Z.shiftr node (elements + 2)) 255 mod 64.
Proof.
  intros He. change 255 with (Z.ones 8). rewrite !Z.land_ones by done.
  rewrite !Z.shiftr_div_pow2 by lia.
  rewrite Z.pow_add_r by lia.
  rewrite <- Z.div_div by lia.
  set (x := node / 2 ^ elements).
  change (2 ^ 2) with 4. change (2 ^ 8) with 256.
  pose proof (Z.div_mod x 256 ltac:(lia)).
  pose proof (Z.mod_pos_bound x 256 ltac:(lia)).
  pose proof (Z.div_mod (x / 4) 256 ltac:(lia)).
  pose proof (Z.div_mod x 4 ltac:(lia)).
  pose proof (Z.mod_pos_bound x 4 ltac:(lia)).
  pose proof (Z.mod_pos_bound (x / 4) 256 ltac:(lia)).
  pose proof (Z.div_mod ((x / 4) mod 256) 64 ltac:(lia)).
  pose proof (Z.mod_pos_bound ((x / 4) mod 256) 64 ltac:(lia)).
  pose proof (Z.div_mod (x mod 256) 4 ltac:(lia)).
  pose proof (Z.mod_pos_bound (x mod 256) 4 ltac:(lia)).
  lia.
Qed.

Lemma format_02x_length_checked :
  forallb (fun b => (String.length (format_02x (Z.of_nat b)) =? 2)%nat) (seq 0 256) = true.
Proof. vm_compute. reflexivity. Qed.

Lemma format_02x_length b : 0 <= b < 256 -> String.length (format_02x b) = 2%nat.
Proof.
  intros Hb. pose proof format_02x_length_checked as Hall.
  rewrite forallb_forall in Hall. specialize (Hall (Z.to_nat b)).
  rewrite Z2Nat.id in Hall by lia. apply Nat.eqb_eq, Hall.
  apply in_seq. lia.
Qed.

(** X29.  The MAC address put in the request headers is built from the
    node number shifted by 0, 2, ..., 10 bits, so it is a function of the
    low 18 bits of the node alone: two nodes that agree on them get the
    same address; it always has six two-digit groups (17 characters); and
    neighbouring groups overlap in six bits, each group's low six bits
    being the top six bits of the group printed after it. *)
Theorem mac_address_low_bits node :
  mac_address (Ok node) = mac_address (Ok (node mod 2 ^ 18)) /\
  String.length (mac_address (Ok node)) = 17%nat /\
  Forall (fun b => 0 <= b < 256) (mac_bytes node) /\
  (forall i b b', mac_bytes node !! i = Some b -> mac_bytes node !! S i = Some b' ->
     b mod 64 = b' / 4).
Proof.
  split_and!.
  - unfold mac_address, mac_bytes. cbn [map rev app].
    by rewrite !(mac_byte_low node) by lia.
  - unfold mac_address, mac_bytes. cbn [map rev app join fold_left].
    rewrite !TokenFacts.string_length_app.
    rewrite !format_02x_length by apply mac_byte_range. done.
  - unfold mac_bytes. cbn [map rev app]. repeat constructor; apply mac_byte_range.
  - unfold mac_bytes. cbn [map rev app]. intros i b b' Hb Hb'.
    do 5 (destruct i as [|i]; [cbn in Hb, Hb'; injection Hb as <-; injection Hb' as <-;
                                symmetry; by apply (mac_byte_overlap node)|]).
    destruct i; done.
Qed.

End ClientInfoFacts.
